(** * Webhook verification pipeline of the merchant backend

    A shallow embedding of the decision pipeline of the merchant backend
    (listener verification, payment verification, duplicate tracking,
    proof generation, confirmation monitoring and the webhook handler),
    with the properties of its specification stated and proved on it.

    Conventions of the embedding:
    - a JavaScript [Map] is a [gmap]; [process.env] is a [gmap string string];
    - JavaScript integers (timestamps in milliseconds, block numbers) and
      [bigint] values are [Z]; where the rounding of the numbers of the
      language matters (a number read by [parseInt], printed by
      [JSON.stringify] or computed from a query parameter) they are
      doubles, see [JsNumber];
    - a call that may throw (or a promise that may reject) returns a
      [Result]; the behaviour of remote collaborators (the RPC endpoint, the
      order store, the mailer, the socket server) is an input of the model;
    - the [ethers] library is an interface ([Class Ethers]);
    - a log line is modelled where writing it can throw: [logger.error]
      serialises its second argument with [JSON.stringify], which throws on
      a [bigint]. The errors of the collaborators carry strings and numbers;
      the errors that carry a [bigint] are the overflow fault of
      [parseEther] and the out-of-bounds fault of [signTypedData]. The other
      log lines are not modelled. *)

From Stdlib Require Import ZArith Bool List.
From stdpp Require Import base gmap strings pretty list fin_maps.
Import ListNotations.

Local Open Scope string_scope.
Local Open Scope list_scope.
Local Open Scope Z_scope.

(** ** JavaScript values the code handles *)

(** A thrown value. [err_is_Error] is [error instanceof Error]; [err_code]
    and [err_message] are [error.code] and [error.message] when they are
    strings. *)
Record JsError := mkJsError {
  err_is_Error : bool;
  err_code : option string;
  err_message : option string;
  err_stack : option string
}.

(** [new Error(msg)] *)
Definition new_Error (msg : string) : JsError :=
  {| err_is_Error := true; err_code := None; err_message := Some msg;
     err_stack := Some ("Error: " +:+ msg) |}.

(** The value [undefined] when it is thrown. *)
Definition thrown_undefined : JsError :=
  {| err_is_Error := false; err_code := None; err_message := None;
     err_stack := None |}.

Inductive Result (A : Type) : Type :=
| Ok (a : A)
| Throw (e : JsError).
Arguments Ok {A} a.
Arguments Throw {A} e.

Definition is_Ok {A} (r : Result A) : bool :=
  match r with Ok _ => true | Throw _ => false end.

(** [error instanceof Error ? error.message : 'Unknown error'] *)
Definition error_message_or_unknown (error : JsError) : string :=
  if err_is_Error error then default "" (err_message error)
  else "Unknown error".

(** [hay.includes(needle)] *)
Fixpoint includes (needle hay : string) : bool :=
  String.prefix needle hay ||
  match hay with
  | EmptyString => false
  | String _ rest => includes needle rest
  end.

(** Truthiness of an optional string: [undefined] and [''] are falsy. *)
Definition truthy (s : option string) : bool :=
  match s with
  | Some s => negb (String.eqb s "")
  | None => false
  end.

(** [s || dflt] on an optional string. *)
Definition or_else (s : option string) (dflt : string) : string :=
  match s with
  | Some s => if String.eqb s "" then dflt else s
  | None => dflt
  end.

(** [process.env.NAME === 'true'] *)
Definition env_is_true (env : gmap string string) (name : string) : bool :=
  match env !! name with
  | Some v => String.eqb v "true"
  | None => false
  end.

(** ** Logging: utils/logger.ts

    [logger.error(message, meta)] formats its line at every log level, and
    the line ends with [JSON.stringify(meta)]. *)

(** What [JSON.stringify] throws on an object that holds a [bigint]. *)
Definition stringify_bigint : JsError :=
  {| err_is_Error := true; err_code := None;
     err_message := Some "Do not know how to serialize a BigInt";
     err_stack := Some "TypeError: Do not know how to serialize a BigInt" |}.

(** ** The [ethers] library, as the code uses it *)

Class Ethers := {
  (** [ethers.parseEther(s)]: the amount in wei, or a throw on a string that
      is not a decimal amount *)
  parseEther : string -> Result Z;
  (** [parseEther(s)] throws its overflow fault: the amount does not fit
      the 512 bits of the library's fixed-point format. The error of this
      fault holds the amount in wei, a [bigint], as its [value]. *)
  parseEther_overflows : string -> bool;
  (** [ethers.formatEther(wei)] *)
  formatEther : Z -> string;
  (** [ethers.isAddress(s)] *)
  isAddress : string -> bool;
  (** [ethers.verifyMessage(message, signature)]: the recovered address *)
  verifyMessage : string -> string -> Result string;
  (** [ethers.solidityPackedKeccak256(['bytes32','address'], [id, addr])] *)
  solidityPackedKeccak256 : string -> string -> Result string;
  (** [merchantWallet.signMessage(ethers.getBytes(message))] *)
  signMessage : string -> Result string
}.

(** ** Configuration: [VERIFICATION_THRESHOLDS] of config/contracts

    The numeric fields hold the integer [parseInt] returned when the module
    was loaded. *)
Record Thresholds := {
  minListenerStake : string;
  minListenerReputation : Z;
  minConfirmations : Z;
  proofExpirySeconds : Z
}.

(** The thresholds when no environment variable overrides them. *)
Definition default_thresholds : Thresholds :=
  {| minListenerStake := "0.01"; minListenerReputation := 30;
     minConfirmations := 3; proofExpirySeconds := 3600 |}.

(** ** Retrying ledger client: [retryWithBackoff] of listenerVerification.ts *)
Module Retry.

(** What a run of the client does, in order. *)
Inductive Event :=
| Call (attempt : nat)
| Sleep (ms : Z).

Definition baseDelay : Z := 1000.

Definition code_is (error : JsError) (c : string) : bool :=
  match err_code error with
  | Some c' => String.eqb c' c
  | None => false
  end.

Definition message_includes (error : JsError) (s : string) : bool :=
  match err_message error with
  | Some m => includes s m
  | None => false
  end.

Definition isTimeout (error : JsError) : bool :=
  code_is error "TIMEOUT" ||
  code_is error "ETIMEDOUT" ||
  code_is error "NETWORK_ERROR" ||
  message_includes error "timeout" ||
  message_includes error "network".

(** [Math.min(baseDelay * Math.pow(2, attempt - 1), 5000)] *)
Definition delay_after (attempt : nat) : Z :=
  Z.min (baseDelay * 2 ^ (Z.of_nat attempt - 1)) 5000.

(** The [for] loop. [fn k] is the outcome of the k-th invocation of the
    wrapped call; [remaining] counts the iterations left, that is
    [maxRetries - attempt + 1]. *)
Fixpoint retry_loop {T} (fn : nat -> Result T) (maxRetries remaining attempt : nat)
    (lastError : JsError) : Result T * list Event :=
  match remaining with
  | O => (Throw lastError, [])
  | S remaining' =>
      match fn attempt with
      | Ok v => (Ok v, [Call attempt])
      | Throw error =>
          if (attempt <? maxRetries)%nat && isTimeout error then
            let delay := delay_after attempt in
            let '(r, tr) := retry_loop fn maxRetries remaining' (S attempt) error in
            (r, Call attempt :: Sleep delay :: tr)
          else (Throw error, [Call attempt])
      end
  end.

Definition retryWithBackoff {T} (fn : nat -> Result T) (maxRetries : nat)
    : Result T * list Event :=
  retry_loop fn maxRetries maxRetries 1%nat thrown_undefined.

(** The attempts of a run, and the delay slept just before attempt [k]. *)
Definition attempts (tr : list Event) : list nat :=
  omap (fun ev => match ev with Call k => Some k | Sleep _ => None end) tr.

Fixpoint delay_before (k : nat) (tr : list Event) : option Z :=
  match tr with
  | Sleep d :: ((Call k' :: _) as rest) =>
      if (k' =? k)%nat then Some d else delay_before k rest
  | _ :: rest => delay_before k rest
  | [] => None
  end.

(** The delay the specification gives for the pause before attempt [k]. *)
Definition spec_delay_before (k : nat) : Z :=
  Z.min (1000 * 2 ^ (Z.of_nat k - 1)) 5000.

(** A call that times out once and then answers. *)
Definition timeout_error : JsError :=
  {| err_is_Error := true; err_code := Some "TIMEOUT";
     err_message := Some "request timeout"; err_stack := None |}.

Definition fails_once : nat -> Result Z :=
  fun k => if (k <=? 1)%nat then Throw timeout_error else Ok 7.

End Retry.

(** ** External collaborators: what they are asked to do *)

(** The [data] of a [prisma.order.update]; a field left out is [None]. *)
Record OrderPatch := {
  op_status : option string;
  op_confirmations : option Z;
  op_confirmedAt : option Z;
  op_transactionHash : option string;
  op_blockNumber : option Z;
  op_chain : option string;
  op_merchantAddress : option string;
  op_customerAddress : option string
}.

(** The row a [prisma.order] query returns, with the fields the code reads. *)
Record Order := {
  orderId : string;
  order_status : string;
  customerEmail : string;
  totalAmount : string
}.

(** Calls to collaborators that went through, in order. *)
Inductive Effect :=
| OrderUpdate (id : string) (data : OrderPatch)
| WebhookLogCreate (id eventType sig : string)
| EmailPaymentReceived (to id amount txHash : string)
| EmailPaymentConfirmed (to id amount txHash : string)
| SocketEmit (room event : string) (confirmations : Z)
| MessageSigned (message sig : string).

(** ** Numbers of the language: doubles, as they are read, printed and
    computed with *)
Module JsNumber.

(** A number: a finite one by the decimal notation the language prints
    for it, [significand] times 10 to the [exponent], with a sign; or one of
    [NaN], [Infinity] and [-Infinity]. *)
Inductive Num :=
| Finite (negative : bool) (significand exponent : Z)
| NotFinite.

(** The double nearest to the positive integer [z], ties to the even
    significand: the value of an integer literal of [z]. *)
Definition round_to_double (z : Z) : Z :=
  let bits := Z.log2 z + 1 in
  if bits <=? 53 then z
  else
    let e := bits - 53 in
    let q := z / 2 ^ e in
    let r := z mod 2 ^ e in
    let half := 2 ^ (e - 1) in
    if (half <? r) || ((r =? half) && Z.odd q) then (q + 1) * 2 ^ e
    else q * 2 ^ e.

(** The significand without its final zeros. *)
Fixpoint strip_zeros (fuel : nat) (s p : Z) : Z * Z :=
  match fuel with
  | O => (s, p)
  | S fuel' =>
      if s =? 0 then (0, 0)
      else if s mod 10 =? 0 then strip_zeros fuel' (s / 10) (p + 1)
      else (s, p)
  end.

(** The multiple of 10 to the [p] that reads back as the double [x], of
    2 to the 53 at least, and is nearest to it (the even one of two), if
    there is one: a decimal reads back as [x] when it lies between the
    midpoints to the neighbours of [x], which are included when the
    significand of [x] is even. The bounds are kept four-fold, so that they
    are integers. *)
Definition candidate (x : Z) (p : Z) : option Z :=
  let e := Z.log2 x + 1 - 53 in
  let m := x / 2 ^ e in
  let inclusive := Z.even m in
  let low4 := 4 * x - (if m =? 2 ^ 52 then 2 ^ e else 2 ^ (e + 1)) in
  let high4 := 4 * x + 2 ^ (e + 1) in
  let unit := 4 * 10 ^ p in
  let s_lo := if inclusive then (low4 + unit - 1) / unit else low4 / unit + 1 in
  let s_hi := if inclusive then high4 / unit else (high4 - 1) / unit in
  if (s_lo <=? s_hi) && (1 <=? s_hi) then
    let t := x / 10 ^ p in
    let twice := 2 * (x mod 10 ^ p) in
    let nearest :=
      if twice <? 10 ^ p then t
      else if 10 ^ p <? twice then t + 1
      else if Z.even t then t else t + 1 in
    Some (Z.max s_lo (Z.min s_hi nearest))
  else None.

(** The decimal with the fewest digits that reads back as [x]. *)
Fixpoint shortest_from (x : Z) (p : nat) : Z * Z :=
  match candidate x (Z.of_nat p) with
  | Some s => (s, Z.of_nat p)
  | None =>
      match p with
      | O => (x, 0)
      | S p' => shortest_from x p'
      end
  end.

(** The number an integer literal of [z] denotes. *)
Definition of_Z (z : Z) : Num :=
  let x := round_to_double (Z.abs z) in
  if 2 ^ 1024 <=? x then NotFinite
  else
    let '(s, p) :=
      if x <? 2 ^ 53 then (x, 0)
      else shortest_from x (String.length (pretty x)) in
    let '(s, p) := strip_zeros (String.length (pretty s)) s p in
    Finite (z <? 0) s p.

Fixpoint zeros (n : nat) : string :=
  match n with
  | O => ""
  | S n' => "0" +:+ zeros n'
  end.

(** [JSON.stringify(n)]: [Number::toString] on a finite number, and
    [null] otherwise. *)
Definition to_string (n : Num) : string :=
  match n with
  | NotFinite => "null"
  | Finite negative s p =>
      let '(s, p) := strip_zeros (String.length (pretty (Z.abs s))) (Z.abs s) p in
      if s =? 0 then "0"
      else
        let digits := pretty s in
        let k := Z.of_nat (String.length digits) in
        let n := k + p in
        let text :=
          if (0 <=? p) && (n <=? 21) then digits +:+ zeros (Z.to_nat p)
          else if (0 <? n) && (n <=? 21) then
            String.substring 0 (Z.to_nat n) digits +:+ "."
            +:+ String.substring (Z.to_nat n) (Z.to_nat (k - n)) digits
          else if (-6 <? n) && (n <=? 0) then
            "0." +:+ zeros (Z.to_nat (- n)) +:+ digits
          else
            let e := n - 1 in
            (if k =? 1 then digits
             else String.substring 0 1 digits +:+ "."
                  +:+ String.substring 1 (Z.to_nat (k - 1)) digits)
            +:+ "e" +:+ (if 0 <=? e then "+" else "-") +:+ pretty (Z.abs e) in
        (if negative then "-" else "") +:+ text
  end.

(** *** Numbers that are integers

    A number whose value is an integer, such as [parseInt] returns, is held
    as that integer; [Infinity] and [-Infinity] are held as 2 to the 1024,
    which is beyond every double, and its opposite. The sign of a zero is
    not kept. [NaN] is [None] where it can occur. *)
Definition infinity : Z := 2 ^ 1024.

Definition is_infinite (a : Z) : bool := infinity <=? Z.abs a.

(** The number nearest to the integer [z]: the value of an integer
    literal, and of an operation whose exact result is [z]. *)
Definition integer (z : Z) : Z :=
  Z.sgn z * Z.min infinity (round_to_double (Z.abs z)).

(** [a - b] *)
Definition sub (a b : Z) : option Z :=
  if is_infinite a then
    if is_infinite b && (Z.sgn a =? Z.sgn b) then None else Some a
  else if is_infinite b then Some (- b)
  else Some (integer (a - b)).

(** [a * b] *)
Definition mul (a b : Z) : option Z :=
  if is_infinite a || is_infinite b then
    if (a =? 0) || (b =? 0) then None else Some (Z.sgn a * Z.sgn b * infinity)
  else Some (integer (a * b)).

(** [Math.ceil(a / b)] for a finite [a] and [b] other than 0. The quotient
    of the doubles is the double nearest to the exact quotient. That one is
    found from the exact quotient in units of 2 to the minus [k + 1],
    truncated with a final bit that tells whether anything was cut off:
    [k] is such that this integer has more than 56 bits, so that its
    rounding to 53 bits is the rounding of the exact quotient. (A quotient
    below 2 to the minus 1022 has fewer bits than 53; it is not 0, and its
    ceiling is the same.) *)
Definition ceil_quotient (a b : Z) : Z :=
  if is_infinite b then 0
  else
    let k := Z.log2 (Z.abs b) + 56 in
    let scaled := Z.abs a * 2 ^ k in
    let sticky := if scaled mod Z.abs b =? 0 then 0 else 1 in
    let n := round_to_double (2 * (scaled / Z.abs b) + sticky) in
    if 0 <=? Z.sgn a * Z.sgn b then - ((- n) / 2 ^ (k + 1))
    else - (n / 2 ^ (k + 1)).

End JsNumber.

(** ** Listener registry check: listenerVerification.ts *)
Module ListenerVerification.

(** The tuple [getListener] returns, in the order of the ABI:
    index 0 [nodeAddress], 1 [stake], 2 [registeredAt], 3 [totalDelivered],
    4 [successfulDeliveries], 5 [failedDeliveries], 6 [totalEarned],
    7 [reputation], 8 [active], 9 [slashed], 10 [lastActivityTime]. *)
Record ListenerTuple := {
  nodeAddress : string;
  stake : Z;
  registeredAt : Z;
  totalDelivered : Z;
  successfulDeliveries : Z;
  failedDeliveries : Z;
  totalEarned : Z;
  reputation : Z;
  active : bool;
  slashed : bool;
  lastActivityTime : Z
}.

Record ListenerInfo := {
  address : string;
  info_stake : option string;
  info_reputation : option string;
  info_active : option bool;
  info_slashed : option bool;
  degraded : option bool
}.

Record RegistrationCheck := {
  isValid : bool;
  reason : option string;
  listenerInfo : option ListenerInfo
}.

Definition reject (why : string) : RegistrationCheck :=
  {| isValid := false; reason := Some why; listenerInfo := None |}.

(** [s.toLowerCase()], on ASCII letters. *)
Definition lower_ascii (c : Ascii.ascii) : Ascii.ascii :=
  let n := Ascii.nat_of_ascii c in
  if ((65 <=? n) && (n <=? 90))%nat then Ascii.ascii_of_nat (n + 32) else c.

Fixpoint toLowerCase (s : string) : string :=
  match s with
  | EmptyString => EmptyString
  | String c rest => String (lower_ascii c) (toLowerCase rest)
  end.

(** The fields of the claim the listener signs, in the order the object
    literal of [verifyListenerSignature] lists them: four strings and two
    numbers. *)
Record SignedFields := {
  sf_type : string;
  sf_payment_id : string;
  sf_merchant : string;
  sf_amount : string;
  sf_timestamp : JsNumber.Num;
  sf_chain_id : JsNumber.Num
}.

Definition dquote : string := String (Ascii.ascii_of_nat 34) EmptyString.
Definition backslash : string := String (Ascii.ascii_of_nat 92) EmptyString.

Definition hex_digit (n : nat) : Ascii.ascii :=
  Ascii.ascii_of_nat (if (n <? 10)%nat then 48 + n else 87 + n).

(** What [JSON.stringify] writes for one character of a string: the quote,
    the backslash and the control characters are escaped. A string is the
    sequence of the bytes of its UTF-8 form; the bytes above the ASCII range
    are written as they are. *)
Definition json_char (c : Ascii.ascii) : string :=
  let n := Ascii.nat_of_ascii c in
  if (n =? 34)%nat then backslash +:+ dquote
  else if (n =? 92)%nat then backslash +:+ backslash
  else if (n =? 8)%nat then backslash +:+ "b"
  else if (n =? 9)%nat then backslash +:+ "t"
  else if (n =? 10)%nat then backslash +:+ "n"
  else if (n =? 12)%nat then backslash +:+ "f"
  else if (n =? 13)%nat then backslash +:+ "r"
  else if (n <? 32)%nat then
    backslash +:+ "u00"
      +:+ String (hex_digit (n / 16)) (String (hex_digit (n mod 16)) EmptyString)
  else String c EmptyString.

Fixpoint json_escape (s : string) : string :=
  match s with
  | EmptyString => EmptyString
  | String c rest => json_char c +:+ json_escape rest
  end.

Definition json_string (s : string) : string := dquote +:+ json_escape s +:+ dquote.


Definition json_field (name value : string) : string :=
  json_string name +:+ ":" +:+ value.

Definition canonical_message (p : SignedFields) : string :=
  "{" +:+ json_field "type" (json_string (sf_type p)) +:+ ","
      +:+ json_field "payment_id" (json_string (sf_payment_id p)) +:+ ","
      +:+ json_field "merchant" (json_string (sf_merchant p)) +:+ ","
      +:+ json_field "amount" (json_string (sf_amount p)) +:+ ","
      +:+ json_field "timestamp" (JsNumber.to_string (sf_timestamp p)) +:+ ","
      +:+ json_field "chain_id" (JsNumber.to_string (sf_chain_id p)) +:+ "}".

Definition verifyListenerSignature `{Ethers} (payload : SignedFields)
    (signature listenerAddress : string) : bool :=
  if String.eqb signature "" || String.eqb listenerAddress "" then false
  else
    let message := canonical_message payload in
    match verifyMessage message signature with
    | Ok recoveredAddress =>
        String.eqb (toLowerCase recoveredAddress) (toLowerCase listenerAddress)
    | Throw _ => false
    end.

(** The [catch] of [verifyListenerRegistered]. *)
Definition on_query_error (env : gmap string string) (listenerAddress : string)
    (error : JsError) : RegistrationCheck :=
  let allowDuringRpcFailure := env_is_true env "ALLOW_DURING_RPC_FAILURE" in
  if allowDuringRpcFailure then
    {| isValid := true;
       reason := Some "Verification skipped due to RPC failure (degraded mode)";
       listenerInfo := Some {| address := listenerAddress; info_stake := None;
                               info_reputation := None; info_active := None;
                               info_slashed := None; degraded := Some true |} |}
  else
    reject ("Blockchain query failed after 3 retries: "
              +:+ error_message_or_unknown error).

(** The checks on a snapshot the registry returned. The stake is compared
    as a [bigint]; [Number(reputation) < min] is compared on the integers
    (the conversion of a [bigint] to a number is monotone and exact on the
    integer thresholds a deployment configures). A throw of [parseEther] on
    the configured minimum is caught by the [catch] of the function. *)
Definition check_snapshot `{Ethers} (env : gmap string string) (thr : Thresholds)
    (listenerAddress : string) (result : ListenerTuple) : RegistrationCheck :=
  let active := active result in
  let slashed := slashed result in
  let stake := stake result in
  let reputation := reputation result in
  if negb active then reject "Listener is not active"
  else if slashed then reject "Listener has been slashed (banned)"
  else
    match parseEther (minListenerStake thr) with
    | Throw error => on_query_error env listenerAddress error
    | Ok minStake =>
        if stake <? minStake then
          reject ("Listener stake too low: " +:+ formatEther stake
                    +:+ " ETH (minimum: " +:+ minListenerStake thr +:+ " ETH)")
        else if reputation <? minListenerReputation thr then
          reject ("Listener reputation too low: " +:+ pretty reputation
                    +:+ " (minimum: " +:+ pretty (minListenerReputation thr) +:+ ")")
        else
          {| isValid := true; reason := None;
             listenerInfo :=
               Some {| address := listenerAddress;
                       info_stake := Some (formatEther stake);
                       info_reputation := Some (pretty reputation);
                       info_active := Some active;
                       info_slashed := Some slashed;
                       degraded := None |} |}
    end.

(** [getListener addr k] is the outcome of the k-th [getListener(addr)]
    call on the registry contract. *)
Definition verifyListenerRegistered `{Ethers} (env : gmap string string)
    (thr : Thresholds) (getListener : string -> nat -> Result ListenerTuple)
    (listenerAddress : string) : RegistrationCheck :=
  match fst (Retry.retryWithBackoff (getListener listenerAddress) 3) with
  | Ok result => check_snapshot env thr listenerAddress result
  | Throw error => on_query_error env listenerAddress error
  end.

End ListenerVerification.

(** ** Payment verifier: blockchainVerification.ts *)
Module BlockchainVerification.

(** What [getPayment] of the PaymentDatabase contract returns. *)
Record PaymentRecord := {
  rec_paymentId : string;
  rec_merchant : string;
  rec_customer : string;
  rec_amount : Z;
  rec_timestamp : Z;
  rec_paymentType : Z;
  rec_status : Z;
  rec_orderId : string;
  rec_nonce : Z
}.

Record PaymentData := {
  paymentId : string;
  merchant : string;
  customer : string;
  amount : string;
  amountWei : string;
  timestamp : Z;
  status : string
}.

Record PaymentCheck := {
  isValid : bool;
  reason : option string;
  paymentData : option PaymentData
}.

(** The answer when verification is enabled. *)
Definition verification_unavailable : PaymentCheck :=
  {| isValid := false;
     reason := Some "Payment verification enabled but PaymentDatabase not available. Set SKIP_PAYMENT_VERIFICATION=true for testnet.";
     paymentData := None |}.

(** [paymentDbContract] is the contract handle the service holds; [now] is
    [new Date()]. The [catch] of the function logs the error object it
    caught before it returns: on the overflow fault of [parseEther] the log
    line cannot be written, and the function rejects with the error of
    [JSON.stringify]. *)
Definition verifyPaymentOnChain `{Ethers} (env : gmap string string)
    (paymentDbContract : string -> Result PaymentRecord) (now : Z)
    (paymentId merchant customer amount : string) : Result PaymentCheck :=
  let skipVerification := env_is_true env "SKIP_PAYMENT_VERIFICATION" in
  if skipVerification then
    match parseEther amount with
    | Ok wei =>
        Ok {| isValid := true; reason := None;
              paymentData :=
                Some {| paymentId := paymentId; merchant := merchant;
                        customer := customer; amount := amount;
                        amountWei := pretty wei; timestamp := now;
                        status := "COMPLETED" |} |}
    | Throw error =>
        if parseEther_overflows amount then Throw stringify_bigint
        else
          Ok {| isValid := false;
                reason := Some ("Blockchain query failed: "
                                  +:+ error_message_or_unknown error);
                paymentData := None |}
    end
  else Ok verification_unavailable.

(** The verifier returned and accepted the payment. *)
Definition accepted (check : Result PaymentCheck) : bool :=
  match check with
  | Ok check => isValid check
  | Throw _ => false
  end.

Definition ZeroHash : string :=
  "0x0000000000000000000000000000000000000000000000000000000000000000".

(** The specification's reading of the check: the ledger holds a record
    for the payment that matches the claim (the conditions of the query
    the service used to make: found, same merchant, same customer,
    status COMPLETED). *)
Definition spec_matching_record (paymentDbContract : string -> Result PaymentRecord)
    (paymentId merchant customer : string) : bool :=
  match paymentDbContract paymentId with
  | Ok r =>
      negb (String.eqb (rec_paymentId r) ZeroHash)
      && String.eqb (ListenerVerification.toLowerCase (rec_merchant r))
                    (ListenerVerification.toLowerCase merchant)
      && String.eqb (ListenerVerification.toLowerCase (rec_customer r))
                    (ListenerVerification.toLowerCase customer)
      && (rec_status r =? 1)
  | Throw _ => false
  end.

Record Receipt := {
  receipt_status : Z;
  receipt_blockNumber : Z
}.

Record ReceiptCheck := {
  tx_isValid : bool;
  tx_reason : option string;
  confirmations : option Z;
  blockNumber : option Z
}.

Definition verifyTransactionReceipt (thr : Thresholds)
    (getTransactionReceipt : string -> Result (option Receipt))
    (getBlockNumber : Result Z) (txHash : string) : ReceiptCheck :=
  let failed (why : string) :=
    {| tx_isValid := false; tx_reason := Some why;
       confirmations := None; blockNumber := None |} in
  match getTransactionReceipt txHash with
  | Throw error =>
      failed ("Transaction query failed: " +:+ error_message_or_unknown error)
  | Ok None => failed "Transaction not found on blockchain"
  | Ok (Some receipt) =>
      if negb (receipt_status receipt =? 1) then
        failed "Transaction failed (status 0)"
      else
        match getBlockNumber with
        | Throw error =>
            failed ("Transaction query failed: " +:+ error_message_or_unknown error)
        | Ok currentBlock =>
            let confs := currentBlock - receipt_blockNumber receipt in
            if confs <? minConfirmations thr then
              {| tx_isValid := false;
                 tx_reason := Some ("Insufficient confirmations: " +:+ pretty confs
                                      +:+ " (minimum: "
                                      +:+ pretty (minConfirmations thr) +:+ ")");
                 confirmations := Some confs;
                 blockNumber := Some (receipt_blockNumber receipt) |}
            else
              {| tx_isValid := true; tx_reason := None;
                 confirmations := Some confs;
                 blockNumber := Some (receipt_blockNumber receipt) |}
        end
  end.

End BlockchainVerification.

(** ** Duplicate tracker: duplicateTracker.ts *)
Module DuplicateTracker.

Record Entry := {
  listener : string;
  timestamp : Z;
  signature : string
}.

Definition isWebhookProcessed (paymentId : string)
    (processedWebhooks : gmap string Entry) : bool :=
  bool_decide (is_Some (processedWebhooks !! paymentId)).

Definition markWebhookProcessed (now : Z) (paymentId listenerAddress signature : string)
    (processedWebhooks : gmap string Entry) : gmap string Entry :=
  <[paymentId := {| listener := listenerAddress; timestamp := now;
                    signature := signature |}]> processedWebhooks.

Definition getProcessingListener (paymentId : string)
    (processedWebhooks : gmap string Entry) : option Entry :=
  processedWebhooks !! paymentId.

Definition maxAge : Z := 24 * 60 * 60 * 1000.

Definition cleanup (now : Z) (processedWebhooks : gmap string Entry)
    : gmap string Entry :=
  filter (fun kv => ¬ (now - timestamp kv.2 > maxAge)) processedWebhooks.

End DuplicateTracker.

(** ** Proof generator: proofGenerator.ts *)
Module ProofGenerator.

Record ProofParams := {
  payment_id : string;
  listener_address : string;
  timestamp : Z;
  webhook_received : bool;
  order_id : option string;
  amount : option string
}.

Record MerchantProof := {
  proof_message : string;
  proof_signature : string;
  proof_timestamp : Z;
  proof_method : string
}.

(** [now] is the [Date.now()] the function reads. *)
Definition validateProofParams `{Ethers} (thr : Thresholds) (now : Z)
    (params : ProofParams) : Result unit :=
  if String.eqb (payment_id params) "" then
    Throw (new_Error "payment_id is required")
  else if String.eqb (listener_address params) ""
          || negb (isAddress (listener_address params)) then
    Throw (new_Error "Valid listener_address is required")
  else if (timestamp params =? 0) || (timestamp params <=? 0) then
    Throw (new_Error "Valid timestamp is required")
  else
    let age := now - timestamp params in
    let maxAge := proofExpirySeconds thr * 1000 in
    if age >? maxAge then
      Throw (new_Error ("Timestamp too old: " +:+ pretty (age / 1000)
                          +:+ "s (max: " +:+ pretty (proofExpirySeconds thr) +:+ "s)"))
    else if timestamp params >? now + 60000 then
      Throw (new_Error "Timestamp is in the future")
    else Ok tt.

Definition generateMerchantProof `{Ethers} (thr : Thresholds) (now : Z)
    (params : ProofParams) : Result MerchantProof :=
  match validateProofParams thr now params with
  | Throw error => Throw error
  | Ok _ =>
      match solidityPackedKeccak256 (payment_id params) (listener_address params) with
      | Throw error => Throw error
      | Ok message =>
          match signMessage message with
          | Throw error => Throw error
          | Ok signature =>
              Ok {| proof_message := message; proof_signature := signature;
                    proof_timestamp := timestamp params;
                    proof_method := "simple" |}
          end
      end
  end.

Definition is_stale_error (e : JsError) : bool :=
  match err_message e with
  | Some m => String.prefix "Timestamp too old" m
  | None => false
  end.

Definition is_future_error (e : JsError) : bool :=
  match err_message e with
  | Some m => String.eqb m "Timestamp is in the future"
  | None => false
  end.

End ProofGenerator.

(** ** Confirmation monitor: confirmationMonitor.ts *)
Module ConfirmationMonitor.

(** What the callback of an interval captured when it was created. *)
Record Job := {
  job_orderId : string;
  job_txHash : string;
  job_chain : string;
  job_io : bool
}.

(** The callback of an interval is an [async] function: at each of its
    four awaits it is suspended, and calls of the module and other callbacks
    run before it goes on. A callback in flight waits for the number of
    confirmations, for the update of the order with this number, for the
    update that marks the order confirmed (with the time read when the update
    was issued), or for the mailer. *)
Inductive Stage :=
| AwaitConfirmations
| AwaitProgress (confirmations : Z)
| AwaitConfirmed (confirmations now : Z)
| AwaitEmail (confirmations : Z) (order : Order).

Record Callback := {
  cb_job : Job;
  cb_stage : Stage
}.

(** [monitoringJobs] maps an order to the handle of its interval; [timers]
    are the intervals of the runtime that have not been cleared;
    [next_timer] is the handle [setInterval] returns next; [callbacks] are
    the callbacks of intervals that are in flight. A handle of Node is a
    [Timeout] object: it is truthy, so [if (intervalId)] holds for every
    registered job. *)
Record Registry := {
  monitoringJobs : gmap string nat;
  timers : gmap nat Job;
  next_timer : nat;
  callbacks : list Callback
}.

Definition empty_registry : Registry :=
  {| monitoringJobs := ∅; timers := ∅; next_timer := 0%nat; callbacks := [] |}.

Definition startConfirmationMonitoring (orderId txHash chain : string) (io : bool)
    (reg : Registry) : Registry :=
  if bool_decide (is_Some (monitoringJobs reg !! orderId)) then reg
  else
    let intervalId := next_timer reg in
    {| monitoringJobs := <[orderId := intervalId]> (monitoringJobs reg);
       timers := <[intervalId := {| job_orderId := orderId; job_txHash := txHash;
                                    job_chain := chain; job_io := io |}]> (timers reg);
       next_timer := S intervalId;
       callbacks := callbacks reg |}.

Definition stopConfirmationMonitoring (orderId : string) (reg : Registry) : Registry :=
  match monitoringJobs reg !! orderId with
  | Some intervalId =>
      {| monitoringJobs := delete orderId (monitoringJobs reg);
         timers := delete intervalId (timers reg);
         next_timer := next_timer reg;
         callbacks := callbacks reg |}
  | None => reg
  end.

Definition getActiveMonitoringJobs (reg : Registry) : list string :=
  (map_to_list (monitoringJobs reg)).*1.

(** What the collaborators answer during one run of the callback. *)
Record PollWorld := {
  getTransactionConfirmations : Result Z;
  update_confirmations : Result unit;
  update_confirmed : Result Order;
  sendPaymentConfirmedEmail : Result unit;
  poll_now : Z
}.

Definition confirmations_patch (confirmations : Z) : OrderPatch :=
  {| op_status := None; op_confirmations := Some confirmations;
     op_confirmedAt := None; op_transactionHash := None; op_blockNumber := None;
     op_chain := None; op_merchantAddress := None; op_customerAddress := None |}.

Definition confirmed_patch (now : Z) : OrderPatch :=
  {| op_status := Some "PAYMENT_CONFIRMED"; op_confirmations := None;
     op_confirmedAt := Some now; op_transactionHash := None;
     op_blockNumber := None; op_chain := None; op_merchantAddress := None;
     op_customerAddress := None |}.

(** One run of the callback of interval [intervalId] from its start to its
    end, with nothing else running at its awaits; a cleared interval does not
    fire. [required] is [REQUIRED_CONFIRMATIONS]. *)
Definition poll (required : Z) (pw : PollWorld) (intervalId : nat) (reg : Registry)
    : Registry * list Effect :=
  match timers reg !! intervalId with
  | None => (reg, [])
  | Some job =>
      let orderId := job_orderId job in
      match getTransactionConfirmations pw with
      | Throw _ => (reg, [])
      | Ok confirmations =>
          match update_confirmations pw with
          | Throw _ => (reg, [])
          | Ok _ =>
              let progress :=
                OrderUpdate orderId (confirmations_patch confirmations)
                :: (if job_io job
                    then [SocketEmit orderId "confirmation-update" confirmations]
                    else []) in
              if confirmations >=? required then
                match update_confirmed pw with
                | Throw _ => (reg, progress)
                | Ok order =>
                    let email :=
                      match sendPaymentConfirmedEmail pw with
                      | Ok _ => [EmailPaymentConfirmed (customerEmail order) orderId
                                   (totalAmount order) (job_txHash job)]
                      | Throw _ => []
                      end in
                    let final :=
                      if job_io job
                      then [SocketEmit orderId "payment-confirmed" confirmations]
                      else [] in
                    (stopConfirmationMonitoring orderId reg,
                     progress ++ OrderUpdate orderId (confirmed_patch (poll_now pw))
                              :: email ++ final)
                end
              else (reg, progress)
          end
      end
  end.

Definition with_callbacks (cbs : list Callback) (reg : Registry) : Registry :=
  {| monitoringJobs := monitoringJobs reg; timers := timers reg;
     next_timer := next_timer reg; callbacks := cbs |}.

(** The interval [intervalId] fires: its callback starts and is suspended
    at its first await. A cleared interval does not fire. *)
Definition begin (intervalId : nat) (reg : Registry) : Registry :=
  match timers reg !! intervalId with
  | None => reg
  | Some job =>
      with_callbacks
        (callbacks reg ++ [{| cb_job := job; cb_stage := AwaitConfirmations |}]) reg
  end.

(** The promise that the callback in flight at position [callbackId] waits
    for settles, with the answer of [pw], and the callback runs to its next
    await or to its end. A callback that has started is not stopped by
    [clearInterval]. *)
Definition resume (required : Z) (pw : PollWorld) (callbackId : nat) (reg : Registry)
    : Registry * list Effect :=
  match callbacks reg !! callbackId with
  | None => (reg, [])
  | Some cb =>
      let job := cb_job cb in
      let orderId := job_orderId job in
      let ended := with_callbacks (delete callbackId (callbacks reg)) reg in
      let suspended (stage : Stage) :=
        with_callbacks
          (<[callbackId := {| cb_job := job; cb_stage := stage |}]> (callbacks reg))
          reg in
      match cb_stage cb with
      | AwaitConfirmations =>
          match getTransactionConfirmations pw with
          | Throw _ => (ended, [])
          | Ok confirmations => (suspended (AwaitProgress confirmations), [])
          end
      | AwaitProgress confirmations =>
          match update_confirmations pw with
          | Throw _ => (ended, [])
          | Ok _ =>
              let progress :=
                OrderUpdate orderId (confirmations_patch confirmations)
                :: (if job_io job
                    then [SocketEmit orderId "confirmation-update" confirmations]
                    else []) in
              if confirmations >=? required then
                (suspended (AwaitConfirmed confirmations (poll_now pw)), progress)
              else (ended, progress)
          end
      | AwaitConfirmed confirmations now =>
          match update_confirmed pw with
          | Throw _ => (ended, [])
          | Ok order =>
              (suspended (AwaitEmail confirmations order),
               [OrderUpdate orderId (confirmed_patch now)])
          end
      | AwaitEmail confirmations order =>
          let email :=
            match sendPaymentConfirmedEmail pw with
            | Ok _ => [EmailPaymentConfirmed (customerEmail order) orderId
                         (totalAmount order) (job_txHash job)]
            | Throw _ => []
            end in
          let final :=
            if job_io job
            then [SocketEmit orderId "payment-confirmed" confirmations]
            else [] in
          (stopConfirmationMonitoring orderId ended, email ++ final)
      end
  end.

(** Runs of the monitor: calls of the two entry points and firings of
    intervals, in some order. [Fire] is a firing whose callback runs to its
    end before anything else happens; [Begin] and [Resume] are the steps of
    a callback that other steps may come between. *)
Inductive Op :=
| Start (orderId txHash chain : string) (io : bool)
| Stop (orderId : string)
| Fire (intervalId : nat) (pw : PollWorld)
| Begin (intervalId : nat)
| Resume (callbackId : nat) (pw : PollWorld).

Definition step (required : Z) (op : Op) (s : Registry * list Effect)
    : Registry * list Effect :=
  match op with
  | Start orderId txHash chain io =>
      (startConfirmationMonitoring orderId txHash chain io s.1, s.2)
  | Stop orderId => (stopConfirmationMonitoring orderId s.1, s.2)
  | Fire intervalId pw =>
      let '(reg, effs) := poll required pw intervalId s.1 in (reg, s.2 ++ effs)
  | Begin intervalId => (begin intervalId s.1, s.2)
  | Resume callbackId pw =>
      let '(reg, effs) := resume required pw callbackId s.1 in (reg, s.2 ++ effs)
  end.

Definition run (required : Z) (ops : list Op) (s : Registry * list Effect)
    : Registry * list Effect :=
  foldl (fun s op => step required op s) s ops.

(** The live intervals that monitor [orderId]. *)
Definition jobs_of (orderId : string) (reg : Registry) : list nat :=
  (map_to_list (filter (fun kv => job_orderId kv.2 = orderId) (timers reg))).*1.

(** How often [orderId] was marked confirmed. *)
Definition is_confirmation_of (orderId : string) (e : Effect) : bool :=
  match e with
  | OrderUpdate id data =>
      String.eqb id orderId
      && bool_decide (op_status data = Some "PAYMENT_CONFIRMED")
  | _ => false
  end.

Definition times_confirmed (orderId : string) (effs : list Effect) : nat :=
  length (List.filter (is_confirmation_of orderId) effs).

(** All collaborators answer, and the ledger reports [n] confirmations. *)
Definition answers (n now : Z) (order : Order) : PollWorld :=
  {| getTransactionConfirmations := Ok n; update_confirmations := Ok tt;
     update_confirmed := Ok order; sendPaymentConfirmedEmail := Ok tt;
     poll_now := now |}.

(** The registry and the runtime agree: every registered handle is a
    live interval of that order, every live interval is the one registered
    for its order, and handles are never reused. *)
Definition consistent (reg : Registry) : Prop :=
  (∀ orderId intervalId, monitoringJobs reg !! orderId = Some intervalId →
     ∃ job, timers reg !! intervalId = Some job ∧ job_orderId job = orderId)
  ∧ (∀ intervalId job, timers reg !! intervalId = Some job →
       monitoringJobs reg !! job_orderId job = Some intervalId)
  ∧ (∀ intervalId, is_Some (timers reg !! intervalId) →
       (intervalId < next_timer reg)%nat).


End ConfirmationMonitor.

(** ** Webhook handler: webhookController.ts *)
Module WebhookController.

Import ListenerVerification BlockchainVerification.

(** A JSON body, as passed to [res.json]. *)
#[warnings="-register-all"]
Inductive Json :=
| JNull
| JUndefined
| JBool (b : bool)
| JNum (n : Z)
| JStr (s : string)
| JArr (items : list Json)
| JObj (fields : list (string * Json)).

Fixpoint assoc (k : string) (fields : list (string * Json)) : option Json :=
  match fields with
  | [] => None
  | (k', v) :: rest => if String.eqb k' k then Some v else assoc k rest
  end.

(** [body.k] *)
Definition jget (k : string) (body : Json) : option Json :=
  match body with
  | JObj fields => assoc k fields
  | _ => None
  end.

Record Response := {
  status : Z;
  json : Json
}.

Inductive WebhookType :=
| payment_completed
| payment_pending
| payment_confirmed
| payment_failed.

Definition type_string (t : WebhookType) : string :=
  match t with
  | payment_completed => "payment.completed"
  | payment_pending => "payment.pending"
  | payment_confirmed => "payment.confirmed"
  | payment_failed => "payment.failed"
  end.

(** A body that passed [webhookSchema]; the optional fields the handler
    never reads are left out. Its three numbers are integers, as the
    listeners send them (seconds or milliseconds, a block height, a chain
    identifier). *)
Record WebhookData := {
  type : WebhookType;
  payment_id : string;
  merchant : string;
  customer : string;
  amount : string;
  timestamp : Z;
  block_number : Z;
  transaction_hash : string;
  chain_id : Z
}.

(** What [webhookSchema.parse(req.body)] does on the body of a request. *)
Inductive ParseOutcome :=
| Parsed (data : WebhookData)
| ZodError (issues : list string)
| ParseThrows (error : JsError).

Record Request := {
  x_webhook_signature : option string;
  x_node_address : option string;
  x_payment_id : option string;
  body : ParseOutcome
}.

(** The state of the process the handler reads and writes. *)
Record State := {
  processedWebhooks : gmap string DuplicateTracker.Entry;
  monitor : ConfirmationMonitor.Registry;
  effects : list Effect
}.

(** The configuration of the process, and what the collaborators answer
    while one request is handled. The [now_] fields are the successive
    readings of the clock. *)
Record World := {
  env : gmap string string;
  thresholds : Thresholds;
  getListener : string -> nat -> Result ListenerTuple;
  getPayment : string -> Result PaymentRecord;
  getTransactionReceipt : string -> Result (option Receipt);
  getBlockNumber : Result Z;
  order_findFirst : string -> string -> Result (option Order);
  order_update : string -> OrderPatch -> Result Order;
  webhookLog_create : Result unit;
  sendPaymentReceivedEmail : Result unit;
  emitPaymentReceived : string -> Result unit;
  getIO : Result bool;
  now_start : Z;
  now_payment : Z;
  now_confirmed : Z;
  now_proof : Z;
  now_validate : Z;
  now_mark : Z;
  now_processed : Z;
  now_end : Z
}.

Definition add_effects (effs : list Effect) (st : State) : State :=
  {| processedWebhooks := processedWebhooks st; monitor := monitor st;
     effects := effects st ++ effs |}.

(** The fields of [req.body] that the signature check reads: those of
    [data], since the body passed the schema. *)
Definition signed_fields (data : WebhookData) : SignedFields :=
  {| sf_type := type_string (type data); sf_payment_id := payment_id data;
     sf_merchant := merchant data; sf_amount := amount data;
     sf_timestamp := JsNumber.of_Z (timestamp data);
     sf_chain_id := JsNumber.of_Z (chain_id data) |}.

(** [txVerification.confirmations || 1] *)
Definition confirmations_or_1 (txVerification : ReceiptCheck) : Z :=
  match confirmations txVerification with
  | Some c => if c =? 0 then 1 else c
  | None => 1
  end.

Definition is_completed (t : WebhookType) : bool :=
  match t with payment_completed => true | _ => false end.

Definition is_pending_or_completed (t : WebhookType) : bool :=
  match t with payment_completed | payment_pending => true | _ => false end.

(** Step 6: the order of the payment, when the store has one. The job of
    the confirmation monitor is registered before the call returns. *)
Definition process_order (w : World) (data : WebhookData)
    (txVerification : ReceiptCheck) (st : State) : option Order * State :=
  match order_findFirst w (payment_id data) (transaction_hash data) with
  | Throw _ => (None, st)
  | Ok None => (None, st)
  | Ok (Some found) =>
      let patch :=
        {| op_status := Some (if is_completed (type data)
                              then "PAYMENT_CONFIRMED" else "PAYMENT_PENDING");
           op_confirmations := Some (confirmations_or_1 txVerification);
           op_confirmedAt := if is_completed (type data)
                             then Some (now_confirmed w) else None;
           op_transactionHash := Some (transaction_hash data);
           op_blockNumber := Some (block_number data);
           op_chain := Some ("Chain " +:+ pretty (chain_id data));
           op_merchantAddress := Some (merchant data);
           op_customerAddress := Some (customer data) |} in
      match order_update w (orderId found) patch with
      | Throw _ => (Some found, st)
      | Ok order =>
          let st := add_effects [OrderUpdate (orderId found) patch] st in
          let st :=
            match sendPaymentReceivedEmail w with
            | Ok _ => add_effects [EmailPaymentReceived (customerEmail order)
                                     (payment_id data) (amount data)
                                     (transaction_hash data)] st
            | Throw _ => st
            end in
          let st :=
            match emitPaymentReceived w (orderId order) with
            | Ok _ => add_effects [SocketEmit (orderId order) "payment-received"
                                     (confirmations_or_1 txVerification)] st
            | Throw _ => st
            end in
          let st :=
            if is_pending_or_completed (type data) then
              match getIO w with
              | Ok io =>
                  {| processedWebhooks := processedWebhooks st;
                     monitor := ConfirmationMonitor.startConfirmationMonitoring
                                  (orderId order) (transaction_hash data)
                                  (pretty (chain_id data)) io (monitor st);
                     effects := effects st |}
              | Throw _ => st
              end
            else st in
          (Some order, st)
      end
  end.

Definition log_webhook (w : World) (req : Request) (data : WebhookData)
    (st : State) : State :=
  match webhookLog_create w with
  | Ok _ => add_effects [WebhookLogCreate (payment_id data)
                           (type_string (type data))
                           (or_else (x_webhook_signature req) "")] st
  | Throw _ => st
  end.

(** The parameters step 7 passes to the proof generator. *)
Definition proof_params (w : World) (req : Request) (data : WebhookData)
    (order : option Order) : ProofGenerator.ProofParams :=
  {| ProofGenerator.payment_id := payment_id data;
     ProofGenerator.listener_address := or_else (x_node_address req) "";
     ProofGenerator.timestamp := now_proof w;
     ProofGenerator.webhook_received := true;
     ProofGenerator.order_id := orderId <$> order;
     ProofGenerator.amount := Some (amount data) |}.

(** Step 7: the proof, when a listener address came with the request and
    the generator did not throw. *)
Definition make_proof `{Ethers} (w : World) (req : Request) (data : WebhookData)
    (order : option Order) (st : State)
    : option ProofGenerator.MerchantProof * State :=
  if truthy (x_node_address req) then
    match ProofGenerator.generateMerchantProof (thresholds w) (now_validate w)
            (proof_params w req data order) with
    | Ok merchantProof =>
        (Some merchantProof,
         add_effects [MessageSigned (ProofGenerator.proof_message merchantProof)
                        (ProofGenerator.proof_signature merchantProof)] st)
    | Throw _ => (None, st)
    end
  else (None, st).

(** [merchantProof?.signature || ''] *)
Definition signature_or_empty (merchantProof : option ProofGenerator.MerchantProof)
    : string :=
  or_else (ProofGenerator.proof_signature <$> merchantProof) "".

Definition mark_processed (w : World) (req : Request) (data : WebhookData)
    (merchantProof : option ProofGenerator.MerchantProof) (st : State) : State :=
  if truthy (x_node_address req) then
    {| processedWebhooks :=
         DuplicateTracker.markWebhookProcessed (now_mark w) (payment_id data)
           (or_else (x_node_address req) "") (signature_or_empty merchantProof)
           (processedWebhooks st);
       monitor := monitor st;
       effects := effects st |}
  else st.

(** The two emits to the rooms of the checkout widget; the second is
    skipped when the first throws. *)
Definition emit_to_widget (w : World) (data : WebhookData)
    (txVerification : ReceiptCheck) (st : State) : State :=
  let c := confirmations_or_1 txVerification in
  match emitPaymentReceived w (payment_id data) with
  | Throw _ => st
  | Ok _ =>
      let st := add_effects [SocketEmit (payment_id data) "payment-received" c] st in
      match emitPaymentReceived w (transaction_hash data) with
      | Throw _ => st
      | Ok _ =>
          add_effects [SocketEmit (transaction_hash data) "payment-received" c] st
      end
  end.

Definition success_response (w : World) (req : Request) (data : WebhookData)
    (order : option Order) (merchantProof : option ProofGenerator.MerchantProof)
    : Response :=
  {| status := 200;
     json := JObj [
       ("status", JStr "success");
       ("message", JStr "Payment processed successfully");
       ("signature",
        match merchantProof with
        | Some p => if String.eqb (ProofGenerator.proof_signature p) "" then JNull
                    else JStr (ProofGenerator.proof_signature p)
        | None => JNull
        end);
       ("proof",
        match merchantProof with
        | Some p =>
            JObj [("payment_id", JStr (payment_id data));
                  ("listener", match x_node_address req with
                               | Some a => JStr a | None => JUndefined end);
                  ("merchant_signature", JStr (ProofGenerator.proof_signature p));
                  ("signed_message", JStr (ProofGenerator.proof_message p));
                  ("timestamp", JNum (ProofGenerator.proof_timestamp p));
                  ("method", JStr (ProofGenerator.proof_method p))]
        | None => JNull
        end);
       ("order",
        match order with
        | Some o => JObj [("order_id", JStr (orderId o));
                          ("status", JStr (order_status o));
                          ("processed_at", JNum (now_processed w))]
        | None => JNull
        end);
       ("processing_time_ms", JNum (now_end w - now_start w))] |}.

(** Steps 6 to 9, for a claim that passed every check. *)
Definition process_verified `{Ethers} (w : World) (req : Request)
    (data : WebhookData) (st : State) : State * Response :=
  let txVerification :=
    verifyTransactionReceipt (thresholds w) (getTransactionReceipt w)
      (getBlockNumber w) (transaction_hash data) in
  let '(order, st) := process_order w data txVerification st in
  let st := log_webhook w req data st in
  let '(merchantProof, st) := make_proof w req data order st in
  let st := mark_processed w req data merchantProof st in
  let st := emit_to_widget w data txVerification st in
  (st, success_response w req data order merchantProof).

Definition already_processed_response (existing : option DuplicateTracker.Entry)
    : Response :=
  {| status := 200;
     json := JObj [
       ("status", JStr "already_processed");
       ("message", JStr "This payment was already handled");
       ("processed_by", match existing with
                        | Some e => JStr (DuplicateTracker.listener e)
                        | None => JUndefined end);
       ("processed_at", match existing with
                        | Some e => JNum (DuplicateTracker.timestamp e)
                        | None => JUndefined end);
       ("proof", JNull)] |}.

(** Step 5, then the rest. A rejection of the payment verifier is not
    caught here. *)
Definition check_payment_try `{Ethers} (w : World) (req : Request)
    (data : WebhookData) (st : State) : Result (State * Response) :=
  match verifyPaymentOnChain (env w) (getPayment w) (now_payment w)
          (payment_id data) (merchant data) (customer data) (amount data) with
  | Throw error => Throw error
  | Ok paymentVerification =>
      if negb (BlockchainVerification.isValid paymentVerification) then
        Ok (st, {| status := 400;
                   json := JObj [("error", JStr "Invalid payment");
                                 ("message",
                                  match BlockchainVerification.reason
                                          paymentVerification with
                                  | Some r => JStr r
                                  | None => JUndefined
                                  end)] |})
      else Ok (process_verified w req data st)
  end.

(** Steps 2 to 4, then the rest, for a body that passed the schema. *)
Definition process_claim_try `{Ethers} (w : World) (req : Request)
    (data : WebhookData) (st : State) : Result (State * Response) :=
  if DuplicateTracker.isWebhookProcessed (payment_id data) (processedWebhooks st) then
    let existing :=
      DuplicateTracker.getProcessingListener (payment_id data) (processedWebhooks st) in
    Ok (st, already_processed_response existing)
  else if truthy (x_webhook_signature req) && truthy (x_node_address req)
          && negb (verifyListenerSignature (signed_fields data)
                     (or_else (x_webhook_signature req) "")
                     (or_else (x_node_address req) "")) then
    Ok (st, {| status := 401;
               json := JObj [("error", JStr "Invalid signature");
                             ("message",
                              JStr "Webhook signature verification failed")] |})
  else if truthy (x_node_address req) then
    let registrationCheck :=
      verifyListenerRegistered (env w) (thresholds w) (getListener w)
        (or_else (x_node_address req) "") in
    if negb (ListenerVerification.isValid registrationCheck) then
      Ok (st, {| status := 403;
                 json := JObj [("error", JStr "Unauthorized listener");
                               ("message",
                                JStr (or_else
                                        (ListenerVerification.reason registrationCheck)
                                        "Listener not registered or not authorized"))] |})
    else check_payment_try w req data st
  else check_payment_try w req data st.

(** The [catch] of the handler: nothing was written before the throw, so
    the state is the one the request found. *)
Definition internal_error (st : State) (error : JsError) : State * Response :=
  (st, {| status := 500;
          json := JObj [("error", JStr "Internal server error");
                        ("message", JStr (error_message_or_unknown error))] |}).

(** The handler: the body of the [try], and its [catch]. *)
Definition handleWebhook_try `{Ethers} (w : World) (req : Request) (st : State)
    : Result (State * Response) :=
  match body req with
  | ZodError issues =>
      Ok (st, {| status := 400;
                 json := JObj [("error", JStr "Invalid payload");
                               ("details", JArr (JStr <$> issues))] |})
  | ParseThrows error => Throw error
  | Parsed data => process_claim_try w req data st
  end.

Definition handleWebhook `{Ethers} (w : World) (req : Request) (st : State)
    : State * Response :=
  match handleWebhook_try w req st with
  | Ok r => r
  | Throw error => internal_error st error
  end.

(** What the handler answers to a claim that passed the schema, and what
    it answers from step 5 on: the steps inside the [try], followed by the
    [catch]. *)
Definition process_claim `{Ethers} (w : World) (req : Request)
    (data : WebhookData) (st : State) : State * Response :=
  match process_claim_try w req data st with
  | Ok r => r
  | Throw error => internal_error st error
  end.

Definition check_payment `{Ethers} (w : World) (req : Request)
    (data : WebhookData) (st : State) : State * Response :=
  match check_payment_try w req data st with
  | Ok r => r
  | Throw error => internal_error st error
  end.

(** The claim passes steps 3 to 5: the signature check (made when a
    signature and an address came with the request), the registry check
    (made when an address came) and the payment check. *)
Definition passes_checks `{Ethers} (w : World) (req : Request)
    (data : WebhookData) : bool :=
  negb (truthy (x_webhook_signature req) && truthy (x_node_address req)
        && negb (verifyListenerSignature (signed_fields data)
                   (or_else (x_webhook_signature req) "")
                   (or_else (x_node_address req) "")))
  && (if truthy (x_node_address req) then
        ListenerVerification.isValid
          (verifyListenerRegistered (env w) (thresholds w) (getListener w)
             (or_else (x_node_address req) ""))
      else true)
  && BlockchainVerification.accepted
       (verifyPaymentOnChain (env w) (getPayment w) (now_payment w)
          (payment_id data) (merchant data) (customer data) (amount data)).





Definition proofs_signed (effs : list Effect) : nat :=
  length (List.filter (fun e => match e with MessageSigned _ _ => true | _ => false end)
            effs).

End WebhookController.

(** ** Sample data for the examples *)
Module Sample.

Import WebhookController.

Fixpoint digits (s : string) (acc : Z) : option Z :=
  match s with
  | EmptyString => Some acc
  | String c rest =>
      let n := Z.of_nat (Ascii.nat_of_ascii c) in
      if (48 <=? n) && (n <=? 57) then digits rest (acc * 10 + (n - 48)) else None
  end.

Fixpoint split_dot (s : string) : string * option string :=
  match s with
  | EmptyString => (EmptyString, None)
  | String c rest =>
      if (Ascii.nat_of_ascii c =? 46)%nat then (EmptyString, Some rest)
      else let '(w, f) := split_dot rest in (String c w, f)
  end.

(** The amount in wei of an unsigned decimal with at most 18 decimals. *)
Definition decimal18 (s : string) : option Z :=
  let '(whole, frac) := split_dot s in
  let frac := default "" frac in
  if (String.length whole + String.length frac =? 0)%nat then None
  else if (18 <? String.length frac)%nat then None
  else
    match digits whole 0, digits frac 0 with
    | Some w, Some f =>
        Some (w * 10 ^ 18 + f * 10 ^ (18 - Z.of_nat (String.length frac)))
    | _, _ => None
    end.

(** The amount does not fit the signed 512 bits of the format. *)
Definition overflows (s : string) : bool :=
  match decimal18 s with
  | Some wei => 2 ^ 511 <=? wei
  | None => false
  end.

(** 10^160 ether: '1' followed by 160 zeros. *)
Definition huge_amount : string :=
  "1" +:+ String.string_of_list_ascii (repeat (Ascii.ascii_of_nat 48) 160).

Definition overflow_fault : JsError :=
  {| err_is_Error := true; err_code := Some "NUMERIC_FAULT";
     err_message := Some "overflow"; err_stack := Some "Error: overflow" |}.

(** Unsigned decimal amounts with at most 18 decimals, as [parseEther]
    reads them; every other string is refused. *)
Definition parse_decimal18 (s : string) : Result Z :=
  match decimal18 s with
  | Some wei => if overflows s then Throw overflow_fault else Ok wei
  | None => Throw (new_Error "invalid FixedNumber string value")
  end.

Definition is_lower_hex (c : Ascii.ascii) : bool :=
  let n := Ascii.nat_of_ascii c in
  ((48 <=? n) && (n <=? 57) || (97 <=? n) && (n <=? 102))%nat.

Fixpoint all_chars (p : Ascii.ascii -> bool) (s : string) : bool :=
  match s with
  | EmptyString => true
  | String c rest => p c && all_chars p rest
  end.

(** [0x] followed by [n] lower-case hexadecimal digits. *)
Definition is_hex_of_length (n : nat) (s : string) : bool :=
  String.prefix "0x" s
  && (String.length s =? n + 2)%nat
  && all_chars is_lower_hex (String.substring 2 n s).

(** A stand-in for the library on the inputs of the examples: amounts are
    read as decimals, addresses are lower-case hexadecimal, hashes and
    signatures are symbolic, and no listener signature verifies. *)
Definition ethers : Ethers :=
  {| parseEther := parse_decimal18;
     parseEther_overflows := overflows;
     formatEther := fun wei => pretty wei +:+ " wei";
     isAddress := is_hex_of_length 40;
     verifyMessage := fun _ _ => Throw (new_Error "invalid signature");
     solidityPackedKeccak256 := fun id addr =>
       if is_hex_of_length 64 id && is_hex_of_length 40 addr
       then Ok ("keccak256(" +:+ id +:+ "," +:+ addr +:+ ")")
       else Throw (new_Error "invalid BytesLike value");
     signMessage := fun m => Ok ("signed(" +:+ m +:+ ")") |}.

Definition listener_addr : string := "0x1111111111111111111111111111111111111111".
Definition merchant_addr : string := "0x2222222222222222222222222222222222222222".
Definition customer_addr : string := "0x3333333333333333333333333333333333333333".
Definition payment : string :=
  "0xaaaaaaaaaaaaaaaaaaaaaaaaaaaaaaaaaaaaaaaaaaaaaaaaaaaaaaaaaaaaaaaa".
Definition tx : string :=
  "0xbbbbbbbbbbbbbbbbbbbbbbbbbbbbbbbbbbbbbbbbbbbbbbbbbbbbbbbbbbbbbbbb".

(** A registered listener in good standing: 1 ETH staked, reputation 80. *)
Definition good_listener : ListenerVerification.ListenerTuple :=
  {| ListenerVerification.nodeAddress := listener_addr;
     ListenerVerification.stake := 10 ^ 18;
     ListenerVerification.registeredAt := 1700000000;
     ListenerVerification.totalDelivered := 10;
     ListenerVerification.successfulDeliveries := 9;
     ListenerVerification.failedDeliveries := 1;
     ListenerVerification.totalEarned := 0;
     ListenerVerification.reputation := 80;
     ListenerVerification.active := true;
     ListenerVerification.slashed := false;
     ListenerVerification.lastActivityTime := 1700000500 |}.

(** The ledger holds the record of [payment], completed. *)
Definition ledger (id : string) : Result BlockchainVerification.PaymentRecord :=
  Ok {| BlockchainVerification.rec_paymentId := id;
        BlockchainVerification.rec_merchant := merchant_addr;
        BlockchainVerification.rec_customer := customer_addr;
        BlockchainVerification.rec_amount := 10 ^ 18;
        BlockchainVerification.rec_timestamp := 1700000000;
        BlockchainVerification.rec_paymentType := 0;
        BlockchainVerification.rec_status := 1;
        BlockchainVerification.rec_orderId := id;
        BlockchainVerification.rec_nonce := 1 |}.

Definition skip_env : gmap string string :=
  {[ "SKIP_PAYMENT_VERIFICATION" := "true" ]}.

Definition degraded_env : gmap string string :=
  {[ "ALLOW_DURING_RPC_FAILURE" := "true" ]}.

Definition claim : WebhookData :=
  {| type := payment_completed; payment_id := payment; merchant := merchant_addr;
     customer := customer_addr; amount := "1.5"; timestamp := 1700000000;
     block_number := 100; transaction_hash := tx; chain_id := 11155111 |}.


Definition request (addr : option string) (data : WebhookData) : Request :=
  {| x_webhook_signature := None; x_node_address := addr;
     x_payment_id := Some (payment_id data); body := Parsed data |}.

(** Payment verification is skipped, the registry answers with
    [good_listener], the transaction has 5 confirmations and the order
    store is not configured. *)
Definition world : World :=
  {| env := skip_env;
     thresholds := default_thresholds;
     getListener := fun _ _ => Ok good_listener;
     getPayment := ledger;
     getTransactionReceipt := fun _ =>
       Ok (Some {| BlockchainVerification.receipt_status := 1;
                   BlockchainVerification.receipt_blockNumber := 100 |});
     getBlockNumber := Ok 105;
     order_findFirst := fun _ _ => Throw (new_Error "database not configured");
     order_update := fun _ _ => Throw (new_Error "database not configured");
     webhookLog_create := Throw (new_Error "database not configured");
     sendPaymentReceivedEmail := Ok tt;
     emitPaymentReceived := fun _ => Ok tt;
     getIO := Ok true;
     now_start := 1700000600000;
     now_payment := 1700000600001;
     now_confirmed := 1700000600002;
     now_proof := 1700000600003;
     now_validate := 1700000600003;
     now_mark := 1700000600004;
     now_processed := 1700000600005;
     now_end := 1700000600006 |}.

Definition initial : State :=
  {| processedWebhooks := ∅;
     monitor := ConfirmationMonitor.empty_registry;
     effects := [] |}.

Definition order_row : Order :=
  {| orderId := "order-1"; order_status := "PAYMENT_CONFIRMED";
     customerEmail := "customer@example.org"; totalAmount := "1.5" |}.

(** The tracker after [payment] was processed for [listener_addr]. *)
Definition first_entry : DuplicateTracker.Entry :=
  {| DuplicateTracker.listener := listener_addr;
     DuplicateTracker.timestamp := 1700000000000;
     DuplicateTracker.signature := "signed(first)" |}.

Definition marked : State :=
  {| processedWebhooks := {[ payment := first_entry ]};
     monitor := ConfirmationMonitor.empty_registry;
     effects := [] |}.

(** A request on whose body the schema validation throws an error that is
    not a validation error. *)
Definition internal_failure : JsError :=
  new_Error "connect ECONNREFUSED 10.0.0.5:5432".

Definition failing_request : Request :=
  {| x_webhook_signature := None; x_node_address := Some listener_addr;
     x_payment_id := None; body := ParseThrows internal_failure |}.

End Sample.


(** ** The runs of the retrying client, as a schedule *)
Module RetrySchedule.

Import Retry.

(** [n] attempts starting with attempt [a], with the pause the client makes
    after each attempt but the last. *)
Fixpoint schedule (a n : nat) : list Event :=
  match n with
  | O => []
  | S n' =>
      match n' with
      | O => [Call a]
      | S _ => Call a :: Sleep (delay_after a) :: schedule (S a) n'
      end
  end.

(** The time a run sleeps, in milliseconds. *)
Fixpoint total_delay (tr : list Event) : Z :=
  match tr with
  | [] => 0
  | Sleep d :: rest => d + total_delay rest
  | Call _ :: rest => total_delay rest
  end.

End RetrySchedule.

(** ** JavaScript built-ins used outside the webhook pipeline *)
Module JsBuiltins.

(** The white space and line terminators of one byte: U+0009 to U+000D
    and the space. *)
Definition is_space (c : Ascii.ascii) : bool :=
  let n := Ascii.nat_of_ascii c in
  ((9 <=? n) && (n <=? 13) || (n =? 32))%nat.

(** The number of bytes of the white space character or line terminator
    [s] starts with, 0 when it starts with none. Those of more than one
    byte are U+00A0, U+1680, U+2000 to U+200A, U+2028, U+2029, U+202F,
    U+205F, U+3000 and U+FEFF, in UTF-8. *)
Definition space_length (s : string) : nat :=
  match s with
  | String c1 rest1 =>
      if is_space c1 then 1%nat
      else
        match rest1 with
        | String c2 rest2 =>
            let n1 := Ascii.nat_of_ascii c1 in
            let n2 := Ascii.nat_of_ascii c2 in
            if ((n1 =? 194) && (n2 =? 160))%nat then 2%nat
            else
              match rest2 with
              | String c3 _ =>
                  let n3 := Ascii.nat_of_ascii c3 in
                  if ((n1 =? 225) && (n2 =? 154) && (n3 =? 128)
                      || (n1 =? 226) && (n2 =? 128)
                         && ((128 <=? n3) && (n3 <=? 138) || (n3 =? 168)
                             || (n3 =? 169) || (n3 =? 175))
                      || (n1 =? 226) && (n2 =? 129) && (n3 =? 159)
                      || (n1 =? 227) && (n2 =? 128) && (n3 =? 128)
                      || (n1 =? 239) && (n2 =? 187) && (n3 =? 191))%nat
                  then 3%nat else 0%nat
              | EmptyString => 0%nat
              end
        | EmptyString => 0%nat
        end
  | EmptyString => 0%nat
  end.

(** [s.substring(n)] *)
Fixpoint drop_chars (n : nat) (s : string) : string :=
  match n, s with
  | O, _ => s
  | S n', String _ rest => drop_chars n' rest
  | S _, EmptyString => EmptyString
  end.

(** [s] without the white space at its start; [fuel] bounds the number of
    characters taken off. *)
Fixpoint trim_start_from (fuel : nat) (s : string) : string :=
  match fuel with
  | O => s
  | S fuel' =>
      match space_length s with
      | O => s
      | n => trim_start_from fuel' (drop_chars n s)
      end
  end.

Definition trim_start (s : string) : string :=
  trim_start_from (String.length s) s.

(** The value of [c] as a digit of [radix], if it is one. *)
Definition digit_value (radix : Z) (c : Ascii.ascii) : option Z :=
  let n := Z.of_nat (Ascii.nat_of_ascii c) in
  let v := if (48 <=? n) && (n <=? 57) then Some (n - 48)
           else if (97 <=? n) && (n <=? 122) then Some (n - 87)
           else if (65 <=? n) && (n <=? 90) then Some (n - 55)
           else None in
  match v with
  | Some d => if d <? radix then Some d else None
  | None => None
  end.

(** The longest prefix of digits, read as a number; [None] when it is
    empty. *)
Fixpoint read_digits (radix : Z) (s : string) (acc : option Z) : option Z :=
  match s with
  | EmptyString => acc
  | String c rest =>
      match digit_value radix c with
      | Some d => read_digits radix rest (Some (default 0 acc * radix + d))
      | None => acc
      end
  end.

(** [parseInt(s)], without a radix; [None] is [NaN]. The result is the
    number nearest to the integer the digits denote ([JsNumber.integer]). *)
Definition parseInt (s : string) : option Z :=
  let s := trim_start s in
  let '(sign, s) :=
    match s with
    | String c rest =>
        if (Ascii.nat_of_ascii c =? 45)%nat then (-1, rest)
        else if (Ascii.nat_of_ascii c =? 43)%nat then (1, rest)
        else (1, s)
    | EmptyString => (1, s)
    end in
  let '(radix, s) :=
    if String.prefix "0x" s || String.prefix "0X" s
    then (16, String.substring 2 (String.length s - 2) s)
    else (10, s) in
  (fun digits => sign * JsNumber.integer digits) <$> read_digits radix s None.

(** [a < b] on numbers, where [b] may be [NaN]. *)
Definition lt_number (a : Z) (b : option Z) : bool :=
  match b with
  | Some b => a <? b
  | None => false
  end.

(** [`${n}`] for a number that may be [NaN]. *)
Definition number_string (n : option Z) : string :=
  match n with
  | Some n =>
      if JsNumber.is_infinite n then
        if n <? 0 then "-Infinity" else "Infinity"
      else JsNumber.to_string (JsNumber.of_Z n)
  | None => "NaN"
  end.

Fixpoint all_chars (p : Ascii.ascii -> bool) (s : string) : bool :=
  match s with
  | EmptyString => true
  | String c rest => p c && all_chars p rest
  end.

(** The characters of the decimal notation of an integer. *)
Definition is_digit_or_dash (c : Ascii.ascii) : bool :=
  let n := Ascii.nat_of_ascii c in
  ((n =? 45) || (48 <=? n) && (n <=? 57))%nat.

End JsBuiltins.

(** ** Statistics of the duplicate tracker: [getStats] of duplicateTracker.ts *)
Module TrackerStats.

Record Stats := {
  totalProcessed : nat;
  oldestEntry : option Z
}.

(** The loop over the values of the map, in the order the map yields
    them. *)
Definition oldest_of (values : list DuplicateTracker.Entry) : option Z :=
  foldl (fun oldestTimestamp data =>
           match oldestTimestamp with
           | None => Some (DuplicateTracker.timestamp data)
           | Some t =>
               if DuplicateTracker.timestamp data <? t
               then Some (DuplicateTracker.timestamp data)
               else Some t
           end) None values.

Definition getStats (processedWebhooks : gmap string DuplicateTracker.Entry) : Stats :=
  {| totalProcessed := size processedWebhooks;
     oldestEntry := oldest_of (map_to_list processedWebhooks).*2 |}.

End TrackerStats.

(** ** Event verifier: eventVerification.ts *)
Module EventVerification.

(** The arguments of a [PaymentCompleted] event, as the ABI of the service
    decodes them. *)
Record PaymentCompleted := {
  paymentId : string;
  merchant : string;
  merchantAmount : Z;
  platformFee : Z;
  listenerFee : Z
}.

Record TxReceipt := {
  receipt_blockNumber : Z;
  receipt_hash : string
}.

(** What [queryFilter] returns: a decoded event, with what its
    [getTransactionReceipt()] answers, or a log without [args]. *)
Inductive QueriedEvent :=
| EventLog (args : PaymentCompleted) (blockNumber : Z)
           (getTransactionReceipt : Result TxReceipt)
| Log (blockNumber : Z).

Record EventData := {
  data_paymentId : string;
  data_merchant : string;
  data_merchantAmount : string;
  data_platformFee : string;
  data_listenerFee : string;
  totalAmount : string;
  data_blockNumber : Z;
  confirmations : Z;
  transactionHash : string;
  timestamp : Z
}.

Record EventCheck := {
  isValid : bool;
  reason : option string;
  eventData : option EventData
}.

Definition failed (why : string) : EventCheck :=
  {| isValid := false; reason := Some why; eventData := None |}.

Definition on_error (error : JsError) : EventCheck :=
  failed ("Event verification failed: " +:+ error_message_or_unknown error).

(** [Math.max(0, currentBlock - 10000)] *)
Definition fromBlock (currentBlock : Z) : Z := Z.max 0 (currentBlock - 10000).

(** [parseInt(process.env.MIN_CONFIRMATIONS || '3')] *)
Definition minConfirmations (env : gmap string string) : option Z :=
  JsBuiltins.parseInt (or_else (env !! "MIN_CONFIRMATIONS") "3").

(** [queryFilter id merchant from to] is the answer of the node to the
    query for the [PaymentCompleted] events of that payment and merchant in
    the blocks [from] to [to]; [now] is [new Date()]. *)
Definition verifyPaymentEvent `{Ethers} (env : gmap string string)
    (getBlockNumber : Result Z)
    (queryFilter : string -> string -> Z -> Z -> Result (list QueriedEvent))
    (now : Z) (paymentId merchant customer amount : string) : EventCheck :=
  match getBlockNumber with
  | Throw error => on_error error
  | Ok currentBlock =>
      match queryFilter paymentId merchant (fromBlock currentBlock) currentBlock with
      | Throw error => on_error error
      | Ok [] => failed "Payment event not found in blockchain logs"
      | Ok (Log _ :: _) => failed "Invalid event format"
      | Ok (EventLog eventArgs blockNumber getTransactionReceipt :: _) =>
          if negb (String.eqb
                     (ListenerVerification.toLowerCase (EventVerification.merchant eventArgs))
                     (ListenerVerification.toLowerCase merchant)) then
            failed ("Merchant address mismatch. Expected: " +:+ merchant
                      +:+ ", Got: " +:+ EventVerification.merchant eventArgs)
          else
            match getTransactionReceipt with
            | Throw error => on_error error
            | Ok receipt =>
                let confirmations := currentBlock - receipt_blockNumber receipt in
                let minConfirmations := minConfirmations env in
                if JsBuiltins.lt_number confirmations minConfirmations then
                  failed ("Insufficient confirmations: " +:+ pretty confirmations
                            +:+ "/" +:+ JsBuiltins.number_string minConfirmations)
                else
                  let totalAmount :=
                    merchantAmount eventArgs + platformFee eventArgs
                    + listenerFee eventArgs in
                  {| isValid := true; reason := None;
                     eventData :=
                       Some {| data_paymentId := EventVerification.paymentId eventArgs;
                               data_merchant := EventVerification.merchant eventArgs;
                               data_merchantAmount :=
                                 formatEther (merchantAmount eventArgs);
                               data_platformFee := formatEther (platformFee eventArgs);
                               data_listenerFee := formatEther (listenerFee eventArgs);
                               totalAmount := formatEther totalAmount;
                               data_blockNumber := receipt_blockNumber receipt;
                               confirmations := confirmations;
                               transactionHash := receipt_hash receipt;
                               timestamp := now |} |}
            end
      end
  end.

Record ConfirmationCheck := {
  conf_isValid : bool;
  conf_confirmations : Z;
  conf_reason : option string
}.

(** [minConfirmations] is the second argument, 3 when it is left out. *)
Definition verifyTransactionConfirmations
    (getTransactionReceipt : string -> Result (option BlockchainVerification.Receipt))
    (getBlockNumber : Result Z) (transactionHash : string) (minConfirmations : Z)
    : ConfirmationCheck :=
  let failed_query :=
    {| conf_isValid := false; conf_confirmations := 0;
       conf_reason := Some "Failed to query transaction" |} in
  match getTransactionReceipt transactionHash with
  | Throw _ => failed_query
  | Ok None =>
      {| conf_isValid := false; conf_confirmations := 0;
         conf_reason := Some "Transaction not found" |}
  | Ok (Some receipt) =>
      match getBlockNumber with
      | Throw _ => failed_query
      | Ok currentBlock =>
          let confirmations :=
            currentBlock - BlockchainVerification.receipt_blockNumber receipt in
          {| conf_isValid := confirmations >=? minConfirmations;
             conf_confirmations := confirmations;
             conf_reason :=
               if confirmations <? minConfirmations
               then Some ("Only " +:+ pretty confirmations +:+ "/"
                            +:+ pretty minConfirmations +:+ " confirmations")
               else None |}
      end
  end.

End EventVerification.

(** ** Providers and the blockchain service: providers.ts, blockchainService.ts *)
Module BlockchainService.

(** The keys of [RPC_PROVIDERS]. *)
Inductive Chain :=
| ethereum
| polygon
| arbitrum
| base.

(** What [RPC_PROVIDERS[key]] evaluates to when it is truthy: a provider of
    the table, or a member the table inherits from [Object.prototype]. The
    key is in lower case, so of the inherited members only [constructor] and
    [__proto__] can be named. *)
Inductive Provider :=
| Rpc (chain : Chain)
| Inherited (member : string).

Definition lookup_provider (key : string) : option Provider :=
  if String.eqb key "ethereum" then Some (Rpc ethereum)
  else if String.eqb key "polygon" then Some (Rpc polygon)
  else if String.eqb key "arbitrum" then Some (Rpc arbitrum)
  else if String.eqb key "base" then Some (Rpc base)
  else if String.eqb key "constructor" || String.eqb key "__proto__"
  then Some (Inherited key)
  else None.

Definition getProviderForChain (chain : string) : Result Provider :=
  match lookup_provider (ListenerVerification.toLowerCase chain) with
  | Some provider => Ok provider
  | None => Throw (new_Error ("Unsupported chain: " +:+ chain))
  end.

(** A log of a receipt after [iface.parseLog]: [None] when the interface
    does not know the log. *)
Record LogDescription := {
  log_name : string;
  args_merchant : string;
  args_amount : Z
}.

Record Receipt := {
  status : option Z;
  to : option string;
  blockNumber : Z;
  logs : list (option LogDescription)
}.

(** What the nodes behind the providers answer. *)
Record Nodes := {
  getTransactionReceipt : Chain -> string -> Result (option Receipt);
  getBlockNumber : Chain -> Result Z
}.

Definition not_a_function (method : string) : JsError :=
  {| err_is_Error := true; err_code := None;
     err_message := Some ("provider." +:+ method +:+ " is not a function");
     err_stack := None |}.

Definition provider_getTransactionReceipt (nodes : Nodes) (provider : Provider)
    (txHash : string) : Result (option Receipt) :=
  match provider with
  | Rpc chain => getTransactionReceipt nodes chain txHash
  | Inherited _ => Throw (not_a_function "getTransactionReceipt")
  end.

Definition provider_getBlockNumber (nodes : Nodes) (provider : Provider) : Result Z :=
  match provider with
  | Rpc chain => getBlockNumber nodes chain
  | Inherited _ => Throw (not_a_function "getBlockNumber")
  end.

Definition getTransactionConfirmations (nodes : Nodes) (txHash chain : string)
    : Result Z :=
  match getProviderForChain chain with
  | Throw error => Throw error
  | Ok provider =>
      match provider_getTransactionReceipt nodes provider txHash with
      | Throw error => Throw error
      | Ok None => Ok 0
      | Ok (Some receipt) =>
          match provider_getBlockNumber nodes provider with
          | Throw error => Throw error
          | Ok currentBlock => Ok (currentBlock - blockNumber receipt)
          end
      end
  end.

Definition is_PaymentCompleted (log : option LogDescription) : bool :=
  match log with
  | Some l => String.eqb (log_name l) "PaymentCompleted"
  | None => false
  end.

(** [contractAddress] is [PAYMENT_CONTRACT_ADDRESS], [None] when it is
    [undefined]; [BigInt] is the conversion of a string to a [bigint]. *)
Definition verifyTransactionOnChain (nodes : Nodes) (contractAddress : option string)
    (BigInt : string -> Result Z)
    (txHash expectedAmount expectedMerchant chain : string) : bool :=
  match getProviderForChain chain with
  | Throw _ => false
  | Ok provider =>
      match provider_getTransactionReceipt nodes provider txHash with
      | Throw _ => false
      | Ok None => false
      | Ok (Some receipt) =>
          if negb (bool_decide (status receipt = Some 1)) then false
          else
            match contractAddress with
            | None => false
            | Some contract =>
                if negb (bool_decide
                           (ListenerVerification.toLowerCase <$> to receipt
                            = Some (ListenerVerification.toLowerCase contract)))
                then false
                else
                  match List.find is_PaymentCompleted (logs receipt) with
                  | Some (Some paymentEvent) =>
                      if String.eqb
                           (ListenerVerification.toLowerCase (args_merchant paymentEvent))
                           (ListenerVerification.toLowerCase expectedMerchant)
                      then
                        match BigInt expectedAmount with
                        | Ok expected => args_amount paymentEvent >=? expected
                        | Throw _ => false
                        end
                      else false
                  | _ => false
                  end
            end
      end
  end.

End BlockchainService.

(** ** Webhook HMAC: utils/crypto.ts *)
Module Crypto.

(** [crypto.createHmac('sha256', secret).update(payload).digest('hex')] *)
Class Hmac := hmac_sha256_hex : string -> string -> string.

Definition length_mismatch : JsError :=
  {| err_is_Error := true; err_code := Some "ERR_CRYPTO_TIMING_SAFE_EQUAL_LENGTH";
     err_message := Some "Input buffers must have the same byte length";
     err_stack := None |}.

(** [crypto.timingSafeEqual(Buffer.from(a), Buffer.from(b))]; a string
    stands for its bytes. *)
Definition timingSafeEqual (a b : string) : Result bool :=
  if (String.length a =? String.length b)%nat then Ok (String.eqb a b)
  else Throw length_mismatch.

Definition generateWebhookSignature `{Hmac} (payload secret : string) : string :=
  hmac_sha256_hex secret payload.

Definition verifyWebhookSignature `{Hmac} (payload signature secret : string)
    : Result bool :=
  let digest := hmac_sha256_hex secret payload in
  timingSafeEqual signature digest.

End Crypto.

(** ** Administrative authentication: middleware/authMiddleware.ts *)
Module AuthMiddleware.

Record User := {
  id : option string;
  email : option string;
  role : option string
}.

(** What the middleware does with a request: it answers, or it sets
    [req.user] and calls [next]. *)
Inductive Outcome :=
| Answer (status : Z) (error : string)
| Next (user : User).

(** [jwt_verify token secret] is [jwt.verify(token, secret)]: the decoded
    payload, with the three fields the middleware copies. *)
Definition authMiddleware (jwt_verify : string -> option string -> Result User)
    (JWT_SECRET : option string) (authorization : option string) : Outcome :=
  match authorization with
  | None => Answer 401 "No token provided"
  | Some authHeader =>
      if String.eqb authHeader "" || negb (String.prefix "Bearer " authHeader) then
        Answer 401 "No token provided"
      else
        let token := JsBuiltins.drop_chars 7 authHeader in
        match jwt_verify token JWT_SECRET with
        | Ok decoded =>
            Next {| id := id decoded; email := email decoded; role := role decoded |}
        | Throw _ => Answer 401 "Invalid token"
        end
  end.

End AuthMiddleware.

(** ** Typed proofs and proof verification: proofGenerator.ts *)
Module TypedProof.

Record Domain := {
  name : string;
  version : string;
  chainId : Z;
  verifyingContract : string
}.

Record Confirmation := {
  paymentId : string;
  listener : string;
  merchant : string;
  amount : Z;
  orderId : string;
  timestamp : Z;
  received : bool
}.

(** The part of [ethers] and of the merchant wallet the two functions use. *)
Class Wallet := {
  (** [merchantWallet.address] *)
  address : string;
  (** [ethers.id(s)] *)
  ethers_id : string -> string;
  (** [merchantWallet.signTypedData(domain, types, value)] *)
  signTypedData : Domain -> list (string * string) -> Confirmation -> Result string;
  (** [signTypedData] throws on [value] because a number of it is outside
      the bounds of its type; the error holds this number, a [bigint]. *)
  signTypedData_out_of_bounds : Confirmation -> bool;
  (** [ethers.hashMessage(ethers.getBytes(message))] *)
  hashMessage : string -> Result string;
  (** [ethers.recoverAddress(digest, signature)] *)
  recoverAddress : string -> string -> Result string
}.

Definition ZeroAddress : string := "0x0000000000000000000000000000000000000000".

Record TypedParams := {
  payment_id : string;
  listener_address : string;
  param_timestamp : Z;
  webhook_received : bool;
  order_id : string;
  param_amount : string
}.

Record TypedProofResult := {
  proof_domain : Domain;
  proof_types : list (string * string);
  proof_value : Confirmation;
  proof_signature : string;
  proof_timestamp : Z;
  proof_method : string
}.

Definition WebhookConfirmation : list (string * string) :=
  [("paymentId", "bytes32"); ("listener", "address"); ("merchant", "address");
   ("amount", "uint256"); ("orderId", "bytes32"); ("timestamp", "uint256");
   ("received", "bool")].

(** The [catch] of the function logs the error object and throws it
    again; on the overflow fault of [parseEther] and on the out-of-bounds
    fault of [signTypedData] the log line cannot be written and the error of
    [JSON.stringify] is thrown instead. *)
Definition generateEIP712Signature `{Ethers} `{Wallet} (env : gmap string string)
    (params : TypedParams) : Result TypedProofResult :=
  let domain :=
    {| name := "Web3Pay Merchant Confirmation"; version := "1";
       chainId := 11155111;
       verifyingContract := or_else (env !! "LISTENER_REGISTRY_ADDRESS") ZeroAddress |} in
  let types := WebhookConfirmation in
  match parseEther (param_amount params) with
  | Throw error =>
      if parseEther_overflows (param_amount params) then Throw stringify_bigint
      else Throw error
  | Ok wei =>
      let value :=
        {| paymentId := payment_id params; listener := listener_address params;
           merchant := address; amount := wei;
           orderId := ethers_id (order_id params);
           timestamp := param_timestamp params;
           received := webhook_received params |} in
      match signTypedData domain types value with
      | Throw error =>
          if signTypedData_out_of_bounds value then Throw stringify_bigint
          else Throw error
      | Ok signature =>
          Ok {| proof_domain := domain; proof_types := types; proof_value := value;
                proof_signature := signature;
                proof_timestamp := param_timestamp params;
                proof_method := "eip712" |}
      end
  end.

Definition verifyProof `{Wallet} (message signature expectedSigner : string) : bool :=
  match hashMessage message with
  | Throw _ => false
  | Ok digest =>
      match recoverAddress digest signature with
      | Throw _ => false
      | Ok recoveredAddress =>
          String.eqb (ListenerVerification.toLowerCase recoveredAddress)
                     (ListenerVerification.toLowerCase expectedSigner)
      end
  end.

Definition getMerchantAddress `{Wallet} : string := address.

(** The wallet signs with the key of its address: what it signs recovers to
    that address. *)
Definition signs_as_itself `{Ethers} `{Wallet} : Prop :=
  ∀ message signature,
    signMessage message = Ok signature →
    ∃ digest, hashMessage message = Ok digest
              ∧ recoverAddress digest signature = Ok address.

End TypedProof.

(** ** More sample data *)
(** ** Administrative login: adminController.ts *)
Module AdminController.

Record Admin := {
  admin_id : string;
  admin_email : string;
  admin_name : option string;
  admin_role : string;
  passwordHash : string
}.

(** [req.body], as far as [login] reads it. *)
Record Credentials := {
  cred_email : option string;
  cred_password : option string
}.

Inductive LoginAnswer :=
| LoggedIn (token : string) (id email : string) (name : option string) (role : string)
| LoginError (status : Z) (error : string).

(** The payload [login] signs. *)
Definition payload (admin : Admin) : AuthMiddleware.User :=
  {| AuthMiddleware.id := Some (admin_id admin);
     AuthMiddleware.email := Some (admin_email admin);
     AuthMiddleware.role := Some (admin_role admin) |}.

(** [findUnique] is [prisma.admin.findUnique], [compare] is
    [bcrypt.compare], [jwt_sign payload secret] is
    [jwt.sign(payload, secret, { expiresIn: '7d' })]. A request without a
    body makes the destructuring throw. *)
Definition login (findUnique : option string -> Result (option Admin))
    (compare : option string -> string -> Result bool)
    (jwt_sign : AuthMiddleware.User -> option string -> Result string)
    (JWT_SECRET : option string) (body : option Credentials) : LoginAnswer :=
  match body with
  | None => LoginError 500 "Login failed"
  | Some credentials =>
      match findUnique (cred_email credentials) with
      | Throw _ => LoginError 500 "Login failed"
      | Ok None => LoginError 401 "Invalid credentials"
      | Ok (Some admin) =>
          match compare (cred_password credentials) (passwordHash admin) with
          | Throw _ => LoginError 500 "Login failed"
          | Ok false => LoginError 401 "Invalid credentials"
          | Ok true =>
              match jwt_sign (payload admin) JWT_SECRET with
              | Throw _ => LoginError 500 "Login failed"
              | Ok token =>
                  LoggedIn token (admin_id admin) (admin_email admin)
                    (admin_name admin) (admin_role admin)
              end
          end
      end
  end.

(** [jwt.verify] accepts the tokens [jwt.sign] made with the same secret
    (while they have not expired), and returns their payload. *)
Definition verifies_own_tokens
    (jwt_sign : AuthMiddleware.User -> option string -> Result string)
    (jwt_verify : string -> option string -> Result AuthMiddleware.User) : Prop :=
  ∀ user secret token,
    jwt_sign user secret = Ok token → jwt_verify token secret = Ok user.

End AdminController.

(** ** Pages of the order list: orderController.ts *)
Module OrderController.

(** [parseInt(q) || dflt] on a query parameter that may be absent:
    [parseInt(undefined)] is [NaN], and [NaN] and 0 are falsy. *)
Definition parseInt_or (q : option string) (dflt : Z) : Z :=
  match q ≫= JsBuiltins.parseInt with
  | Some n => if n =? 0 then dflt else n
  | None => dflt
  end.

(** [skip] is [None] when it is [NaN]. *)
Record Pagination := {
  page : Z;
  limit : Z;
  skip : option Z;
  take : Z;
  totalPages : Z
}.

(** The window [listOrders] asks of the order store, and the page count
    it reports when the store answers, for [total] matching orders:
    [(page - 1) * limit] and [Math.ceil(total / limit)], on the numbers of
    the language ([JsNumber]). *)
Definition pagination (query_page query_limit : option string) (total : Z)
    : Pagination :=
  let page := parseInt_or query_page 1 in
  let limit := parseInt_or query_limit 20 in
  {| page := page; limit := limit;
     skip := JsNumber.sub page 1 ≫= (fun before => JsNumber.mul before limit);
     take := limit;
     totalPages := JsNumber.ceil_quotient total limit |}.

End OrderController.

(** ** Runs of the confirmation monitor *)
Module MonitorRuns.

Import ConfirmationMonitor.

Definition is_start_of (orderId : string) (op : Op) : bool :=
  match op with
  | Start id _ _ _ => String.eqb id orderId
  | _ => false
  end.

(** How often [startConfirmationMonitoring] was called for [orderId]. *)
Definition starts_of (orderId : string) (ops : list Op) : nat :=
  length (List.filter (is_start_of orderId) ops).

(** The callback of every firing runs to its end before the next step. *)
Definition is_atomic (op : Op) : bool :=
  match op with
  | Begin _ | Resume _ _ => false
  | _ => true
  end.

(** Monitoring is started for an order, and its interval fires a second
    time while the callback of the first firing waits for the ledger; then
    the first callback runs up to its last await, and after it the second. *)
Definition overlapping (orderId txHash chain : string) (io : bool) (pw : PollWorld)
    : list Op :=
  [Start orderId txHash chain io; Begin 0; Begin 0;
   Resume 0 pw; Resume 0 pw; Resume 0 pw;
   Resume 1 pw; Resume 1 pw; Resume 1 pw].

(** No interval and no callback in flight is of [orderId]. *)
Definition unmonitored (orderId : string) (reg : Registry) : Prop :=
  (∀ intervalId job, timers reg !! intervalId = Some job → job_orderId job ≠ orderId)
  ∧ Forall (fun cb => job_orderId (cb_job cb) ≠ orderId) (callbacks reg).

(** 1 when [monitoringJobs.has(orderId)], 0 otherwise. *)
Definition monitored (orderId : string) (reg : Registry) : nat :=
  if bool_decide (is_Some (monitoringJobs reg !! orderId)) then 1%nat else 0%nat.

(** The ledger reports [n] confirmations and the order store answers; the
    mailer fails. *)
Definition mailer_down (n now : Z) (order : Order) : PollWorld :=
  {| getTransactionConfirmations := Ok n; update_confirmations := Ok tt;
     update_confirmed := Ok order;
     sendPaymentConfirmedEmail := Throw (new_Error "SMTP connection refused");
     poll_now := now |}.

End MonitorRuns.

Module Sample2.

(** The payload of the one administrator of the samples. *)
Definition admin : AdminController.Admin :=
  {| AdminController.admin_id := "1";
     AdminController.admin_email := "admin@example.org";
     AdminController.admin_name := Some "Admin";
     AdminController.admin_role := "admin";
     AdminController.passwordHash := "$2a$10$hash" |}.

Definition option_eqb (a b : option string) : bool :=
  match a, b with
  | Some a, Some b => String.eqb a b
  | None, None => true
  | _, _ => false
  end.

(** Only the payload of [admin] is signed, as [good-token], and only when
    a secret is configured. *)
Definition jwt_sign (user : AuthMiddleware.User) (secret : option string)
    : Result string :=
  match secret with
  | Some _ =>
      if option_eqb (AuthMiddleware.id user) (Some "1")
         && option_eqb (AuthMiddleware.email user) (Some "admin@example.org")
         && option_eqb (AuthMiddleware.role user) (Some "admin")
      then Ok "good-token"
      else Throw (new_Error "payload refused")
  | None => Throw (new_Error "secretOrPrivateKey must have a value")
  end.

(** A token verifies when it is [good-token] and a secret is configured. *)
Definition jwt_verify (token : string) (secret : option string)
    : Result AuthMiddleware.User :=
  match secret with
  | Some _ =>
      if String.eqb token "good-token"
      then Ok {| AuthMiddleware.id := Some "1";
                 AuthMiddleware.email := Some "admin@example.org";
                 AuthMiddleware.role := Some "admin" |}
      else Throw (new_Error "jwt malformed")
  | None => Throw (new_Error "secretOrPublicKey must have a value")
  end.

(** A wallet for [Sample.ethers]: the digest of a message is the message,
    and a signature recovers to the merchant exactly when it is the one
    [Sample.ethers] produces for the digest. *)
Definition wallet : TypedProof.Wallet :=
  {| TypedProof.address := Sample.merchant_addr;
     TypedProof.ethers_id := fun s => "id(" +:+ s +:+ ")";
     TypedProof.signTypedData := fun _ _ _ => Ok "signed(typed)";
     TypedProof.signTypedData_out_of_bounds := fun _ => false;
     TypedProof.hashMessage := fun m => Ok m;
     TypedProof.recoverAddress := fun digest signature =>
       if String.eqb signature ("signed(" +:+ digest +:+ ")")
       then Ok Sample.merchant_addr
       else Ok Sample.customer_addr |}.

(** A node that knows one transaction, in block 100, at height 112. *)
Definition nodes : BlockchainService.Nodes :=
  {| BlockchainService.getTransactionReceipt := fun _ txHash =>
       if String.eqb txHash Sample.tx
       then Ok (Some {| BlockchainService.status := Some 1;
                        BlockchainService.to := Some Sample.merchant_addr;
                        BlockchainService.blockNumber := 100;
                        BlockchainService.logs := [] |})
       else Ok None;
     BlockchainService.getBlockNumber := fun _ => Ok 112 |}.

(** The order store knows the order of the sample payment. *)
Definition world_with_order : WebhookController.World :=
  {| WebhookController.env := Sample.skip_env;
     WebhookController.thresholds := default_thresholds;
     WebhookController.getListener := fun _ _ => Ok Sample.good_listener;
     WebhookController.getPayment := Sample.ledger;
     WebhookController.getTransactionReceipt := fun _ =>
       Ok (Some {| BlockchainVerification.receipt_status := 1;
                   BlockchainVerification.receipt_blockNumber := 100 |});
     WebhookController.getBlockNumber := Ok 105;
     WebhookController.order_findFirst := fun _ _ => Ok (Some Sample.order_row);
     WebhookController.order_update := fun _ _ => Ok Sample.order_row;
     WebhookController.webhookLog_create := Ok tt;
     WebhookController.sendPaymentReceivedEmail := Ok tt;
     WebhookController.emitPaymentReceived := fun _ => Ok tt;
     WebhookController.getIO := Ok true;
     WebhookController.now_start := 1700000600000;
     WebhookController.now_payment := 1700000600001;
     WebhookController.now_confirmed := 1700000600002;
     WebhookController.now_proof := 1700000600003;
     WebhookController.now_validate := 1700000600003;
     WebhookController.now_mark := 1700000600004;
     WebhookController.now_processed := 1700000600005;
     WebhookController.now_end := 1700000600006 |}.

(** The sample claim, for 10^160 ether. *)
Definition claim_huge : WebhookController.WebhookData :=
  {| WebhookController.type := WebhookController.payment_completed;
     WebhookController.payment_id := Sample.payment;
     WebhookController.merchant := Sample.merchant_addr;
     WebhookController.customer := Sample.customer_addr;
     WebhookController.amount := Sample.huge_amount;
     WebhookController.timestamp := 1700000000;
     WebhookController.block_number := 100;
     WebhookController.transaction_hash := Sample.tx;
     WebhookController.chain_id := 11155111 |}.

(** A slashed listener. *)
Definition slashed_listener : ListenerVerification.ListenerTuple :=
  {| ListenerVerification.nodeAddress := Sample.listener_addr;
     ListenerVerification.stake := 10 ^ 18;
     ListenerVerification.registeredAt := 1700000000;
     ListenerVerification.totalDelivered := 10;
     ListenerVerification.successfulDeliveries := 9;
     ListenerVerification.failedDeliveries := 1;
     ListenerVerification.totalEarned := 0;
     ListenerVerification.reputation := 80;
     ListenerVerification.active := true;
     ListenerVerification.slashed := true;
     ListenerVerification.lastActivityTime := 1700000500 |}.

(** The registry answers with the slashed listener; otherwise as
    [Sample.world]. *)
Definition world_slashed : WebhookController.World :=
  {| WebhookController.env := Sample.skip_env;
     WebhookController.thresholds := default_thresholds;
     WebhookController.getListener := fun _ _ => Ok slashed_listener;
     WebhookController.getPayment := Sample.ledger;
     WebhookController.getTransactionReceipt := fun _ =>
       Ok (Some {| BlockchainVerification.receipt_status := 1;
                   BlockchainVerification.receipt_blockNumber := 100 |});
     WebhookController.getBlockNumber := Ok 105;
     WebhookController.order_findFirst := fun _ _ =>
       Throw (new_Error "database not configured");
     WebhookController.order_update := fun _ _ =>
       Throw (new_Error "database not configured");
     WebhookController.webhookLog_create := Throw (new_Error "database not configured");
     WebhookController.sendPaymentReceivedEmail := Ok tt;
     WebhookController.emitPaymentReceived := fun _ => Ok tt;
     WebhookController.getIO := Ok true;
     WebhookController.now_start := 1700000600000;
     WebhookController.now_payment := 1700000600001;
     WebhookController.now_confirmed := 1700000600002;
     WebhookController.now_proof := 1700000600003;
     WebhookController.now_validate := 1700000600003;
     WebhookController.now_mark := 1700000600004;
     WebhookController.now_processed := 1700000600005;
     WebhookController.now_end := 1700000600006 |}.

End Sample2.
(** * Properties *)

(** ** The retrying ledger client *)
Section RetryProperties.

Import Retry.

Context {T : Type}.
Implicit Types (fn : nat -> Result T) (tr : list Event).

(** A run starts with the call of the current attempt, if it does
    anything at all. *)
Lemma retry_loop_head fn m r a e :
  (retry_loop fn m r a e).2 = []
  ∨ ∃ rest, (retry_loop fn m r a e).2 = Call a :: rest.
Proof.
  destruct r as [|r]; simpl; [by left|right].
  destruct (fn a) as [v|err]; [by eexists|].
  destruct ((a <? m)%nat && isTimeout err); [|by eexists].
  destruct (retry_loop fn m r (S a) err); by eexists.
Qed.

(** The loop body runs at most [remaining] times. *)
Lemma retry_loop_attempts fn m r a e :
  (length (attempts (retry_loop fn m r a e).2) ≤ r)%nat.
Proof.
  revert a e. induction r as [|r IH]; intros a e; simpl; [lia|].
  destruct (fn a) as [v|err]; simpl; [lia|].
  destruct ((a <? m)%nat && isTimeout err); simpl; [|lia].
  specialize (IH (S a) err).
  destruct (retry_loop fn m r (S a) err) as [res tr]; simpl in *. lia.
Qed.

(** Every pause is the one computed after the attempt that precedes it. *)
Lemma retry_loop_delay fn m r a e k d :
  delay_before k (retry_loop fn m r a e).2 = Some d →
  (a < k)%nat ∧ d = delay_after (k - 1).
Proof.
  revert a e. induction r as [|r IH]; intros a e; simpl; [done|].
  destruct (fn a) as [v|err]; simpl; [done|].
  destruct ((a <? m)%nat && isTimeout err); simpl; [|done].
  pose proof (retry_loop_head fn m r (S a) err) as Hhead.
  specialize (IH (S a) err).
  destruct (retry_loop fn m r (S a) err) as [res tr]; simpl in *.
  destruct Hhead as [->|[rest ->]]; [done|].
  destruct (Nat.eqb_spec (S a) k) as [<-|Hne].
  - intros [= <-]. split; [lia|]. f_equal. lia.
  - intros Hd. apply IH in Hd as [Hlt ->]. split; [lia|done].
Qed.

Lemma delay_after_values :
  delay_after 1 = 1000 ∧ delay_after 2 = 2000 ∧ delay_after 3 = 4000
  ∧ ∀ k, (4 ≤ k)%nat → delay_after k = 5000.
Proof.
  repeat split; try reflexivity.
  intros k Hk. unfold delay_after, baseDelay.
  assert (2 ^ 3 ≤ 2 ^ (Z.of_nat k - 1)) by (apply Z.pow_le_mono_r; lia).
  lia.
Qed.

End RetryProperties.

(** C2, as the specification states it, fails on the delays: the pause
    before the second attempt is one second, where the specification's
    formula gives two. *)
Lemma retry_delay_differs_from_spec :
  Retry.delay_before 2 (Retry.retryWithBackoff Retry.fails_once 3).2 = Some 1000
  ∧ Retry.spec_delay_before 2 = 2000
  ∧ ¬ (∀ (fn : nat -> Result Z) k d,
         Retry.delay_before k (Retry.retryWithBackoff fn 3).2 = Some d →
         d = Retry.spec_delay_before k).
Proof.
  split; [reflexivity|]. split; [reflexivity|].
  intros Hspec. specialize (Hspec Retry.fails_once 2%nat 1000 eq_refl).
  discriminate Hspec.
Qed.

(** C2 (amended). A ledger call through the retrying client, with the three
    attempts its callers allow: at most 3 attempts are made; the pause
    before attempt k (k >= 2) is min(1000ms * 2^(k-2), 5000ms), that is one
    second before the second attempt and two before the third; a failure
    that is not classified transient propagates at once, with no pause after
    it; two transient failures followed by a success return the success;
    and when the third attempt fails its error is the one propagated. *)
Theorem retry_policy (T : Type) (fn : nat -> Result T) :
  let run := Retry.retryWithBackoff fn 3 in
  (length (Retry.attempts run.2) ≤ 3)%nat
  ∧ (∀ k d, Retry.delay_before k run.2 = Some d →
       (2 ≤ k)%nat ∧ d = Z.min (1000 * 2 ^ (Z.of_nat k - 2)) 5000)
  ∧ (∀ e, fn 1%nat = Throw e → Retry.isTimeout e = false →
       run = (Throw e, [Retry.Call 1]))
  ∧ (∀ e1 e2, fn 1%nat = Throw e1 → Retry.isTimeout e1 = true →
       fn 2%nat = Throw e2 → Retry.isTimeout e2 = false →
       run = (Throw e2, [Retry.Call 1; Retry.Sleep 1000; Retry.Call 2]))
  ∧ (∀ e1 e2 v, fn 1%nat = Throw e1 → Retry.isTimeout e1 = true →
       fn 2%nat = Throw e2 → Retry.isTimeout e2 = true →
       fn 3%nat = Ok v →
       run = (Ok v, [Retry.Call 1; Retry.Sleep 1000; Retry.Call 2;
                     Retry.Sleep 2000; Retry.Call 3]))
  ∧ (∀ e1 e2 e3, fn 1%nat = Throw e1 → Retry.isTimeout e1 = true →
       fn 2%nat = Throw e2 → Retry.isTimeout e2 = true →
       fn 3%nat = Throw e3 →
       run = (Throw e3, [Retry.Call 1; Retry.Sleep 1000; Retry.Call 2;
                         Retry.Sleep 2000; Retry.Call 3])).
Proof.
  intros run. subst run. unfold Retry.retryWithBackoff.
  split; [apply retry_loop_attempts|].
  split.
  { intros k d Hd. apply retry_loop_delay in Hd as [Hk ->].
    split; [lia|]. unfold Retry.delay_after, Retry.baseDelay.
    by replace (Z.of_nat (k - 1) - 1) with (Z.of_nat k - 2) by lia. }
  repeat split.
  - intros e H1 Ht. simpl. by rewrite H1, Ht.
  - intros e1 e2 H1 Ht1 H2 Ht2. simpl. by rewrite H1, Ht1, H2, Ht2.
  - intros e1 e2 v H1 Ht1 H2 Ht2 H3. simpl. by rewrite H1, Ht1, H2, Ht2, H3.
  - intros e1 e2 e3 H1 Ht1 H2 Ht2 H3. simpl. by rewrite H1, Ht1, H2, Ht2, H3.
Qed.

(** C2 (amended) on a call that times out once and then answers. *)
Lemma retry_policy_witness :
  Retry.retryWithBackoff Retry.fails_once 3
  = (Ok 7, [Retry.Call 1; Retry.Sleep 1000; Retry.Call 2])
  ∧ (length (Retry.attempts (Retry.retryWithBackoff Retry.fails_once 3).2) ≤ 3)%nat.
Proof.
  split; [reflexivity|].
  exact (proj1 (retry_policy Z Retry.fails_once)).
Defined.

(** ** The listener registry check *)
Section RegistryProperties.

Import ListenerVerification.

Context `{Ethers}.
Variables (env : gmap string string) (thr : Thresholds).
Variable getListener : string -> nat -> Result ListenerTuple.
Variable listenerAddress : string.

Lemma env_is_true_iff (e : gmap string string) name :
  env_is_true e name = true ↔ e !! name = Some "true".
Proof.
  unfold env_is_true. destruct (e !! name) as [v|]; [|done].
  rewrite String.eqb_eq. split; congruence.
Qed.

Lemma verifyListenerRegistered_snapshot snapshot :
  (Retry.retryWithBackoff (getListener listenerAddress) 3).1 = Ok snapshot →
  verifyListenerRegistered env thr getListener listenerAddress
  = check_snapshot env thr listenerAddress snapshot.
Proof. intros Hq. unfold verifyListenerRegistered. by rewrite Hq. Qed.

Lemma verifyListenerRegistered_failure error :
  (Retry.retryWithBackoff (getListener listenerAddress) 3).1 = Throw error →
  verifyListenerRegistered env thr getListener listenerAddress
  = on_query_error env listenerAddress error.
Proof. intros Hq. unfold verifyListenerRegistered. by rewrite Hq. Qed.

(** C3. On every snapshot the registry returns, the check rejects with a
    reason in this order of priority: the listener is not active; it is
    slashed; its stake is below the configured minimum; its reputation is
    below the configured minimum. When none of the four holds the check
    accepts. *)
Theorem registry_check_priority snapshot :
  (Retry.retryWithBackoff (getListener listenerAddress) 3).1 = Ok snapshot →
  let check := verifyListenerRegistered env thr getListener listenerAddress in
  (active snapshot = false →
     isValid check = false ∧ reason check = Some "Listener is not active")
  ∧ (active snapshot = true → slashed snapshot = true →
     isValid check = false
     ∧ reason check = Some "Listener has been slashed (banned)")
  ∧ (∀ minStake, parseEther (minListenerStake thr) = Ok minStake →
     active snapshot = true → slashed snapshot = false →
     (stake snapshot < minStake →
        isValid check = false
        ∧ reason check
          = Some ("Listener stake too low: " +:+ formatEther (stake snapshot)
                    +:+ " ETH (minimum: " +:+ minListenerStake thr +:+ " ETH)"))
     ∧ (minStake ≤ stake snapshot →
        reputation snapshot < minListenerReputation thr →
        isValid check = false
        ∧ reason check
          = Some ("Listener reputation too low: " +:+ pretty (reputation snapshot)
                    +:+ " (minimum: " +:+ pretty (minListenerReputation thr)
                    +:+ ")"))
     ∧ (minStake ≤ stake snapshot →
        minListenerReputation thr ≤ reputation snapshot →
        isValid check = true ∧ reason check = None
        ∧ address <$> listenerInfo check = Some listenerAddress)).
Proof.
  intros Hq check. subst check.
  rewrite (verifyListenerRegistered_snapshot _ Hq). unfold check_snapshot.
  split; [by intros ->|].
  split; [by intros -> ->|].
  intros minStake -> -> ->. simpl.
  repeat split.
  - destruct (Z.ltb_spec (stake snapshot) minStake); [done|lia].
  - destruct (Z.ltb_spec (stake snapshot) minStake); [done|lia].
  - destruct (Z.ltb_spec (stake snapshot) minStake); [lia|].
    destruct (Z.ltb_spec (reputation snapshot) (minListenerReputation thr));
      [done|lia].
  - destruct (Z.ltb_spec (stake snapshot) minStake); [lia|].
    destruct (Z.ltb_spec (reputation snapshot) (minListenerReputation thr));
      [done|lia].
  - destruct (Z.ltb_spec (stake snapshot) minStake); [lia|].
    destruct (Z.ltb_spec (reputation snapshot) (minListenerReputation thr));
      [lia|done].
  - destruct (Z.ltb_spec (stake snapshot) minStake); [lia|].
    destruct (Z.ltb_spec (reputation snapshot) (minListenerReputation thr));
      [lia|done].
  - destruct (Z.ltb_spec (stake snapshot) minStake); [lia|].
    destruct (Z.ltb_spec (reputation snapshot) (minListenerReputation thr));
      [lia|done].
Qed.

(** C4. When the registry query fails after the retries, the check
    returns isValid=false unless ALLOW_DURING_RPC_FAILURE is 'true'; when
    it is, the check returns isValid=true and flags the result as
    degraded. With the variable unset the check is strict. *)
Theorem registry_failure_mode error :
  (Retry.retryWithBackoff (getListener listenerAddress) 3).1 = Throw error →
  let check := verifyListenerRegistered env thr getListener listenerAddress in
  (env !! "ALLOW_DURING_RPC_FAILURE" ≠ Some "true" →
     isValid check = false
     ∧ reason check = Some ("Blockchain query failed after 3 retries: "
                              +:+ error_message_or_unknown error))
  ∧ (env !! "ALLOW_DURING_RPC_FAILURE" = Some "true" →
     isValid check = true
     ∧ degraded <$> listenerInfo check = Some (Some true)
     ∧ address <$> listenerInfo check = Some listenerAddress)
  ∧ (isValid check = true ↔ env !! "ALLOW_DURING_RPC_FAILURE" = Some "true")
  ∧ (env !! "ALLOW_DURING_RPC_FAILURE" = None → isValid check = false).
Proof.
  intros Hq check. subst check.
  rewrite (verifyListenerRegistered_failure _ Hq). unfold on_query_error.
  destruct (env_is_true env "ALLOW_DURING_RPC_FAILURE") eqn:Hmode.
  - apply env_is_true_iff in Hmode. rewrite Hmode. simpl.
    repeat split; try done.
  - assert (env !! "ALLOW_DURING_RPC_FAILURE" ≠ Some "true") as Hne.
    { intros Hon. apply env_is_true_iff in Hon. congruence. }
    simpl. repeat split; try done.
Qed.

End RegistryProperties.

(** C3 on the sample listener: active, not slashed, 1 ETH staked against a
    minimum of 0.01, reputation 80 against a minimum of 30. *)
Lemma registry_check_priority_witness :
  (Retry.retryWithBackoff (fun _ => Ok Sample.good_listener) 3).1
  = Ok Sample.good_listener
  ∧ ListenerVerification.isValid
      (@ListenerVerification.verifyListenerRegistered Sample.ethers ∅
         default_thresholds (fun _ _ => Ok Sample.good_listener)
         Sample.listener_addr) = true.
Proof.
  split; [reflexivity|].
  pose proof (@registry_check_priority Sample.ethers ∅ default_thresholds
                (fun _ _ => Ok Sample.good_listener) Sample.listener_addr
                Sample.good_listener eq_refl) as (_ & _ & Hthird).
  specialize (Hthird (10 ^ 16) eq_refl eq_refl eq_refl) as (_ & _ & Hok).
  apply Hok; vm_compute; discriminate.
Defined.

(** C4 on a registry that always times out, in strict and in degraded mode. *)
Lemma registry_failure_mode_witness :
  (Retry.retryWithBackoff (fun _ => Throw Retry.timeout_error
                             : Result ListenerVerification.ListenerTuple) 3).1
  = Throw Retry.timeout_error
  ∧ ListenerVerification.isValid
      (@ListenerVerification.verifyListenerRegistered Sample.ethers ∅
         default_thresholds (fun _ _ => Throw Retry.timeout_error)
         Sample.listener_addr) = false
  ∧ ListenerVerification.isValid
      (@ListenerVerification.verifyListenerRegistered Sample.ethers
         Sample.degraded_env default_thresholds
         (fun _ _ => Throw Retry.timeout_error) Sample.listener_addr) = true.
Proof.
  split; [reflexivity|]. split.
  - apply (@registry_failure_mode Sample.ethers ∅ default_thresholds
             (fun _ _ => Throw Retry.timeout_error) Sample.listener_addr
             Retry.timeout_error eq_refl).
    reflexivity.
  - apply (@registry_failure_mode Sample.ethers Sample.degraded_env
             default_thresholds (fun _ _ => Throw Retry.timeout_error)
             Sample.listener_addr Retry.timeout_error eq_refl).
    reflexivity.
Defined.

(** ** The payment verifier *)
Section PaymentProperties.

Import BlockchainVerification.

Context `{Ethers}.
Variable env : gmap string string.
Variable now : Z.
Variables paymentId merchant customer amount : string.

(** C1 (amended). The skip toggle is on exactly when
    SKIP_PAYMENT_VERIFICATION is 'true', so it is off by default. With the
    toggle off the verifier does not query the ledger: whatever the ledger
    holds, it returns isValid=false with a reason that says payment
    verification is not available. With the toggle on it returns
    isValid=true and echoes the claim when the claimed amount is a
    well-formed ether amount. When the amount is not one, it returns
    isValid=false with the parse error as reason, unless the parse error is
    the overflow fault: the verifier cannot log this error and rejects with
    the error of [JSON.stringify]. *)
Theorem payment_check_modes :
  (env !! "SKIP_PAYMENT_VERIFICATION" ≠ Some "true" →
     ∀ paymentDbContract,
       verifyPaymentOnChain env paymentDbContract now paymentId merchant
         customer amount = Ok verification_unavailable)
  ∧ (env !! "SKIP_PAYMENT_VERIFICATION" = Some "true" →
     ∀ paymentDbContract wei, parseEther amount = Ok wei →
       verifyPaymentOnChain env paymentDbContract now paymentId merchant
         customer amount
       = Ok {| isValid := true; reason := None;
               paymentData :=
                 Some {| BlockchainVerification.paymentId := paymentId;
                         BlockchainVerification.merchant := merchant;
                         BlockchainVerification.customer := customer;
                         BlockchainVerification.amount := amount;
                         amountWei := pretty wei; timestamp := now;
                         status := "COMPLETED" |} |})
  ∧ (env !! "SKIP_PAYMENT_VERIFICATION" = Some "true" →
     ∀ paymentDbContract error, parseEther amount = Throw error →
       (parseEther_overflows amount = false →
        verifyPaymentOnChain env paymentDbContract now paymentId merchant
          customer amount
        = Ok {| isValid := false;
                reason := Some ("Blockchain query failed: "
                                  +:+ error_message_or_unknown error);
                paymentData := None |})
       ∧ (parseEther_overflows amount = true →
          verifyPaymentOnChain env paymentDbContract now paymentId merchant
            customer amount
          = Throw stringify_bigint))
  ∧ (env !! "SKIP_PAYMENT_VERIFICATION" = None →
     env_is_true env "SKIP_PAYMENT_VERIFICATION" = false).
Proof.
  unfold verifyPaymentOnChain. split; [|split; [|split]].
  - intros Hoff paymentDbContract.
    destruct (env_is_true env "SKIP_PAYMENT_VERIFICATION") eqn:Hskip; [|done].
    by apply env_is_true_iff in Hskip.
  - intros Hon paymentDbContract wei Hparse.
    apply env_is_true_iff in Hon. by rewrite Hon, Hparse.
  - intros Hon paymentDbContract error Hparse.
    apply env_is_true_iff in Hon. rewrite Hon, Hparse.
    split; by intros ->.
  - intros Hunset. unfold env_is_true. by rewrite Hunset.
Qed.

End PaymentProperties.

(** C1, as the specification states it, fails in both modes. With the
    toggle off, on a ledger that holds the matching record of the payment,
    the verifier still answers isValid=false. With the toggle on it does not
    accept every claim: a claim whose amount is not a decimal amount is
    answered isValid=false. *)
Lemma payment_check_differs_from_spec :
  (env_is_true ∅ "SKIP_PAYMENT_VERIFICATION" = false
   ∧ BlockchainVerification.spec_matching_record Sample.ledger Sample.payment
       Sample.merchant_addr Sample.customer_addr = true
   ∧ BlockchainVerification.accepted
       (@BlockchainVerification.verifyPaymentOnChain Sample.ethers ∅ Sample.ledger
          1700000600001 Sample.payment Sample.merchant_addr Sample.customer_addr
          "1.5") = false)
  ∧ (env_is_true Sample.skip_env "SKIP_PAYMENT_VERIFICATION" = true
     ∧ BlockchainVerification.accepted
         (@BlockchainVerification.verifyPaymentOnChain Sample.ethers Sample.skip_env
            Sample.ledger 1700000600001 Sample.payment Sample.merchant_addr
            Sample.customer_addr "one and a half") = false).
Proof. repeat split; reflexivity. Qed.

(** C1 (amended) on the sample claim, toggle off and toggle on, and with
    the toggle on for an amount of 10^160 ether. *)
Lemma payment_check_modes_witness :
  @BlockchainVerification.verifyPaymentOnChain Sample.ethers ∅ Sample.ledger
    1700000600001 Sample.payment Sample.merchant_addr Sample.customer_addr "1.5"
  = Ok BlockchainVerification.verification_unavailable
  ∧ BlockchainVerification.accepted
      (@BlockchainVerification.verifyPaymentOnChain Sample.ethers Sample.skip_env
         Sample.ledger 1700000600001 Sample.payment Sample.merchant_addr
         Sample.customer_addr "1.5") = true
  ∧ @BlockchainVerification.verifyPaymentOnChain Sample.ethers Sample.skip_env
      Sample.ledger 1700000600001 Sample.payment Sample.merchant_addr
      Sample.customer_addr Sample.huge_amount
    = Throw stringify_bigint.
Proof.
  split; [|split].
  - apply (@payment_check_modes Sample.ethers ∅ 1700000600001 Sample.payment
             Sample.merchant_addr Sample.customer_addr "1.5").
    rewrite lookup_empty. discriminate.
  - erewrite (proj1 (proj2 (@payment_check_modes Sample.ethers Sample.skip_env
                              1700000600001 Sample.payment Sample.merchant_addr
                              Sample.customer_addr "1.5"))); reflexivity.
  - eapply (proj1 (proj2 (proj2 (@payment_check_modes Sample.ethers
                                   Sample.skip_env 1700000600001 Sample.payment
                                   Sample.merchant_addr Sample.customer_addr
                                   Sample.huge_amount)))).
    + reflexivity.
    + by vm_compute.
    + by vm_compute.
Defined.

(** ** The proof generator *)
Section ProofProperties.

Import ProofGenerator.

Context `{Ethers}.
Variable thr : Thresholds.
Variable now : Z.

Lemma eqb_empty_false (s : string) : s ≠ "" → String.eqb s "" = false.
Proof. intros Hne. by apply String.eqb_neq. Qed.

(** The guards that come before the checks on the age of the timestamp. *)
Lemma validateProofParams_guards params :
  payment_id params ≠ "" →
  listener_address params ≠ "" →
  isAddress (listener_address params) = true →
  0 < timestamp params →
  validateProofParams thr now params
  = if now - timestamp params >? proofExpirySeconds thr * 1000 then
      Throw (new_Error ("Timestamp too old: "
                          +:+ pretty ((now - timestamp params) / 1000)
                          +:+ "s (max: " +:+ pretty (proofExpirySeconds thr)
                          +:+ "s)"))
    else if timestamp params >? now + 60000 then
      Throw (new_Error "Timestamp is in the future")
    else Ok tt.
Proof.
  intros Hid Haddr Hwf Hts. unfold validateProofParams.
  rewrite (eqb_empty_false _ Hid), (eqb_empty_false _ Haddr), Hwf. simpl.
  destruct (Z.eqb_spec (timestamp params) 0); [lia|].
  destruct (Z.leb_spec (timestamp params) 0); [lia|]. done.
Qed.

(** A timestamp that is too old or too far ahead is refused, whatever the
    other parameters are. *)
Lemma validateProofParams_rejects params :
  now - timestamp params > proofExpirySeconds thr * 1000
  ∨ timestamp params > now + 60000 →
  ∃ error, validateProofParams thr now params = Throw error.
Proof.
  intros Hbad. unfold validateProofParams.
  destruct (String.eqb (payment_id params) ""); [by eexists|].
  destruct (_ || negb _); [by eexists|].
  destruct (_ || (timestamp params <=? 0)); [by eexists|].
  destruct (Z.gtb_spec (now - timestamp params) (proofExpirySeconds thr * 1000));
    [by eexists|].
  destruct (Z.gtb_spec (timestamp params) (now + 60000)); [by eexists|].
  lia.
Qed.

(** C7. [generateMerchantProof] fails when the listener address is not a
    well-formed address, when now - timestamp exceeds the expiry window and
    when the timestamp is more than 60 seconds ahead of now. For parameters
    that pass the guards tested before the age of the timestamp (a payment
    identifier, a well-formed address, a positive timestamp), the error is
    the stale-timestamp error whenever now - timestamp exceeds the window,
    in particular for timestamp = now - (expiry + 1) seconds, and the
    future-timestamp error whenever the timestamp is more than 60 seconds
    ahead of now; and for timestamp = now the call succeeds, with the
    signature of the hash of the payment identifier and the address. *)
Theorem proof_generation_validation params :
  (isAddress (listener_address params) = false →
     ∃ error, generateMerchantProof thr now params = Throw error
              ∧ (payment_id params ≠ "" →
                 error = new_Error "Valid listener_address is required"))
  ∧ (now - timestamp params > proofExpirySeconds thr * 1000 →
     ∃ error, generateMerchantProof thr now params = Throw error)
  ∧ (timestamp params > now + 60000 →
     ∃ error, generateMerchantProof thr now params = Throw error)
  ∧ (payment_id params ≠ "" → listener_address params ≠ "" →
     isAddress (listener_address params) = true →
     (0 < timestamp params →
      now - timestamp params > proofExpirySeconds thr * 1000 →
      ∃ error, generateMerchantProof thr now params = Throw error
               ∧ is_stale_error error = true
               ∧ err_message error
                 = Some ("Timestamp too old: "
                           +:+ pretty ((now - timestamp params) / 1000)
                           +:+ "s (max: " +:+ pretty (proofExpirySeconds thr)
                           +:+ "s)"))
     ∧ (0 < timestamp params →
        timestamp params = now - (proofExpirySeconds thr + 1) * 1000 →
        ∃ error, generateMerchantProof thr now params = Throw error
                 ∧ is_stale_error error = true)
     ∧ (0 ≤ now → 0 ≤ proofExpirySeconds thr →
        timestamp params > now + 60000 →
        ∃ error, generateMerchantProof thr now params = Throw error
                 ∧ is_future_error error = true)
     ∧ (0 < now → 0 ≤ proofExpirySeconds thr →
        timestamp params = now →
        ∀ message signature,
          solidityPackedKeccak256 (payment_id params) (listener_address params)
          = Ok message →
          signMessage message = Ok signature →
          generateMerchantProof thr now params
          = Ok {| proof_message := message; proof_signature := signature;
                  proof_timestamp := now; proof_method := "simple" |})).
Proof.
  split.
  { intros Hbad. unfold generateMerchantProof, validateProofParams.
    rewrite Hbad, orb_true_r.
    destruct (String.eqb_spec (payment_id params) "") as [Hid|Hid];
      eexists; (split; [reflexivity|]); [by intros ?|done]. }
  split.
  { intros Hold. unfold generateMerchantProof.
    destruct (validateProofParams_rejects params (or_introl Hold)) as [error ->].
    by eexists. }
  split.
  { intros Hahead. unfold generateMerchantProof.
    destruct (validateProofParams_rejects params (or_intror Hahead)) as [error ->].
    by eexists. }
  intros Hid Haddr Hwf.
  assert (∀ Hts : 0 < timestamp params,
            generateMerchantProof thr now params
            = match validateProofParams thr now params with
              | Throw error => Throw error
              | Ok _ =>
                  match solidityPackedKeccak256 (payment_id params)
                          (listener_address params) with
                  | Throw error => Throw error
                  | Ok message =>
                      match signMessage message with
                      | Throw error => Throw error
                      | Ok signature =>
                          Ok {| proof_message := message;
                                proof_signature := signature;
                                proof_timestamp := timestamp params;
                                proof_method := "simple" |}
                      end
                  end
              end) as Hgen by done.
  repeat split.
  - intros Hts Hold. rewrite (Hgen Hts), validateProofParams_guards by done.
    destruct (Z.gtb_spec (now - timestamp params) (proofExpirySeconds thr * 1000));
      [|lia].
    eexists. split; [reflexivity|]. by split.
  - intros Hts Heq. rewrite (Hgen Hts), validateProofParams_guards by done.
    destruct (Z.gtb_spec (now - timestamp params) (proofExpirySeconds thr * 1000));
      [|lia].
    eexists. split; [reflexivity|]. done.
  - intros Hnow Hexp Hahead.
    assert (0 < timestamp params) as Hts by lia.
    rewrite (Hgen Hts), validateProofParams_guards by done.
    destruct (Z.gtb_spec (now - timestamp params) (proofExpirySeconds thr * 1000));
      [lia|].
    destruct (Z.gtb_spec (timestamp params) (now + 60000)); [|lia].
    eexists. split; [reflexivity|]. done.
  - intros Hnow Hexp Heq message signature Hhash Hsign.
    assert (0 < timestamp params) as Hts by lia.
    rewrite (Hgen Hts), validateProofParams_guards by done.
    destruct (Z.gtb_spec (now - timestamp params) (proofExpirySeconds thr * 1000));
      [lia|].
    destruct (Z.gtb_spec (timestamp params) (now + 60000)); [lia|].
    by rewrite Hhash, Hsign, Heq.
Qed.

End ProofProperties.

(** C7 on a timestamp one second past the default window of 3600 seconds,
    and on timestamp = now. *)
Lemma proof_generation_validation_witness :
  let params ts :=
    {| ProofGenerator.payment_id := Sample.payment;
       ProofGenerator.listener_address := Sample.listener_addr;
       ProofGenerator.timestamp := ts;
       ProofGenerator.webhook_received := true;
       ProofGenerator.order_id := None;
       ProofGenerator.amount := Some "1.5" |} in
  (∃ error,
     @ProofGenerator.generateMerchantProof Sample.ethers default_thresholds
       1700000600000 (params (1700000600000 - 3601 * 1000)) = Throw error
     ∧ ProofGenerator.is_stale_error error = true)
  ∧ is_Ok (@ProofGenerator.generateMerchantProof Sample.ethers default_thresholds
             1700000600000 (params 1700000600000)) = true.
Proof.
  intros params. split.
  - destruct (@proof_generation_validation Sample.ethers default_thresholds
                1700000600000 (params (1700000600000 - 3601 * 1000)))
      as (_ & _ & _ & Hguarded).
    destruct Hguarded as (_ & Hstale & _); [vm_compute; congruence..|].
    apply Hstale; reflexivity.
  - destruct (@proof_generation_validation Sample.ethers default_thresholds
                1700000600000 (params 1700000600000))
      as (_ & _ & _ & Hguarded).
    destruct Hguarded as (_ & _ & _ & Hnow); [vm_compute; congruence..|].
    erewrite Hnow; [reflexivity|reflexivity|vm_compute; congruence|reflexivity
                   |reflexivity|reflexivity].
Defined.

(** ** The confirmation monitor *)
Section MonitorProperties.

Import ConfirmationMonitor.

Variable required : Z.
Implicit Types (reg : Registry) (orderId : string) (intervalId : nat).





Lemma stop_removes orderId reg :
  monitoringJobs (stopConfirmationMonitoring orderId reg) !! orderId = None.
Proof.
  unfold stopConfirmationMonitoring.
  destruct (monitoringJobs reg !! orderId) eqn:Hjob; [|done].
  simpl. apply lookup_delete_eq.
Qed.

Lemma consistent_empty : consistent empty_registry.
Proof.
  repeat split; simpl.
  - intros ??; by rewrite lookup_empty.
  - intros ??; by rewrite lookup_empty.
  - intros ? [? Hlive]. by rewrite lookup_empty in Hlive.
Qed.

Lemma consistent_start orderId txHash chain io reg :
  consistent reg →
  consistent (startConfirmationMonitoring orderId txHash chain io reg).
Proof.
  intros (Hjobs & Htimers & Hfresh). unfold startConfirmationMonitoring.
  case_bool_decide as Hpresent; [done|].
  assert (monitoringJobs reg !! orderId = None) as Hnone.
  { destruct (monitoringJobs reg !! orderId) eqn:E; [|done].
    exfalso. apply Hpresent. eauto. }
  assert (timers reg !! next_timer reg = None) as Hnext.
  { destruct (timers reg !! next_timer reg) eqn:E; [|done].
    assert (next_timer reg < next_timer reg)%nat by (apply Hfresh; eauto). lia. }
  repeat split; simpl.
  - intros k i. rewrite lookup_insert_Some. intros [[<- <-]|[Hne Hk]].
    + rewrite lookup_insert_eq. eauto.
    + destruct (Hjobs _ _ Hk) as (job & Hlive & Hid).
      exists job. split; [|done].
      rewrite lookup_insert_ne; [done|]. intros <-. congruence.
  - intros i job. rewrite lookup_insert_Some. intros [[<- <-]|[Hne Hi]].
    + simpl. by rewrite lookup_insert_eq.
    + apply Htimers in Hi. rewrite lookup_insert_ne; [done|].
      intros Heq. congruence.
  - intros i [job Hi]. apply lookup_insert_Some in Hi as [[<- _]|[_ Hi]]; [lia|].
    assert (i < next_timer reg)%nat by (apply Hfresh; eauto). lia.
Qed.

Lemma consistent_stop orderId reg :
  consistent reg → consistent (stopConfirmationMonitoring orderId reg).
Proof.
  intros (Hjobs & Htimers & Hfresh). unfold stopConfirmationMonitoring.
  destruct (monitoringJobs reg !! orderId) as [tid|] eqn:Hjob; [|done].
  destruct (Hjobs _ _ Hjob) as (job0 & Hlive0 & Hid0).
  repeat split; simpl.
  - intros k i. rewrite lookup_delete_Some. intros [Hne Hk].
    destruct (Hjobs _ _ Hk) as (job & Hlive & Hid).
    exists job. split; [|done].
    rewrite lookup_delete_ne; [done|]. intros <-. congruence.
  - intros i job. rewrite lookup_delete_Some. intros [Hne Hi].
    pose proof (Htimers _ _ Hi) as Hreg.
    rewrite lookup_delete_ne; [done|]. intros Heq. congruence.
  - intros i [job Hi]. apply lookup_delete_Some in Hi as [_ Hi].
    apply Hfresh. eauto.
Qed.

(** A run of the callback leaves the registry as it is or stops the job of
    its own order. *)
Lemma poll_registry pw intervalId reg :
  (poll required pw intervalId reg).1 = reg
  ∨ ∃ job, timers reg !! intervalId = Some job
           ∧ (poll required pw intervalId reg).1
             = stopConfirmationMonitoring (job_orderId job) reg.
Proof.
  unfold poll. destruct (timers reg !! intervalId) as [job|]; [|by left].
  destruct (getTransactionConfirmations pw); [|by left].
  destruct (update_confirmations pw); [|by left].
  destruct (_ >=? _); [|by left].
  destruct (update_confirmed pw); [|by left].
  right. by exists job.
Qed.

(** The callbacks in flight are no part of the registry of the jobs. *)
Lemma stop_with_callbacks orderId cbs reg :
  stopConfirmationMonitoring orderId (with_callbacks cbs reg)
  = with_callbacks cbs (stopConfirmationMonitoring orderId reg).
Proof.
  unfold stopConfirmationMonitoring, with_callbacks. simpl.
  by destruct (monitoringJobs reg !! orderId).
Qed.

Lemma begin_registry intervalId reg :
  ∃ cbs, begin intervalId reg = with_callbacks cbs reg.
Proof.
  unfold begin. destruct (timers reg !! intervalId); [by eexists|].
  exists (callbacks reg). by destruct reg.
Qed.

(** A step of a callback in flight leaves the jobs and the intervals as
    they are or, at its end, stops the job of its own order. *)
Lemma resume_registry pw callbackId reg :
  ∃ cbs,
    (resume required pw callbackId reg).1 = with_callbacks cbs reg
    ∨ ∃ cb, callbacks reg !! callbackId = Some cb
            ∧ (resume required pw callbackId reg).1
              = with_callbacks cbs
                  (stopConfirmationMonitoring (job_orderId (cb_job cb)) reg).
Proof.
  unfold resume.
  destruct (callbacks reg !! callbackId) as [cb|] eqn:Hcb.
  2: { exists (callbacks reg). left. by destruct reg. }
  destruct (cb_stage cb) as [|c|c now|c order].
  - destruct (getTransactionConfirmations pw); eexists; by left.
  - destruct (update_confirmations pw); [|eexists; by left].
    destruct (_ >=? _); eexists; by left.
  - destruct (update_confirmed pw); eexists; by left.
  - eexists. right. exists cb. split; [done|]. simpl.
    by rewrite stop_with_callbacks.
Qed.

Lemma consistent_with_callbacks cbs reg :
  consistent reg → consistent (with_callbacks cbs reg).
Proof. done. Qed.

Lemma consistent_step op s :
  consistent s.1 → consistent (step required op s).1.
Proof.
  intros Hs.
  destruct op as [orderId txHash chain io|orderId|intervalId pw|intervalId
                 |callbackId pw]; simpl.
  - by apply consistent_start.
  - by apply consistent_stop.
  - destruct (poll_registry pw intervalId s.1) as [Heq|(job & _ & Heq)];
      destruct (poll required pw intervalId s.1) as [reg effs]; simpl in *;
      subst reg; [done|by apply consistent_stop].
  - destruct (begin_registry intervalId s.1) as [cbs ->].
    by apply consistent_with_callbacks.
  - destruct (resume_registry pw callbackId s.1) as (cbs & [Heq|(cb & _ & Heq)]);
      destruct (resume required pw callbackId s.1) as [reg effs]; simpl in *;
      subst reg; apply consistent_with_callbacks; [done|by apply consistent_stop].
Qed.

Lemma consistent_run ops s :
  consistent s.1 → consistent (run required ops s).1.
Proof.
  revert s. induction ops as [|op ops IH]; intros s Hs; [done|].
  simpl. apply IH. by apply consistent_step.
Qed.



Lemma jobs_of_elem orderId intervalId reg :
  consistent reg →
  intervalId ∈ jobs_of orderId reg →
  monitoringJobs reg !! orderId = Some intervalId.
Proof.
  intros (_ & Htimers & _). unfold jobs_of. rewrite list_elem_of_fmap.
  intros [[i job] [-> Hin]]. apply elem_of_map_to_list in Hin.
  apply map_lookup_filter_Some in Hin as [Hlive Hid]. simpl in *.
  rewrite <- Hid. by apply Htimers.
Qed.

(** At most one live interval monitors an order. *)
Lemma jobs_of_at_most_one orderId reg :
  consistent reg → (length (jobs_of orderId reg) ≤ 1)%nat.
Proof.
  intros Hreg.
  assert (NoDup (jobs_of orderId reg)) as Hnodup
    by apply NoDup_fst_map_to_list.
  pose proof (fun i => jobs_of_elem orderId i reg Hreg) as Helem.
  destruct (jobs_of orderId reg) as [|a [|b rest]]; simpl; [lia|lia|].
  assert (monitoringJobs reg !! orderId = Some a) by (apply Helem; set_solver).
  assert (monitoringJobs reg !! orderId = Some b) by (apply Helem; set_solver).
  assert (a = b) as -> by congruence.
  apply NoDup_cons in Hnodup as [Hnotin _]. set_solver.
Qed.

Lemma jobs_of_unregistered orderId reg :
  consistent reg → monitoringJobs reg !! orderId = None →
  jobs_of orderId reg = [].
Proof.
  intros Hreg Hnone.
  pose proof (fun i => jobs_of_elem orderId i reg Hreg) as Helem.
  destruct (jobs_of orderId reg) as [|a rest]; [done|].
  assert (monitoringJobs reg !! orderId = Some a) by (apply Helem; set_solver).
  congruence.
Qed.

End MonitorProperties.

Section MonitorClaim.

Import ConfirmationMonitor.

Variable required : Z.


Lemma poll_cleared pw intervalId reg :
  timers reg !! intervalId = None →
  poll required pw intervalId reg = (reg, []).
Proof. intros Hdead. unfold poll. by rewrite Hdead. Qed.




End MonitorClaim.

(** The scenario of the specification: two starts for one order, then polls
    that read 11, 11 and 12 confirmations against a threshold of 12, then a
    late firing of the same interval. *)
Lemma monitor_scenario :
  let starts :=
    [ConfirmationMonitor.Start "order-1" Sample.tx "11155111" true;
     ConfirmationMonitor.Start "order-1" Sample.tx "11155111" true] in
  let fire n := ConfirmationMonitor.Fire 0
                  (ConfirmationMonitor.answers n 1700000700000 Sample.order_row) in
  let started := ConfirmationMonitor.run 12 starts
                   (ConfirmationMonitor.empty_registry, []) in
  let second := ConfirmationMonitor.run 12 [fire 11; fire 11] started in
  let third := ConfirmationMonitor.run 12 [fire 12] second in
  let late := ConfirmationMonitor.run 12 [fire 13] third in
  ConfirmationMonitor.getActiveMonitoringJobs started.1 = ["order-1"]
  ∧ ConfirmationMonitor.jobs_of "order-1" started.1 = [0%nat]
  ∧ ConfirmationMonitor.times_confirmed "order-1" second.2 = 0%nat
  ∧ ConfirmationMonitor.getActiveMonitoringJobs second.1 = ["order-1"]
  ∧ ConfirmationMonitor.times_confirmed "order-1" third.2 = 1%nat
  ∧ ConfirmationMonitor.getActiveMonitoringJobs third.1 = []
  ∧ late = third.
Proof. vm_compute. repeat split. Qed.


(** ** The webhook handler *)
Section HandlerProperties.

Import WebhookController.

Context `{Ethers}.
Implicit Types (w : World) (req : Request) (data : WebhookData) (st : State).

Lemma isWebhookProcessed_true paymentId (m : gmap string DuplicateTracker.Entry) entry :
  m !! paymentId = Some entry →
  DuplicateTracker.isWebhookProcessed paymentId m = true.
Proof.
  intros Hm. unfold DuplicateTracker.isWebhookProcessed.
  apply bool_decide_eq_true_2. eauto.
Qed.

Lemma isWebhookProcessed_false paymentId (m : gmap string DuplicateTracker.Entry) :
  DuplicateTracker.isWebhookProcessed paymentId m = false ↔ m !! paymentId = None.
Proof.
  unfold DuplicateTracker.isWebhookProcessed.
  rewrite bool_decide_eq_false, <- eq_None_not_Some. done.
Qed.

Lemma handleWebhook_parsed w req data st :
  body req = Parsed data →
  handleWebhook w req st = process_claim w req data st.
Proof.
  intros Hbody. unfold handleWebhook, handleWebhook_try, process_claim.
  by rewrite Hbody.
Qed.

(** The answer from step 5 on, case by case. *)
Lemma check_payment_eq w req data st :
  check_payment w req data st
  = match BlockchainVerification.verifyPaymentOnChain (env w) (getPayment w)
            (now_payment w) (payment_id data) (merchant data) (customer data)
            (amount data) with
    | Throw error => internal_error st error
    | Ok paymentVerification =>
        if negb (BlockchainVerification.isValid paymentVerification) then
          (st, {| status := 400;
                  json := JObj [("error", JStr "Invalid payment");
                                ("message",
                                 match BlockchainVerification.reason
                                         paymentVerification with
                                 | Some r => JStr r
                                 | None => JUndefined
                                 end)] |})
        else process_verified w req data st
    end.
Proof.
  unfold check_payment, check_payment_try.
  destruct (BlockchainVerification.verifyPaymentOnChain _ _ _ _ _ _ _)
    as [paymentVerification|]; [|done].
  by destruct (negb _).
Qed.

(** The answer to a claim that passed the schema, case by case. *)
Lemma process_claim_eq w req data st :
  process_claim w req data st
  = if DuplicateTracker.isWebhookProcessed (payment_id data) (processedWebhooks st)
    then
      (st, already_processed_response
             (DuplicateTracker.getProcessingListener (payment_id data)
                (processedWebhooks st)))
    else if truthy (x_webhook_signature req) && truthy (x_node_address req)
            && negb (ListenerVerification.verifyListenerSignature
                       (signed_fields data) (or_else (x_webhook_signature req) "")
                       (or_else (x_node_address req) "")) then
      (st, {| status := 401;
              json := JObj [("error", JStr "Invalid signature");
                            ("message",
                             JStr "Webhook signature verification failed")] |})
    else if truthy (x_node_address req)
            && negb (ListenerVerification.isValid
                       (ListenerVerification.verifyListenerRegistered (env w)
                          (thresholds w) (getListener w)
                          (or_else (x_node_address req) ""))) then
      (st, {| status := 403;
              json := JObj [("error", JStr "Unauthorized listener");
                            ("message",
                             JStr (or_else
                                     (ListenerVerification.reason
                                        (ListenerVerification.verifyListenerRegistered
                                           (env w) (thresholds w) (getListener w)
                                           (or_else (x_node_address req) "")))
                                     "Listener not registered or not authorized"))] |})
    else check_payment w req data st.
Proof.
  unfold process_claim, process_claim_try, check_payment.
  destruct (DuplicateTracker.isWebhookProcessed _ _); [done|].
  destruct (truthy (x_webhook_signature req) && truthy (x_node_address req)
            && negb _); [done|].
  destruct (truthy (x_node_address req)); [|done]. simpl.
  by destruct (negb _).
Qed.

Lemma process_claim_duplicate w req data st entry :
  processedWebhooks st !! payment_id data = Some entry →
  process_claim w req data st = (st, already_processed_response (Some entry)).
Proof.
  intros Hdup. rewrite process_claim_eq.
  rewrite (isWebhookProcessed_true _ _ _ Hdup).
  unfold DuplicateTracker.getProcessingListener. by rewrite Hdup.
Qed.

(** A claim that is new and passes the checks reaches step 6. *)
Lemma process_claim_verified w req data st :
  processedWebhooks st !! payment_id data = None →
  passes_checks w req data = true →
  process_claim w req data st = process_verified w req data st.
Proof.
  intros Hnew Hpass. rewrite process_claim_eq, check_payment_eq.
  apply isWebhookProcessed_false in Hnew. rewrite Hnew.
  unfold passes_checks in Hpass.
  apply andb_true_iff in Hpass as [Hpass Hpay].
  apply andb_true_iff in Hpass as [Hsig Hreg].
  apply negb_true_iff in Hsig. rewrite Hsig.
  destruct (BlockchainVerification.verifyPaymentOnChain _ _ _ _ _ _ _)
    as [paymentVerification|]; [|done].
  simpl in Hpay. rewrite Hpay.
  destruct (truthy (x_node_address req)); [by rewrite Hreg|done].
Qed.

(** Steps 6 and after write the tracker in [mark_processed] only. *)
Lemma process_order_tracker w data txVerification st :
  processedWebhooks (process_order w data txVerification st).2
  = processedWebhooks st.
Proof.
  unfold process_order.
  destruct (order_findFirst w _ _) as [[found|]|]; [|done|done].
  destruct (order_update w _ _) as [order|]; [|done].
  destruct (sendPaymentReceivedEmail w), (emitPaymentReceived w _),
    (is_pending_or_completed _), (getIO w); done.
Qed.

Lemma log_webhook_tracker w req data st :
  processedWebhooks (log_webhook w req data st) = processedWebhooks st.
Proof. unfold log_webhook. by destruct (webhookLog_create w). Qed.

Lemma make_proof_tracker w req data order st :
  processedWebhooks (make_proof w req data order st).2 = processedWebhooks st.
Proof.
  unfold make_proof. destruct (truthy _); [|done].
  by destruct (ProofGenerator.generateMerchantProof _ _ _).
Qed.

Lemma emit_to_widget_tracker w data txVerification st :
  processedWebhooks (emit_to_widget w data txVerification st)
  = processedWebhooks st.
Proof.
  unfold emit_to_widget.
  destruct (emitPaymentReceived w (payment_id data)); [|done].
  by destruct (emitPaymentReceived w (transaction_hash data)).
Qed.

(** What steps 6 to 9 return and leave in the tracker. *)
Lemma process_verified_outcome w req data st :
  ∃ order merchantProof,
    (process_verified w req data st).2
    = success_response w req data order merchantProof
    ∧ (truthy (x_node_address req) = false → merchantProof = None)
    ∧ ((∀ order', is_Ok (ProofGenerator.generateMerchantProof (thresholds w)
                           (now_validate w) (proof_params w req data order'))
                  = false) →
       merchantProof = None)
    ∧ processedWebhooks (process_verified w req data st).1
      = if truthy (x_node_address req) then
          DuplicateTracker.markWebhookProcessed (now_mark w) (payment_id data)
            (or_else (x_node_address req) "") (signature_or_empty merchantProof)
            (processedWebhooks st)
        else processedWebhooks st.
Proof.
  unfold process_verified.
  set (txVerification := BlockchainVerification.verifyTransactionReceipt _ _ _ _).
  pose proof (process_order_tracker w data txVerification st) as Horder.
  destruct (process_order w data txVerification st) as [order st1].
  pose proof (log_webhook_tracker w req data st1) as Hlog.
  pose proof (make_proof_tracker w req data order (log_webhook w req data st1))
    as Hproof.
  assert (truthy (x_node_address req) = false →
          (make_proof w req data order (log_webhook w req data st1)).1 = None)
    as Hnone.
  { intros Hno. unfold make_proof. by rewrite Hno. }
  assert ((∀ order', is_Ok (ProofGenerator.generateMerchantProof (thresholds w)
                              (now_validate w) (proof_params w req data order'))
                     = false) →
          (make_proof w req data order (log_webhook w req data st1)).1 = None)
    as Hthrows.
  { intros Hgen. unfold make_proof. destruct (truthy _); [|done].
    specialize (Hgen order).
    by destruct (ProofGenerator.generateMerchantProof _ _ _). }
  destruct (make_proof w req data order (log_webhook w req data st1))
    as [merchantProof st2].
  exists order, merchantProof. simpl in *.
  split; [done|]. split; [done|]. split; [done|].
  rewrite emit_to_widget_tracker. unfold mark_processed.
  destruct (truthy (x_node_address req)); simpl; congruence.
Qed.


(** The sweep keeps the entries that are at most 24 hours old. *)
Lemma cleanup_lookup now (m : gmap string DuplicateTracker.Entry) paymentId entry :
  DuplicateTracker.cleanup now m !! paymentId = Some entry
  ↔ m !! paymentId = Some entry
    ∧ now - DuplicateTracker.timestamp entry ≤ DuplicateTracker.maxAge.
Proof.
  unfold DuplicateTracker.cleanup. rewrite map_lookup_filter_Some. simpl.
  split; intros [Hm Hage]; (split; [done|lia]).
Qed.

Lemma cleanup_evicts now (m : gmap string DuplicateTracker.Entry) paymentId entry :
  m !! paymentId = Some entry →
  now - DuplicateTracker.timestamp entry > DuplicateTracker.maxAge →
  DuplicateTracker.cleanup now m !! paymentId = None.
Proof.
  intros Hm Hold.
  destruct (DuplicateTracker.cleanup now m !! paymentId) as [e|] eqn:Hswept;
    [|done].
  apply cleanup_lookup in Hswept as [Hm' Hage].
  assert (e = entry) as -> by congruence. lia.
Qed.



End HandlerProperties.

Section HandlerEffects.

Import WebhookController.

Context `{Ethers}.
Implicit Types (w : World) (req : Request) (data : WebhookData) (st : State).

Lemma proofs_signed_app (a b : list Effect) :
  proofs_signed (a ++ b) = (proofs_signed a + proofs_signed b)%nat.
Proof. unfold proofs_signed. by rewrite List.filter_app, length_app. Qed.

Lemma proofs_signed_add effs st :
  proofs_signed (effects (add_effects effs st))
  = (proofs_signed (effects st) + proofs_signed effs)%nat.
Proof. apply proofs_signed_app. Qed.

Lemma process_order_signed w data txVerification st :
  proofs_signed (effects (process_order w data txVerification st).2)
  = proofs_signed (effects st).
Proof.
  unfold process_order.
  destruct (order_findFirst w _ _) as [[found|]|]; [|done|done].
  destruct (order_update w _ _) as [order|]; [|done].
  destruct (sendPaymentReceivedEmail w), (emitPaymentReceived w _),
    (is_pending_or_completed _), (getIO w); simpl;
    rewrite ?proofs_signed_app; unfold proofs_signed; simpl; lia.
Qed.

Lemma log_webhook_signed w req data st :
  proofs_signed (effects (log_webhook w req data st)) = proofs_signed (effects st).
Proof.
  unfold log_webhook. destruct (webhookLog_create w); [|done].
  rewrite proofs_signed_add. unfold proofs_signed. simpl. lia.
Qed.

Lemma emit_to_widget_signed w data txVerification st :
  proofs_signed (effects (emit_to_widget w data txVerification st))
  = proofs_signed (effects st).
Proof.
  unfold emit_to_widget.
  destruct (emitPaymentReceived w (payment_id data)); [|done].
  destruct (emitPaymentReceived w (transaction_hash data));
    rewrite ?proofs_signed_add; unfold proofs_signed; simpl; lia.
Qed.


Lemma process_claim_unaddressed w req data st :
  truthy (x_node_address req) = false →
  processedWebhooks st !! payment_id data = None →
  process_claim w req data st = check_payment w req data st.
Proof.
  intros Hno Hnew. rewrite process_claim_eq.
  apply isWebhookProcessed_false in Hnew. rewrite Hnew, Hno.
  by rewrite andb_false_r.
Qed.

(** The [catch] of the handler. *)
Lemma internal_error_response w req st error :
  body req = ParseThrows error →
  handleWebhook w req st
  = (st, {| status := 500;
            json := JObj [("error", JStr "Internal server error");
                          ("message", JStr (error_message_or_unknown error))] |}).
Proof. intros Hbody. unfold handleWebhook, handleWebhook_try. by rewrite Hbody. Qed.

(** C6. A claim whose payment is marked in the duplicate tracker gets the
    answer 'already_processed', with no proof and with the listener that
    was recorded first; the handler leaves the state as it was (tracker,
    monitor, collaborators) and signs nothing. *)
Theorem duplicate_claim_short_circuit w req data st entry :
  body req = Parsed data →
  processedWebhooks st !! payment_id data = Some entry →
  let out := handleWebhook w req st in
  out.1 = st
  ∧ status out.2 = 200
  ∧ jget "status" (json out.2) = Some (JStr "already_processed")
  ∧ jget "proof" (json out.2) = Some JNull
  ∧ jget "processed_by" (json out.2)
    = Some (JStr (DuplicateTracker.listener entry))
  ∧ jget "processed_at" (json out.2)
    = Some (JNum (DuplicateTracker.timestamp entry))
  ∧ proofs_signed (effects out.1) = proofs_signed (effects st).
Proof.
  intros Hbody Hdup out. subst out.
  rewrite (handleWebhook_parsed _ _ _ _ Hbody),
    (process_claim_duplicate _ _ _ _ _ Hdup).
  repeat split.
Qed.

(** C9. A claim that passes the checks and comes without a listener
    address gets the answer 'success' with no proof, and the duplicate
    tracker is left as it was: the same claim sent again is not answered
    'already_processed', it goes through the payment check and, when it
    passes, through steps 6 to 9 again. *)
Theorem unaddressed_claim_is_not_marked w req data st :
  body req = Parsed data →
  truthy (x_node_address req) = false →
  processedWebhooks st !! payment_id data = None →
  passes_checks w req data = true →
  let out := handleWebhook w req st in
  status out.2 = 200
  ∧ jget "status" (json out.2) = Some (JStr "success")
  ∧ jget "proof" (json out.2) = Some JNull
  ∧ processedWebhooks out.1 = processedWebhooks st
  ∧ ∀ w',
      let again := handleWebhook w' req out.1 in
      again = check_payment w' req data out.1
      ∧ jget "status" (json again.2) ≠ Some (JStr "already_processed")
      ∧ (passes_checks w' req data = true →
         again = process_verified w' req data out.1
         ∧ jget "status" (json again.2) = Some (JStr "success")
         ∧ processedWebhooks again.1 = processedWebhooks st).
Proof.
  intros Hbody Hno Hnew Hpass out. subst out.
  rewrite (handleWebhook_parsed _ _ _ _ Hbody),
    (process_claim_verified _ _ _ _ Hnew Hpass).
  destruct (process_verified_outcome w req data st)
    as (order & merchantProof & Hresp & Hnone & _ & Htracker).
  rewrite Hno in Htracker. specialize (Hnone Hno). subst merchantProof.
  rewrite Hresp.
  split; [done|]. split; [done|]. split; [done|]. split; [done|].
  intros w' again. subst again.
  assert (processedWebhooks (process_verified w req data st).1
            !! payment_id data = None) as Hstill by by rewrite Htracker.
  rewrite (handleWebhook_parsed _ _ _ _ Hbody),
    (process_claim_unaddressed _ _ _ _ Hno Hstill).
  split; [done|].
  destruct (process_verified_outcome w' req data (process_verified w req data st).1)
    as (order' & merchantProof' & Hresp' & Hnone' & _ & Htracker').
  rewrite Hno in Htracker'. specialize (Hnone' Hno). subst merchantProof'.
  split.
  - rewrite check_payment_eq.
    destruct (BlockchainVerification.verifyPaymentOnChain _ _ _ _ _ _ _);
      [|done].
    destruct (negb _); [done|]. by rewrite Hresp'.
  - intros Hpass'.
    rewrite <- (process_claim_unaddressed _ _ _ _ Hno Hstill),
      (process_claim_verified _ _ _ _ Hstill Hpass').
    rewrite Hresp'. split; [done|]. split; [done|]. congruence.
Qed.


End HandlerEffects.

(** C6 on a replay of the sample claim after it was processed. *)
Lemma duplicate_claim_short_circuit_witness :
  let out := @WebhookController.handleWebhook Sample.ethers Sample.world
               (Sample.request (Some Sample.listener_addr) Sample.claim)
               Sample.marked in
  out.1 = Sample.marked
  ∧ WebhookController.jget "status" (WebhookController.json out.2)
    = Some (WebhookController.JStr "already_processed")
  ∧ WebhookController.jget "proof" (WebhookController.json out.2)
    = Some WebhookController.JNull.
Proof.
  intros out.
  destruct (@duplicate_claim_short_circuit Sample.ethers Sample.world
              (Sample.request (Some Sample.listener_addr) Sample.claim)
              Sample.claim Sample.marked Sample.first_entry eq_refl
              (lookup_singleton_eq _ _))
    as (Hstate & _ & Hstatus & Hproof & _).
  by repeat split.
Defined.

(** C8. An error thrown inside the handler and caught by its [catch] comes
    back as a 500 response, and the body of this response carries the message
    of the error: here the address of the database the process could not
    reach. *)
Theorem internal_error_exposes_message :
  let out := @WebhookController.handleWebhook Sample.ethers Sample.world
               Sample.failing_request Sample.initial in
  out.1 = Sample.initial
  ∧ WebhookController.status out.2 = 500
  ∧ WebhookController.jget "error" (WebhookController.json out.2)
    = Some (WebhookController.JStr "Internal server error")
  ∧ WebhookController.jget "message" (WebhookController.json out.2)
    = Some (WebhookController.JStr "connect ECONNREFUSED 10.0.0.5:5432")
  ∧ err_message Sample.internal_failure
    = Some "connect ECONNREFUSED 10.0.0.5:5432".
Proof.
  intros out. subst out.
  rewrite (@internal_error_response Sample.ethers Sample.world
             Sample.failing_request Sample.initial Sample.internal_failure eq_refl).
  repeat split.
Qed.

(** C9 on the sample claim sent without a listener address. *)
Lemma unaddressed_claim_is_not_marked_witness :
  let out := @WebhookController.handleWebhook Sample.ethers Sample.world
               (Sample.request None Sample.claim) Sample.initial in
  WebhookController.jget "status" (WebhookController.json out.2)
  = Some (WebhookController.JStr "success")
  ∧ WebhookController.jget "proof" (WebhookController.json out.2)
    = Some WebhookController.JNull
  ∧ WebhookController.processedWebhooks out.1 = ∅.
Proof.
  intros out.
  destruct (@unaddressed_claim_is_not_marked Sample.ethers Sample.world
              (Sample.request None Sample.claim) Sample.claim Sample.initial
              eq_refl eq_refl (lookup_empty _)
              ltac:(vm_compute; reflexivity))
    as (_ & Hstatus & Hproof & Htracker & _).
  by repeat split.
Defined.



(** The first two scenarios of the specification on the sample claim: it is
    answered 'success' with a proof and marked; sent again, it is answered
    'already_processed' and nothing more is signed. *)
Lemma scenario_first_then_replay :
  let request := Sample.request (Some Sample.listener_addr) Sample.claim in
  let first := @WebhookController.handleWebhook Sample.ethers Sample.world
                 request Sample.initial in
  let replay := @WebhookController.handleWebhook Sample.ethers Sample.world
                  request first.1 in
  WebhookController.jget "status" (WebhookController.json first.2)
  = Some (WebhookController.JStr "success")
  ∧ WebhookController.proofs_signed (WebhookController.effects first.1) = 1%nat
  ∧ DuplicateTracker.isWebhookProcessed Sample.payment
      (WebhookController.processedWebhooks first.1) = true
  ∧ WebhookController.jget "status" (WebhookController.json replay.2)
    = Some (WebhookController.JStr "already_processed")
  ∧ WebhookController.jget "proof" (WebhookController.json replay.2)
    = Some WebhookController.JNull
  ∧ WebhookController.proofs_signed (WebhookController.effects replay.1) = 1%nat.
Proof. vm_compute. repeat split. Qed.

(** * Further properties *)

(** ** The retrying client, for any number of attempts *)
Section RetryRuns.

Import Retry RetrySchedule.

Context {T : Type}.
Implicit Types (fn : nat -> Result T).

Lemma schedule_step a n :
  schedule a (S (S n)) = Call a :: Sleep (delay_after a) :: schedule (S a) (S n).
Proof. done. Qed.

Lemma delay_after_bounds a : (1 ≤ a)%nat → 1000 ≤ delay_after a ≤ 5000.
Proof.
  intros Ha. unfold delay_after, baseDelay.
  assert (1 ≤ 2 ^ (Z.of_nat a - 1)) by (apply Z.pow_le_mono_r with (b := 0); lia).
  lia.
Qed.

Lemma total_delay_schedule a n :
  (1 ≤ a)%nat → 0 ≤ total_delay (schedule a n) ≤ 5000 * (Z.of_nat n - 1) `max` 0.
Proof.
  revert a. induction n as [|n IH]; intros a Ha; [simpl; lia|].
  destruct n as [|n]; [simpl; lia|].
  rewrite schedule_step. cbn [total_delay].
  specialize (IH (S a) ltac:(lia)).
  pose proof (delay_after_bounds a Ha). lia.
Qed.

(** The loop, when [remaining] is the number of attempts left. *)
Lemma retry_loop_shape fn m r a e :
  (a + r = m + 1)%nat →
  ∃ n, (n ≤ r)%nat
       ∧ (retry_loop fn m r a e).2 = schedule a n
       ∧ (r = 0%nat → (retry_loop fn m r a e).1 = Throw e)
       ∧ ((0 < r)%nat →
          (0 < n)%nat
          ∧ (retry_loop fn m r a e).1 = fn (a + n - 1)%nat
          ∧ (∀ k, (a ≤ k < a + n - 1)%nat →
               ∃ error, fn k = Throw error ∧ isTimeout error = true)
          ∧ ((n < r)%nat →
             ∀ error, fn (a + n - 1)%nat = Throw error → isTimeout error = false)).
Proof.
  revert a e. induction r as [|r IH]; intros a e Hinv.
  { exists 0%nat. simpl. repeat split; try done; lia. }
  simpl. destruct (fn a) as [v|error] eqn:Hfn.
  { exists 1%nat. simpl. split; [lia|]. split; [done|]. split; [done|].
    intros _. replace (a + 1 - 1)%nat with a by lia.
    split; [lia|]. split; [done|]. split; [intros k; lia|].
    intros _ err. congruence. }
  destruct (Nat.ltb_spec a m) as [Hlt|Hge]; simpl.
  - destruct (isTimeout error) eqn:Htransient.
    + destruct (IH (S a) error ltac:(lia))
        as (n & Hn & Htrace & _ & Hrun).
      destruct Hrun as (Hpos & Hres & Hbefore & Hlast); [lia|].
      destruct (retry_loop fn m r (S a) error) as [res tr]. simpl in *.
      exists (S n). split; [lia|].
      split. { destruct n as [|n]; [lia|]. by rewrite schedule_step, Htrace. }
      split; [done|]. intros _. split; [lia|].
      replace (a + S n - 1)%nat with (S a + n - 1)%nat by lia.
      split; [done|]. split.
      * intros k Hk. destruct (decide (k = a)) as [->|Hne]; [eauto|].
        apply Hbefore. lia.
      * intros Hshort. apply Hlast. lia.
    + exists 1%nat. simpl. split; [lia|]. split; [done|]. split; [done|].
      intros _. replace (a + 1 - 1)%nat with a by lia.
      split; [lia|]. split; [done|]. split; [intros k; lia|].
      intros _ err. congruence.
  - exists 1%nat. simpl. split; [lia|]. split; [done|]. split; [done|].
    intros _. replace (a + 1 - 1)%nat with a by lia.
    split; [lia|]. split; [done|]. split; [intros k; lia|].
    intros Hmore. lia.
Qed.

(** X1. A run of the retrying client with [maxRetries] attempts allowed
    makes attempts 1 to n for some n <= maxRetries, pausing after each but
    the last; every attempt before the last failed with a transient error;
    the run returns what its last attempt returned (its value or its error);
    when it stops before the budget is spent on an error, that error is not
    transient; it sleeps at most 5 seconds per pause. With maxRetries = 0 the
    call is never made and [undefined] is thrown. *)
Theorem retry_run_shape fn (maxRetries : nat) :
  let run := retryWithBackoff fn maxRetries in
  ∃ n, (n ≤ maxRetries)%nat
       ∧ run.2 = schedule 1 n
       ∧ attempts run.2 = seq 1 n
       ∧ 0 ≤ total_delay run.2 ≤ 5000 * (Z.of_nat n - 1) `max` 0
       ∧ (maxRetries = 0%nat → n = 0%nat ∧ run.1 = Throw thrown_undefined)
       ∧ ((0 < maxRetries)%nat →
          (0 < n)%nat
          ∧ run.1 = fn n
          ∧ (∀ k, (1 ≤ k < n)%nat →
               ∃ error, fn k = Throw error ∧ isTimeout error = true)
          ∧ ((n < maxRetries)%nat →
             ∀ error, fn n = Throw error → isTimeout error = false)).
Proof.
  intros run. subst run. unfold retryWithBackoff.
  destruct (retry_loop_shape fn maxRetries maxRetries 1 thrown_undefined
              ltac:(lia)) as (n & Hn & Htrace & Hzero & Hrun).
  exists n. split; [done|]. split; [done|].
  split.
  { rewrite Htrace. clear. generalize 1%nat as a.
    induction n as [|n IH]; intros a; [done|].
    destruct n as [|n]; [done|].
    rewrite schedule_step. simpl. f_equal. apply IH. }
  split; [rewrite Htrace; by apply total_delay_schedule|].
  split.
  { intros ->. split; [lia|]. by apply Hzero. }
  intros Hpos. destruct (Hrun Hpos) as (Hn' & Hres & Hbefore & Hlast).
  replace (1 + n - 1)%nat with n in * by lia.
  split; [done|]. split; [done|]. split; [|done].
  intros k Hk. apply Hbefore. lia.
Qed.

End RetryRuns.

(** ** Which errors the client retries *)
Section Classification.

Import Retry.

Lemma append_nil_l (s : string) : "" +:+ s = s.
Proof. reflexivity. Qed.

Lemma append_cons (c : Ascii.ascii) (s t : string) :
  String c s +:+ t = String c (s +:+ t).
Proof. reflexivity. Qed.

Lemma prefix_app (p s : string) :
  String.prefix p s = true ↔ ∃ post, s = p +:+ post.
Proof.
  revert s. induction p as [|c p IH]; intros [|c' s]; simpl;
    rewrite ?append_nil_l.
  - split; [intros _; by exists ""|done].
  - split; [intros _; by exists (String c' s)|done].
  - split; [done|intros [post [=]]].
  - destruct (Ascii.ascii_dec c c') as [->|Hne].
    + rewrite IH. split; intros [post Hpost]; exists post.
      * by rewrite append_cons, Hpost.
      * rewrite append_cons in Hpost. congruence.
    + split; [done|]. intros [post Hpost]. rewrite append_cons in Hpost.
      congruence.
Qed.

Lemma includes_nil (needle : string) :
  includes needle "" = String.prefix needle "" || false.
Proof. reflexivity. Qed.

Lemma includes_cons (needle : string) (c : Ascii.ascii) (hay : string) :
  includes needle (String c hay)
  = String.prefix needle (String c hay) || includes needle hay.
Proof. reflexivity. Qed.

(** [includes] finds a substring. *)
Lemma includes_spec (needle hay : string) :
  includes needle hay = true ↔ ∃ pre post, hay = pre +:+ needle +:+ post.
Proof.
  induction hay as [|c hay IH].
  - rewrite includes_nil, orb_false_r, prefix_app. split.
    + intros [post Hpost]. by exists "", post.
    + intros (pre & post & Hhay). destruct pre as [|? ?];
        [|by rewrite append_cons in Hhay].
      rewrite append_nil_l in Hhay. by exists post.
  - rewrite includes_cons, orb_true_iff, prefix_app, IH. split.
    + intros [[post Hpost]|(pre & post & Hhay)].
      * by exists "", post.
      * exists (String c pre), post. by rewrite append_cons, Hhay.
    + intros (pre & post & Hhay). destruct pre as [|c' pre].
      * left. rewrite append_nil_l in Hhay. by exists post.
      * right. rewrite append_cons in Hhay. injection Hhay as _ Hhay.
        by exists pre, post.
Qed.

Lemma code_is_iff (error : JsError) (c : string) :
  code_is error c = true ↔ err_code error = Some c.
Proof.
  unfold code_is. destruct (err_code error) as [c'|]; [|done].
  rewrite String.eqb_eq. split; congruence.
Qed.

Lemma message_includes_iff (error : JsError) (s : string) :
  message_includes error s = true
  ↔ ∃ message pre post,
      err_message error = Some message ∧ message = pre +:+ s +:+ post.
Proof.
  unfold message_includes. destruct (err_message error) as [m|].
  - rewrite includes_spec. split.
    + intros (pre & post & ->). by exists (pre +:+ s +:+ post), pre, post.
    + intros (m' & pre & post & [= <-] & ->). by exists pre, post.
  - split; [done|]. by intros (? & ? & ? & ? & _).
Qed.

(** X2. The client classifies an error as transient exactly when its code
    is TIMEOUT, ETIMEDOUT or NETWORK_ERROR, or its message contains
    'timeout' or 'network' (in lower case) somewhere. *)
Theorem isTimeout_spec (error : JsError) :
  isTimeout error = true
  ↔ err_code error = Some "TIMEOUT"
    ∨ err_code error = Some "ETIMEDOUT"
    ∨ err_code error = Some "NETWORK_ERROR"
    ∨ ∃ message pre post,
        err_message error = Some message
        ∧ (message = pre +:+ "timeout" +:+ post
           ∨ message = pre +:+ "network" +:+ post).
Proof.
  unfold isTimeout.
  rewrite !orb_true_iff, !code_is_iff, !message_includes_iff. split.
  - intros [[[[Hc|Hc]|Hc]|(m & pre & post & Hm & Hsub)]|(m & pre & post & Hm & Hsub)].
    + by left.
    + by right; left.
    + by right; right; left.
    + right; right; right. exists m, pre, post. split; [done|by left].
    + right; right; right. exists m, pre, post. split; [done|by right].
  - intros [Hc|[Hc|[Hc|(m & pre & post & Hm & [Hsub|Hsub])]]].
    + by left; left; left; left.
    + by left; left; left; right.
    + by left; left; right.
    + left; right. by exists m, pre, post.
    + right. by exists m, pre, post.
Qed.

End Classification.

(** ** The listener signature check *)
Section SignatureProperties.

Import ListenerVerification.

Context `{Ethers}.



Lemma toLowerCase_empty s : toLowerCase s = "" ↔ s = "".
Proof. by destruct s. Qed.




End SignatureProperties.

(** The canonical message of a claim whose payment identifier holds a line
    feed and whose timestamp is 10^21: the line feed is written as an escape
    and the timestamp in exponent notation. *)
Lemma canonical_message_example :
  let payload :=
    {| ListenerVerification.sf_type := "payment.completed";
       ListenerVerification.sf_payment_id :=
         "pay" +:+ String (Ascii.ascii_of_nat 10) "ment";
       ListenerVerification.sf_merchant := Sample.merchant_addr;
       ListenerVerification.sf_amount := "1.5";
       ListenerVerification.sf_timestamp := JsNumber.of_Z (10 ^ 21);
       ListenerVerification.sf_chain_id := JsNumber.of_Z 11155111 |} in
  includes "pay\nment" (ListenerVerification.canonical_message payload) = true
  ∧ includes ":1e+21," (ListenerVerification.canonical_message payload) = true
  ∧ includes ":11155111}" (ListenerVerification.canonical_message payload) = true.
Proof. by vm_compute. Qed.

(** ** The registry check when the configured minimum stake cannot be read *)
Section RegistryConfiguration.

Import ListenerVerification.

Context `{Ethers}.

(** X4. When the registry answers with a listener that is active and not
    slashed but the configured minimum stake is not an amount [parseEther]
    reads, the check takes the path of a failed query: in strict mode it
    rejects the listener with the reason 'Blockchain query failed after 3
    retries', and in degraded mode it accepts the listener, flagged as
    degraded, whatever its stake and reputation are. *)
Theorem registry_check_unreadable_minimum (env : gmap string string)
    (thr : Thresholds) (getListener : string -> nat -> Result ListenerTuple)
    (listenerAddress : string) (snapshot : ListenerTuple) (error : JsError) :
  (Retry.retryWithBackoff (getListener listenerAddress) 3).1 = Ok snapshot →
  active snapshot = true →
  slashed snapshot = false →
  parseEther (minListenerStake thr) = Throw error →
  let check := verifyListenerRegistered env thr getListener listenerAddress in
  (env !! "ALLOW_DURING_RPC_FAILURE" ≠ Some "true" →
     isValid check = false
     ∧ reason check = Some ("Blockchain query failed after 3 retries: "
                              +:+ error_message_or_unknown error))
  ∧ (env !! "ALLOW_DURING_RPC_FAILURE" = Some "true" →
     isValid check = true
     ∧ degraded <$> listenerInfo check = Some (Some true)).
Proof.
  intros Hq Hactive Hslashed Hparse check. subst check.
  rewrite (verifyListenerRegistered_snapshot _ _ _ _ _ Hq).
  unfold check_snapshot. rewrite Hactive, Hslashed, Hparse. simpl.
  unfold on_query_error.
  destruct (env_is_true env "ALLOW_DURING_RPC_FAILURE") eqn:Hmode.
  - apply env_is_true_iff in Hmode. split; [done|]. by intros _.
  - split; [done|]. intros Hon. apply env_is_true_iff in Hon. congruence.
Qed.

End RegistryConfiguration.

(** X4 on a listener without any stake, with MIN_LISTENER_STAKE set to
    'abc' and degraded mode enabled. *)
Lemma registry_check_unreadable_minimum_witness :
  let thr := {| minListenerStake := "abc"; minListenerReputation := 30;
                minConfirmations := 3; proofExpirySeconds := 3600 |} in
  let unstaked :=
    {| ListenerVerification.nodeAddress := Sample.listener_addr;
       ListenerVerification.stake := 0;
       ListenerVerification.registeredAt := 1700000000;
       ListenerVerification.totalDelivered := 0;
       ListenerVerification.successfulDeliveries := 0;
       ListenerVerification.failedDeliveries := 0;
       ListenerVerification.totalEarned := 0;
       ListenerVerification.reputation := 0;
       ListenerVerification.active := true;
       ListenerVerification.slashed := false;
       ListenerVerification.lastActivityTime := 0 |} in
  ListenerVerification.isValid
    (@ListenerVerification.verifyListenerRegistered Sample.ethers
       Sample.degraded_env thr (fun _ _ => Ok unstaked) Sample.listener_addr)
  = true.
Proof.
  intros thr unstaked.
  apply (@registry_check_unreadable_minimum Sample.ethers Sample.degraded_env thr
           (fun _ _ => Ok unstaked) Sample.listener_addr unstaked
           (new_Error "invalid FixedNumber string value")
           eq_refl eq_refl eq_refl eq_refl).
  reflexivity.
Defined.

(** ** The receipt check *)
Section ReceiptProperties.

Import BlockchainVerification.

Variable thr : Thresholds.
Variable getTransactionReceipt : string -> Result (option Receipt).
Variable getBlockNumber : Result Z.
Variable txHash : string.

(** X5. The receipt check accepts exactly when the node returns a receipt
    with status 1, the node returns the current height, and the height minus
    the block of the receipt is at least the configured minimum; it then
    reports that difference as the number of confirmations. A refusal always
    carries a reason, and a refusal for too few confirmations still carries
    the count and the block. A failure of the node is a refusal, never a
    throw. *)
Theorem receipt_check_spec :
  let check := verifyTransactionReceipt thr getTransactionReceipt getBlockNumber
                 txHash in
  (tx_isValid check = true
   ↔ ∃ receipt currentBlock,
       getTransactionReceipt txHash = Ok (Some receipt)
       ∧ receipt_status receipt = 1
       ∧ getBlockNumber = Ok currentBlock
       ∧ minConfirmations thr ≤ currentBlock - receipt_blockNumber receipt)
  ∧ (tx_isValid check = true ↔ tx_reason check = None)
  ∧ (∀ c, confirmations check = Some c →
       ∃ receipt currentBlock,
         getTransactionReceipt txHash = Ok (Some receipt)
         ∧ receipt_status receipt = 1
         ∧ getBlockNumber = Ok currentBlock
         ∧ c = currentBlock - receipt_blockNumber receipt
         ∧ blockNumber check = Some (receipt_blockNumber receipt))
  ∧ (∀ receipt currentBlock,
       getTransactionReceipt txHash = Ok (Some receipt) →
       receipt_status receipt = 1 →
       getBlockNumber = Ok currentBlock →
       confirmations check = Some (currentBlock - receipt_blockNumber receipt)).
Proof.
  intros check. subst check. unfold verifyTransactionReceipt.
  destruct (getTransactionReceipt txHash) as [[receipt|]|error]; simpl.
  2,3: repeat split; try done; try (by intros (? & ? & ? & _)).
  destruct (Z.eqb_spec (receipt_status receipt) 1) as [Hstatus|Hstatus]; simpl.
  2: { repeat split; try done.
       - intros (r & c & [= <-] & ? & _). done.
       - intros r c [= <-] ?. done. }
  destruct getBlockNumber as [currentBlock|error]; simpl.
  2: { repeat split; try done; by intros (? & ? & ? & ? & ? & _). }
  destruct (Z.ltb_spec (currentBlock - receipt_blockNumber receipt)
              (minConfirmations thr)) as [Hfew|Henough]; simpl.
  - repeat split; try done.
    + intros (r & c & [= <-] & _ & [= <-] & ?). lia.
    + intros c [= <-]. eauto 10.
    + by intros r c [= <-] _ [= <-].
  - repeat split; try done.
    + intros _. eauto 10.
    + intros c [= <-]. eauto 10.
    + by intros r c [= <-] _ [= <-].
Qed.

End ReceiptProperties.

(** ** The duplicate tracker *)
Section TrackerProperties.

Import DuplicateTracker.

Implicit Types (m : gmap string Entry) (paymentId : string).

(** X6. A payment is reported as processed exactly when the tracker has an
    entry for it, and an empty tracker reports none. After a mark the payment
    is reported as processed and its entry holds the listener, the time and
    the signature of the mark; the other payments are untouched. A second
    mark for the same payment replaces the first. *)
Theorem tracker_mark_lookup m paymentId :
  (isWebhookProcessed paymentId m = true
   ↔ is_Some (getProcessingListener paymentId m))
  ∧ isWebhookProcessed paymentId ∅ = false
  ∧ (∀ now listenerAddress signature,
       let marked := markWebhookProcessed now paymentId listenerAddress signature m in
       isWebhookProcessed paymentId marked = true
       ∧ getProcessingListener paymentId marked
         = Some {| listener := listenerAddress; timestamp := now;
                   signature := signature |}
       ∧ (∀ other, other ≠ paymentId →
            getProcessingListener other marked = getProcessingListener other m
            ∧ isWebhookProcessed other marked = isWebhookProcessed other m)
       ∧ (∀ now' listenerAddress' signature',
            markWebhookProcessed now' paymentId listenerAddress' signature' marked
            = markWebhookProcessed now' paymentId listenerAddress' signature' m)).
Proof.
  split.
  { unfold isWebhookProcessed, getProcessingListener.
    by rewrite bool_decide_eq_true. }
  split.
  { unfold isWebhookProcessed. apply bool_decide_eq_false.
    rewrite lookup_empty. by intros [? ?]. }
  intros now listenerAddress signature marked. subst marked.
  unfold isWebhookProcessed, getProcessingListener, markWebhookProcessed.
  split.
  { apply bool_decide_eq_true. rewrite lookup_insert_eq. eauto. }
  split; [apply lookup_insert_eq|].
  split.
  - intros other Hother. by rewrite lookup_insert_ne.
  - intros now' listenerAddress' signature'. apply insert_insert_eq.
Qed.

Lemma cleanup_keeps now m paymentId :
  cleanup now m !! paymentId
  = match m !! paymentId with
    | Some entry => if now - timestamp entry >? maxAge then None else Some entry
    | None => None
    end.
Proof.
  destruct (m !! paymentId) as [entry|] eqn:Hm.
  - destruct (Z.gtb_spec (now - timestamp entry) maxAge) as [Hold|Hyoung].
    + apply (cleanup_evicts _ _ _ entry); [done|lia].
    + apply cleanup_lookup. split; [done|lia].
  - destruct (cleanup now m !! paymentId) as [entry|] eqn:Hswept; [|done].
    apply cleanup_lookup in Hswept as [Hm' _]. congruence.
Qed.

(** X7. A sweep keeps exactly the entries that are at most 24 hours old at
    the time of the sweep: an entry that is exactly 24 hours old stays, one a
    millisecond older goes. A sweep adds nothing, a second sweep at the same
    time changes nothing, and a sweep followed by a later sweep leaves what
    the later sweep alone leaves. *)
Theorem sweep_retention now m :
  (∀ paymentId,
     isWebhookProcessed paymentId (cleanup now m) = true
     ↔ ∃ entry, m !! paymentId = Some entry
                ∧ now - timestamp entry ≤ 24 * 60 * 60 * 1000)
  ∧ (∀ paymentId entry,
       m !! paymentId = Some entry →
       (now = timestamp entry + 86400000 →
        cleanup now m !! paymentId = Some entry)
       ∧ (now = timestamp entry + 86400001 →
          cleanup now m !! paymentId = None))
  ∧ cleanup now m ⊆ m
  ∧ cleanup now (cleanup now m) = cleanup now m
  ∧ (∀ later, now ≤ later → cleanup later (cleanup now m) = cleanup later m).
Proof.
  split.
  { intros paymentId. unfold isWebhookProcessed. rewrite bool_decide_eq_true.
    split.
    - intros [entry Hentry]. apply cleanup_lookup in Hentry as [Hm Hage].
      exists entry. split; [done|]. unfold maxAge in Hage. lia.
    - intros (entry & Hm & Hage). exists entry. apply cleanup_lookup.
      split; [done|]. unfold maxAge. lia. }
  split.
  { intros paymentId entry Hm. split; intros ->.
    - apply cleanup_lookup. split; [done|]. unfold maxAge. lia.
    - apply (cleanup_evicts _ _ _ entry); [done|]. unfold maxAge. lia. }
  split; [apply map_filter_subseteq|].
  assert (∀ later, now ≤ later → cleanup later (cleanup now m) = cleanup later m)
    as Hlater.
  { intros later Hle. apply map_eq. intros paymentId.
    rewrite !cleanup_keeps.
    destruct (m !! paymentId) as [entry|]; [|done].
    destruct (Z.gtb_spec (now - timestamp entry) maxAge),
      (Z.gtb_spec (later - timestamp entry) maxAge); try done; lia. }
  split; [by apply Hlater|done].
Qed.

End TrackerProperties.

(** ** The statistics of the tracker *)
Section StatsProperties.

Import DuplicateTracker TrackerStats.

Lemma oldest_of_from (acc : option Z) (values : list Entry) :
  let step := fun oldestTimestamp data =>
                match oldestTimestamp with
                | None => Some (timestamp data)
                | Some t => if timestamp data <? t then Some (timestamp data)
                            else Some t
                end in
  match foldl step acc values with
  | None => acc = None ∧ values = []
  | Some t =>
      (acc = Some t ∨ ∃ e, e ∈ values ∧ timestamp e = t)
      ∧ (∀ t0, acc = Some t0 → t ≤ t0)
      ∧ (∀ e, e ∈ values → t ≤ timestamp e)
  end.
Proof.
  intros step. revert acc. induction values as [|e values IH]; intros acc; simpl.
  { destruct acc as [t|]; [|done]. split; [by left|].
    split; [by intros ? [= <-]|]. intros e He. by apply elem_of_nil in He. }
  specialize (IH (step acc e)).
  destruct (foldl step (step acc e) values) as [t|].
  - destruct IH as (Hfrom & Hacc & Hall).
    assert (t ≤ timestamp e ∧ ∀ t0, acc = Some t0 → t ≤ t0) as [Hte Hta].
    { destruct acc as [t0|]; simpl in Hacc.
      - destruct (Z.ltb_spec (timestamp e) t0).
        + specialize (Hacc _ eq_refl). split; [lia|]. intros ? [= <-]. lia.
        + specialize (Hacc _ eq_refl). split; [lia|]. intros ? [= <-]. lia.
      - specialize (Hacc _ eq_refl). split; [lia|]. done. }
    split.
    + destruct Hfrom as [Hfrom|(e' & He' & Ht)].
      * destruct acc as [t0|]; simpl in Hfrom.
        -- destruct (Z.ltb_spec (timestamp e) t0).
           ++ right. exists e. split; [by left|congruence].
           ++ by left.
        -- right. exists e. split; [by left|congruence].
      * right. exists e'. split; [by right|done].
    + split; [done|]. intros e' He'. apply elem_of_cons in He' as [->|He']; auto.
  - destruct IH as [Hstep _]. subst step.
    destruct acc as [t0|]; simpl in Hstep; [destruct (_ <? _)|]; discriminate.
Qed.

(** X8. The statistics count the entries of the tracker and give the time
    of its oldest entry: none when the tracker is empty, otherwise the time
    of an entry that no other entry precedes. The order in which the map
    yields its values does not matter. *)
Theorem tracker_stats_spec (m : gmap string Entry) :
  let stats := getStats m in
  totalProcessed stats = size m
  ∧ (oldestEntry stats = None ↔ m = ∅)
  ∧ (∀ t, oldestEntry stats = Some t →
       (∃ paymentId entry, m !! paymentId = Some entry ∧ timestamp entry = t)
       ∧ ∀ paymentId entry, m !! paymentId = Some entry → t ≤ timestamp entry)
  ∧ (∀ values, values ≡ₚ (map_to_list m).*2 →
       oldest_of values = oldestEntry stats).
Proof.
  intros stats. subst stats. unfold getStats. simpl.
  assert (∀ e, e ∈ (map_to_list m).*2 ↔ ∃ paymentId, m !! paymentId = Some e)
    as Hvalues.
  { intros e. rewrite list_elem_of_fmap. split.
    - intros [[k v] [-> Hin]]. apply elem_of_map_to_list in Hin. eauto.
    - intros [k Hk]. exists (k, e). split; [done|]. by apply elem_of_map_to_list. }
  assert (∀ values t, oldest_of values = Some t →
            (∃ e, e ∈ values ∧ timestamp e = t)
            ∧ ∀ e, e ∈ values → t ≤ timestamp e) as Hmin.
  { intros values t Hold. pose proof (oldest_of_from None values) as Hspec.
    simpl in Hspec. unfold oldest_of in Hold. rewrite Hold in Hspec.
    destruct Hspec as ([?|?] & _ & ?); done. }
  assert (∀ values, oldest_of values = None ↔ values = []) as Hnone.
  { intros values. pose proof (oldest_of_from None values) as Hspec.
    simpl in Hspec. unfold oldest_of. split.
    - intros Hold. rewrite Hold in Hspec. by destruct Hspec.
    - intros ->. done. }
  split; [done|]. split.
  { rewrite Hnone. split.
    - intros Hnil. apply fmap_nil_inv in Hnil. by apply map_to_list_empty_iff.
    - intros ->. by rewrite map_to_list_empty. }
  split.
  { intros t Hold. destruct (Hmin _ _ Hold) as [(e & He & Ht) Hall].
    split.
    - apply Hvalues in He as [k Hk]. eauto.
    - intros k e' Hk. apply Hall, Hvalues. eauto. }
  intros values Hperm.
  destruct (oldest_of values) as [t|] eqn:Hleft,
    (oldest_of (map_to_list m).*2) as [t'|] eqn:Hright; try done.
  - destruct (Hmin _ _ Hleft) as [(e & He & Ht) Hall].
    destruct (Hmin _ _ Hright) as [(e' & He' & Ht') Hall'].
    assert (e' ∈ values) as Hin' by (by rewrite Hperm).
    assert (e ∈ (map_to_list m).*2) as Hin by (by rewrite <- Hperm).
    specialize (Hall _ Hin'). specialize (Hall' _ Hin).
    f_equal. lia.
  - apply Hnone in Hright. rewrite Hright in Hperm.
    apply Permutation_nil_r in Hperm. subst values. done.
  - apply Hnone in Hleft. subst values. symmetry in Hperm.
    apply Permutation_nil_r in Hperm. apply Hnone in Hperm. congruence.
Qed.

End StatsProperties.

(** ** The event verifier *)
Section EventProperties.

Import EventVerification.

Context `{Ethers}.
Variable env : gmap string string.
Variable getBlockNumber : Result Z.
Variable queryFilter : string -> string -> Z -> Z -> Result (list QueriedEvent).
Variable now : Z.
Variables paymentId merchant customer amount : string.

(** X9. The event verifier accepts exactly when the node returns its
    height, the query for the events of the payment and the merchant over the
    last 10000 blocks (from block 0 at the earliest) returns a decoded event
    first, the merchant of this event is the claimed one up to the case of
    its letters, the receipt of the event can be fetched, and the number of
    confirmations is not below the configured minimum. It then reports the
    confirmations and, as total amount, the sum of the three amounts of the
    event. The claimed customer and amount play no part. A refusal always
    carries a reason. *)
Theorem event_check_spec :
  let check := verifyPaymentEvent env getBlockNumber queryFilter now paymentId
                 merchant customer amount in
  (isValid check = true
   ↔ ∃ currentBlock eventArgs blockNumber receipt rest,
       getBlockNumber = Ok currentBlock
       ∧ queryFilter paymentId merchant (Z.max 0 (currentBlock - 10000)) currentBlock
         = Ok (EventLog eventArgs blockNumber (Ok receipt) :: rest)
       ∧ ListenerVerification.toLowerCase (EventVerification.merchant eventArgs)
         = ListenerVerification.toLowerCase merchant
       ∧ JsBuiltins.lt_number (currentBlock - receipt_blockNumber receipt)
           (minConfirmations env) = false)
  ∧ (∀ currentBlock eventArgs blockNumber receipt rest,
       getBlockNumber = Ok currentBlock →
       queryFilter paymentId merchant (Z.max 0 (currentBlock - 10000)) currentBlock
       = Ok (EventLog eventArgs blockNumber (Ok receipt) :: rest) →
       isValid check = true →
       ∃ data, eventData check = Some data
               ∧ confirmations data = currentBlock - receipt_blockNumber receipt
               ∧ totalAmount data
                 = formatEther (merchantAmount eventArgs + platformFee eventArgs
                                + listenerFee eventArgs))
  ∧ (isValid check = true ↔ reason check = None)
  ∧ (∀ customer' amount',
       verifyPaymentEvent env getBlockNumber queryFilter now paymentId merchant
         customer' amount' = check).
Proof.
  intros check. subst check. unfold verifyPaymentEvent, fromBlock.
  destruct getBlockNumber as [currentBlock|error]; simpl.
  2: { repeat split; try done; by intros (? & ? & ? & ? & ? & ? & _). }
  destruct (queryFilter paymentId merchant (0 `max` (currentBlock - 10000))
              currentBlock) as [[|[eventArgs blockNumber receiptResult|?] rest]|error]
    eqn:Hquery; simpl.
  1,3,4: repeat split; try done;
    try (by intros (? & ? & ? & ? & ? & [= <-] & Hq & _); rewrite Hquery in Hq);
    try (by intros ? ? ? ? ? [= <-] Hq; rewrite Hquery in Hq).
  destruct (String.eqb_spec
              (ListenerVerification.toLowerCase (EventVerification.merchant eventArgs))
              (ListenerVerification.toLowerCase merchant)) as [Hmerchant|Hmerchant];
    simpl.
  2: { repeat split; try done.
       intros (? & ? & ? & ? & ? & [= <-] & Hq & Hm & _).
       rewrite Hquery in Hq. injection Hq as <- _ _ _. done. }
  destruct receiptResult as [receipt|error]; simpl.
  2: { repeat split; try done.
       intros (? & ? & ? & ? & ? & [= <-] & Hq & _).
       rewrite Hquery in Hq. by injection Hq. }
  destruct (JsBuiltins.lt_number (currentBlock - receipt_blockNumber receipt)
              (minConfirmations env)) eqn:Hfew; simpl.
  - repeat split; try done.
    intros (? & ? & ? & ? & ? & [= <-] & Hq & _ & Hmin).
    rewrite Hquery in Hq. injection Hq as <- _ <- _. congruence.
  - repeat split; try done.
    + intros _. eauto 10.
    + intros ? ? ? ? ? [= <-] Hq _. rewrite Hquery in Hq.
      injection Hq as <- _ <- _. eauto.
Qed.

(** X10. The window of the query starts at block 0 or 10000 blocks before
    the current height, whichever is later, and never spans more than 10000
    blocks. The minimum of confirmations is 3 when MIN_CONFIRMATIONS is unset
    or empty; when it is set to text that does not start with a number there
    is no minimum: no count of confirmations is refused. *)
Theorem event_check_configuration :
  (∀ currentBlock,
     0 ≤ fromBlock currentBlock
     ∧ currentBlock - fromBlock currentBlock ≤ 10000
     ∧ (0 ≤ currentBlock → fromBlock currentBlock ≤ currentBlock))
  ∧ (env !! "MIN_CONFIRMATIONS" = None ∨ env !! "MIN_CONFIRMATIONS" = Some "" →
     minConfirmations env = Some 3)
  ∧ (∀ value, env !! "MIN_CONFIRMATIONS" = Some value →
       JsBuiltins.parseInt value = None → value ≠ "" →
       ∀ confirmations,
         JsBuiltins.lt_number confirmations (minConfirmations env) = false).
Proof.
  split.
  { intros currentBlock. unfold fromBlock. lia. }
  split.
  { unfold minConfirmations. by intros [-> | ->]. }
  intros value Hset Hnan Hvalue confirmations. unfold minConfirmations.
  rewrite Hset. simpl. apply String.eqb_neq in Hvalue. by rewrite Hvalue, Hnan.
Qed.

End EventProperties.

(** X10 with MIN_CONFIRMATIONS set to 'three'. *)
Lemma event_check_configuration_witness :
  JsBuiltins.lt_number (-5)
    (EventVerification.minConfirmations {[ "MIN_CONFIRMATIONS" := "three" ]})
  = false.
Proof.
  apply (proj2 (proj2 (event_check_configuration
                         {[ "MIN_CONFIRMATIONS" := "three" ]}))
           "three" (lookup_singleton_eq _ _) eq_refl).
  discriminate.
Defined.

(** ** The two checks of the confirmations of a transaction *)
Section ConfirmationChecks.

Variable getTransactionReceipt : string -> Result (option BlockchainVerification.Receipt).
Variable getBlockNumber : Result Z.
Variable transactionHash : string.

(** X11. The confirmation check of the event verifier accepts exactly when
    the node returns a receipt and its height and the difference is at least
    the minimum; it gives a reason exactly when it refuses, and reports 0
    confirmations when the transaction is unknown or the node fails. It does
    not look at the status of the receipt: on a receipt with status 1 it
    agrees with the receipt check of the payment verifier, and on a reverted
    transaction with enough confirmations it accepts where that check
    refuses. *)
Theorem confirmation_check_spec (thr : Thresholds) :
  let check :=
    EventVerification.verifyTransactionConfirmations getTransactionReceipt
      getBlockNumber transactionHash (minConfirmations thr) in
  let receiptCheck :=
    BlockchainVerification.verifyTransactionReceipt thr getTransactionReceipt
      getBlockNumber transactionHash in
  (EventVerification.conf_isValid check = true
   ↔ ∃ receipt currentBlock,
       getTransactionReceipt transactionHash = Ok (Some receipt)
       ∧ getBlockNumber = Ok currentBlock
       ∧ minConfirmations thr
         ≤ currentBlock - BlockchainVerification.receipt_blockNumber receipt)
  ∧ (EventVerification.conf_isValid check = true
     ↔ EventVerification.conf_reason check = None)
  ∧ ((∀ receipt, getTransactionReceipt transactionHash ≠ Ok (Some receipt))
     ∨ is_Ok getBlockNumber = false →
     EventVerification.conf_isValid check = false
     ∧ EventVerification.conf_confirmations check = 0)
  ∧ (∀ receipt, getTransactionReceipt transactionHash = Ok (Some receipt) →
       (BlockchainVerification.receipt_status receipt = 1 →
        EventVerification.conf_isValid check
        = BlockchainVerification.tx_isValid receiptCheck)
       ∧ (BlockchainVerification.receipt_status receipt ≠ 1 →
          BlockchainVerification.tx_isValid receiptCheck = false)).
Proof.
  intros check receiptCheck. subst check receiptCheck.
  unfold EventVerification.verifyTransactionConfirmations,
    BlockchainVerification.verifyTransactionReceipt.
  destruct (getTransactionReceipt transactionHash) as [[receipt|]|error]; simpl.
  2,3: repeat split; try done; try (by intros (? & ? & ? & _)).
  destruct getBlockNumber as [currentBlock|error]; simpl.
  2: { split; [split; [done|by intros (? & ? & ? & ? & _)]|].
       split; [done|]. split; [done|].
       intros r [= <-]. split; intros Hstatus.
       - by rewrite (proj2 (Z.eqb_eq _ _) Hstatus).
       - by rewrite (proj2 (Z.eqb_neq _ _) Hstatus). }
  set (confs := currentBlock - BlockchainVerification.receipt_blockNumber receipt).
  split.
  { rewrite Z.geb_le. split.
    - intros Hle. eauto.
    - intros (r & c & [= <-] & [= <-] & Hle). done. }
  split.
  { destruct (Z.ltb_spec confs (minConfirmations thr)) as [Hlt|Hge].
    - split; [|done]. rewrite Z.geb_le. lia.
    - split; [done|]. intros _. apply Z.geb_le. lia. }
  split.
  { intros [Hnone|Hblock]; [|done]. by destruct (Hnone receipt). }
  intros r [= <-]. split; intros Hstatus.
  - rewrite (proj2 (Z.eqb_eq _ _) Hstatus). simpl. fold confs.
    destruct (Z.ltb_spec confs (minConfirmations thr)) as [Hlt|Hge]; simpl.
    + apply not_true_is_false. rewrite Z.geb_le. lia.
    + apply Z.geb_le. lia.
  - by rewrite (proj2 (Z.eqb_neq _ _) Hstatus).
Qed.

End ConfirmationChecks.

(** ** Providers and the blockchain service *)
Section ProviderProperties.

Import BlockchainService JsBuiltins.

Lemma pretty_N_char_digit (x : N) : is_digit_or_dash (pretty_N_char x) = true.
Proof. unfold pretty_N_char. by repeat case_match. Qed.

Lemma pretty_N_go_chars (x : N) (s : string) :
  all_chars is_digit_or_dash s = true →
  all_chars is_digit_or_dash (pretty_N_go x s) = true.
Proof.
  revert s. induction (N.lt_wf_0 x) as [x _ IH]; intros s Hs.
  assert (x = 0 ∨ 0 < x)%N as [->|Hpos] by lia.
  - by rewrite pretty_N_go_0.
  - rewrite pretty_N_go_step by done. apply IH.
    + by apply N.div_lt.
    + simpl. by rewrite pretty_N_char_digit, Hs.
Qed.

(** The decimal notation of an integer has digits and a dash only. *)
Lemma pretty_Z_chars (z : Z) : all_chars is_digit_or_dash (pretty z) = true.
Proof.
  assert (∀ p : positive, all_chars is_digit_or_dash (pretty p) = true) as Hpos.
  { intros p. unfold pretty, pretty_positive, pretty, pretty_N.
    case_decide; [done|]. by apply pretty_N_go_chars. }
  destruct z as [|p|p]; [done|apply Hpos|].
  change (pretty (Z.neg p)) with ("-" +:+ pretty p).
  rewrite append_cons, append_nil_l. simpl. apply Hpos.
Qed.

Lemma toLowerCase_digits (s : string) :
  all_chars is_digit_or_dash s = true → ListenerVerification.toLowerCase s = s.
Proof.
  induction s as [|c s IH]; simpl; [done|].
  intros [Hc Hs]%andb_true_iff. rewrite (IH Hs). f_equal.
  unfold ListenerVerification.lower_ascii, is_digit_or_dash in *.
  destruct (Nat.leb_spec 65 (Ascii.nat_of_ascii c)); [|done].
  destruct (Nat.eqb_spec (Ascii.nat_of_ascii c) 45); [lia|].
  destruct (Nat.leb_spec (Ascii.nat_of_ascii c) 57); [lia|].
  by rewrite andb_false_r in Hc.
Qed.

Lemma eqb_other_alphabet (p : Ascii.ascii -> bool) (s k : string) :
  all_chars p s = true → all_chars p k = false → String.eqb s k = false.
Proof.
  intros Hs Hk. apply String.eqb_neq. intros ->. congruence.
Qed.

Lemma lookup_provider_digits (s : string) :
  all_chars is_digit_or_dash s = true → lookup_provider s = None.
Proof.
  intros Hs. unfold lookup_provider.
  by rewrite !(eqb_other_alphabet is_digit_or_dash s) by done.
Qed.

(** The table of providers has no entry under the decimal notation of a
    number. *)
Lemma decimal_chain_unsupported (nodes : Nodes) (txHash : string) (chain_id : Z) :
  getProviderForChain (pretty chain_id)
  = Throw (new_Error ("Unsupported chain: " +:+ pretty chain_id))
  ∧ getTransactionConfirmations nodes txHash (pretty chain_id)
    = Throw (new_Error ("Unsupported chain: " +:+ pretty chain_id)).
Proof.
  assert (getProviderForChain (pretty chain_id)
          = Throw (new_Error ("Unsupported chain: " +:+ pretty chain_id))) as Hno.
  { unfold getProviderForChain.
    rewrite (toLowerCase_digits _ (pretty_Z_chars chain_id)).
    by rewrite (lookup_provider_digits _ (pretty_Z_chars chain_id)). }
  split; [done|]. unfold getTransactionConfirmations. by rewrite Hno.
Qed.

(** X12. A chain is supported exactly when its name, in lower case, is
    ethereum, polygon, arbitrum or base (or names a member the table inherits:
    constructor, __proto__). The decimal notation of a chain identifier is
    never such a name: asked for the confirmations of a transaction on chain
    '1' or '11155111', the service throws 'Unsupported chain'. On a supported
    chain it returns 0 for an unknown transaction and otherwise the height
    minus the block of the receipt. *)
Theorem chain_lookup (nodes : Nodes) (txHash : string) :
  (∀ chain, is_Ok (getProviderForChain chain) = true
            ↔ ListenerVerification.toLowerCase chain
              ∈ ["ethereum"; "polygon"; "arbitrum"; "base"; "constructor";
                 "__proto__"])
  ∧ (∀ chain_id : Z,
       getProviderForChain (pretty chain_id)
       = Throw (new_Error ("Unsupported chain: " +:+ pretty chain_id))
       ∧ getTransactionConfirmations nodes txHash (pretty chain_id)
         = Throw (new_Error ("Unsupported chain: " +:+ pretty chain_id)))
  ∧ (∀ chain c,
       lookup_provider (ListenerVerification.toLowerCase chain) = Some (Rpc c) →
       (getTransactionReceipt nodes c txHash = Ok None →
        getTransactionConfirmations nodes txHash chain = Ok 0)
       ∧ (∀ receipt currentBlock,
            getTransactionReceipt nodes c txHash = Ok (Some receipt) →
            getBlockNumber nodes c = Ok currentBlock →
            getTransactionConfirmations nodes txHash chain
            = Ok (currentBlock - blockNumber receipt))).
Proof.
  split.
  { intros chain. unfold getProviderForChain, lookup_provider.
    set (key := ListenerVerification.toLowerCase chain).
    rewrite !elem_of_cons, elem_of_nil.
    destruct (String.eqb_spec key "ethereum") as [->|?]; [intuition congruence|].
    destruct (String.eqb_spec key "polygon") as [->|?]; [intuition congruence|].
    destruct (String.eqb_spec key "arbitrum") as [->|?]; [intuition congruence|].
    destruct (String.eqb_spec key "base") as [->|?]; [intuition congruence|].
    destruct (String.eqb_spec key "constructor") as [->|?]; [intuition congruence|].
    destruct (String.eqb_spec key "__proto__") as [->|?]; [intuition congruence|].
    simpl. intuition congruence. }
  split.
  { intros chain_id. apply decimal_chain_unsupported. }
  intros chain c Hc. unfold getTransactionConfirmations, getProviderForChain.
  rewrite Hc. simpl. split.
  - by intros ->.
  - by intros receipt currentBlock -> ->.
Qed.

(** X13. The transaction check of the blockchain service answers true
    exactly when the chain is one of the table, the node returns a receipt
    with status 1 sent to the payment contract (addresses compared without
    regard to case), the first PaymentCompleted log of the receipt names the
    expected merchant, the expected amount is an integer, and the amount of
    the log is at least the expected one. Everything else, failures of the
    node included, is the answer false. *)
Theorem transaction_check_spec (nodes : Nodes) (contractAddress : option string)
    (BigInt : string -> Result Z)
    (txHash expectedAmount expectedMerchant chain : string) :
  verifyTransactionOnChain nodes contractAddress BigInt txHash expectedAmount
    expectedMerchant chain = true
  ↔ ∃ c receipt contract paymentEvent expected,
      lookup_provider (ListenerVerification.toLowerCase chain) = Some (Rpc c)
      ∧ getTransactionReceipt nodes c txHash = Ok (Some receipt)
      ∧ status receipt = Some 1
      ∧ contractAddress = Some contract
      ∧ ListenerVerification.toLowerCase <$> to receipt
        = Some (ListenerVerification.toLowerCase contract)
      ∧ List.find is_PaymentCompleted (logs receipt) = Some (Some paymentEvent)
      ∧ ListenerVerification.toLowerCase (args_merchant paymentEvent)
        = ListenerVerification.toLowerCase expectedMerchant
      ∧ BigInt expectedAmount = Ok expected
      ∧ expected ≤ args_amount paymentEvent.
Proof.
  unfold verifyTransactionOnChain, getProviderForChain.
  destruct (lookup_provider (ListenerVerification.toLowerCase chain))
    as [[c|member]|] eqn:Hchain; simpl.
  2,3: split; [done|]; by intros (? & ? & ? & ? & ? & ? & _).
  destruct (getTransactionReceipt nodes c txHash) as [[receipt|]|error] eqn:Hreceipt.
  2,3: split; [done|]; intros (? & ? & ? & ? & ? & [= <-] & ? & _); congruence.
  case_bool_decide as Hstatus; simpl.
  2: { split; [done|]. intros (? & ? & ? & ? & ? & [= <-] & ? & ? & _). congruence. }
  destruct contractAddress as [contract|].
  2: { split; [done|]. by intros (? & ? & ? & ? & ? & _ & _ & _ & ? & _). }
  case_bool_decide as Hto; simpl.
  2: { split; [done|].
       intros (? & ? & ? & ? & ? & [= <-] & ? & _ & [= <-] & ? & _). congruence. }
  destruct (List.find is_PaymentCompleted (logs receipt)) as [[paymentEvent|]|]
    eqn:Hfind.
  2,3: split; [done|];
    intros (? & ? & ? & ? & ? & [= <-] & ? & _ & _ & _ & ? & _); congruence.
  destruct (String.eqb_spec
              (ListenerVerification.toLowerCase (args_merchant paymentEvent))
              (ListenerVerification.toLowerCase expectedMerchant)) as [Hm|Hm].
  2: { split; [done|].
       intros (? & ? & ? & ? & ? & [= <-] & ? & _ & _ & _ & ? & ? & _). congruence. }
  destruct (BigInt expectedAmount) as [expected|error] eqn:Hamount.
  2: { split; [done|].
       by intros (? & ? & ? & ? & ? & _ & _ & _ & _ & _ & _ & _ & ? & _). }
  rewrite Z.geb_le. split.
  - intros Hle. exists c, receipt, contract, paymentEvent, expected. done.
  - intros (c' & r & k & ev & e & [= <-] & Hr & _ & _ & _ & Hf & _ & [= <-] & Hle).
    congruence.
Qed.

End ProviderProperties.

(** ** The handler and the confirmation monitor *)
Section HandlerMonitor.

Import WebhookController.

Context `{Ethers}.
Implicit Types (w : World) (req : Request) (data : WebhookData) (st : State).

Lemma process_order_monitor w data txVerification st :
  monitor (process_order w data txVerification st).2 = monitor st
  ∨ ∃ order io,
      monitor (process_order w data txVerification st).2
      = ConfirmationMonitor.startConfirmationMonitoring (orderId order)
          (transaction_hash data) (pretty (chain_id data)) io (monitor st).
Proof.
  unfold process_order.
  destruct (order_findFirst w _ _) as [[found|]|]; [|by left|by left].
  destruct (order_update w _ _) as [order|]; [|by left].
  destruct (is_pending_or_completed _), (getIO w) as [io|];
    destruct (sendPaymentReceivedEmail w), (emitPaymentReceived w _); simpl;
    first [by left | right; by exists order, io].
Qed.

Lemma process_verified_monitor w req data st :
  monitor (process_verified w req data st).1 = monitor st
  ∨ ∃ order io,
      monitor (process_verified w req data st).1
      = ConfirmationMonitor.startConfirmationMonitoring (orderId order)
          (transaction_hash data) (pretty (chain_id data)) io (monitor st).
Proof.
  unfold process_verified.
  set (txVerification := BlockchainVerification.verifyTransactionReceipt _ _ _ _).
  pose proof (process_order_monitor w data txVerification st) as Horder.
  destruct (process_order w data txVerification st) as [order st1].
  assert (monitor (log_webhook w req data st1) = monitor st1) as Hlog.
  { unfold log_webhook. by destruct (webhookLog_create w). }
  assert (monitor (make_proof w req data order (log_webhook w req data st1)).2
          = monitor st1) as Hproof.
  { unfold make_proof. destruct (truthy _); [|done].
    by destruct (ProofGenerator.generateMerchantProof _ _ _). }
  destruct (make_proof w req data order (log_webhook w req data st1))
    as [merchantProof st2].
  assert (∀ st', monitor (mark_processed w req data merchantProof st') = monitor st')
    as Hmark.
  { intros st'. unfold mark_processed. by destruct (truthy _). }
  assert (∀ st', monitor (emit_to_widget w data txVerification st') = monitor st')
    as Hemit.
  { intros st'. unfold emit_to_widget.
    destruct (emitPaymentReceived w (payment_id data)); [|done].
    by destruct (emitPaymentReceived w (transaction_hash data)). }
  simpl in *. rewrite Hemit, Hmark, Hproof. done.
Qed.

(** What a request does to the registry of the monitor: nothing, or one
    call of [startConfirmationMonitoring] with the chain identifier of the
    claim in decimal notation. *)
Lemma handleWebhook_monitor w req st :
  monitor (handleWebhook w req st).1 = monitor st
  ∨ ∃ data order io,
      body req = Parsed data
      ∧ monitor (handleWebhook w req st).1
        = ConfirmationMonitor.startConfirmationMonitoring (orderId order)
            (transaction_hash data) (pretty (chain_id data)) io (monitor st).
Proof.
  destruct (body req) as [data|issues|error] eqn:Hbody.
  2,3: left; unfold handleWebhook, handleWebhook_try; by rewrite Hbody.
  rewrite (handleWebhook_parsed w req data st Hbody).
  assert (monitor (process_claim w req data st).1 = monitor st
          ∨ ∃ order io,
              monitor (process_claim w req data st).1
              = ConfirmationMonitor.startConfirmationMonitoring (orderId order)
                  (transaction_hash data) (pretty (chain_id data)) io (monitor st))
    as [Hsame|(order & io & Hstart)].
  { rewrite process_claim_eq, check_payment_eq.
    pose proof (process_verified_monitor w req data st) as Hverified.
    destruct (BlockchainVerification.verifyPaymentOnChain _ _ _ _ _ _ _);
      repeat match goal with
             | |- context [if ?b then _ else _] => destruct b
             end; simpl; auto. }
  - by left.
  - right. by exists data, order, io.
Qed.

(** X14. A request keeps the registry of the monitor consistent (at most
    one live interval per order, each registered under its order): it either
    leaves the registry as it is or makes one call of
    [startConfirmationMonitoring], for the transaction and the chain of its
    claim. So the jobs and intervals that were there stay as they were, and
    at most one order gets a job and at most one interval is created. *)
Theorem handler_keeps_monitor_consistent w req st :
  ConfirmationMonitor.consistent (monitor st) →
  let after := monitor (handleWebhook w req st).1 in
  ConfirmationMonitor.consistent after
  ∧ (∀ orderId, (length (ConfirmationMonitor.jobs_of orderId after) ≤ 1)%nat)
  ∧ (∀ orderId intervalId,
       ConfirmationMonitor.monitoringJobs (monitor st) !! orderId = Some intervalId →
       ConfirmationMonitor.monitoringJobs after !! orderId = Some intervalId)
  ∧ (∀ intervalId job,
       ConfirmationMonitor.timers (monitor st) !! intervalId = Some job →
       ConfirmationMonitor.timers after !! intervalId = Some job)
  ∧ (after = monitor st
     ∨ ∃ data order io,
         body req = Parsed data
         ∧ after
           = ConfirmationMonitor.startConfirmationMonitoring (orderId order)
               (transaction_hash data) (pretty (chain_id data)) io (monitor st))
  ∧ (∀ orderId orderId',
       ConfirmationMonitor.monitoringJobs (monitor st) !! orderId = None →
       ConfirmationMonitor.monitoringJobs (monitor st) !! orderId' = None →
       is_Some (ConfirmationMonitor.monitoringJobs after !! orderId) →
       is_Some (ConfirmationMonitor.monitoringJobs after !! orderId') →
       orderId = orderId')
  ∧ (∀ intervalId intervalId',
       ConfirmationMonitor.timers (monitor st) !! intervalId = None →
       ConfirmationMonitor.timers (monitor st) !! intervalId' = None →
       is_Some (ConfirmationMonitor.timers after !! intervalId) →
       is_Some (ConfirmationMonitor.timers after !! intervalId') →
       intervalId = intervalId')
  ∧ ConfirmationMonitor.callbacks after = ConfirmationMonitor.callbacks (monitor st).
Proof.
  intros Hcons after.
  assert (after = monitor st
          ∨ ∃ data order io,
              body req = Parsed data
              ∧ after
                = ConfirmationMonitor.startConfirmationMonitoring (orderId order)
                    (transaction_hash data) (pretty (chain_id data)) io
                    (monitor st)) as Hcall.
  { subst after.
    destruct (handleWebhook_monitor w req st) as [Hsame|(data & order & io & ? & ?)];
      [by left|right; by exists data, order, io]. }
  assert (ConfirmationMonitor.consistent after) as Hafter.
  { destruct Hcall as [->|(data & order & io & _ & ->)];
      [done|by apply consistent_start]. }
  split; [done|]. split; [intros orderId; by apply jobs_of_at_most_one|].
  assert (after = monitor st →
          (∀ orderId orderId',
             ConfirmationMonitor.monitoringJobs (monitor st) !! orderId = None →
             ConfirmationMonitor.monitoringJobs (monitor st) !! orderId' = None →
             is_Some (ConfirmationMonitor.monitoringJobs after !! orderId) →
             is_Some (ConfirmationMonitor.monitoringJobs after !! orderId') →
             orderId = orderId')
          ∧ (∀ intervalId intervalId',
               ConfirmationMonitor.timers (monitor st) !! intervalId = None →
               ConfirmationMonitor.timers (monitor st) !! intervalId' = None →
               is_Some (ConfirmationMonitor.timers after !! intervalId) →
               is_Some (ConfirmationMonitor.timers after !! intervalId') →
               intervalId = intervalId')) as Hunchanged.
  { intros ->. split.
    - intros o o' Ho _ [i Hi]. congruence.
    - intros i i' Hi _ [job Hjob]. congruence. }
  destruct Hcall as [Hsame|(data & order & io & Hbody & Hstart)].
  { destruct (Hunchanged Hsame) as [Hjobs Htimers]. rewrite Hsame in *.
    split; [done|]. split; [done|]. split; [by left|]. done. }
  assert (after = monitor st
          ∨ ∃ data order io,
              body req = Parsed data
              ∧ after
                = ConfirmationMonitor.startConfirmationMonitoring (orderId order)
                    (transaction_hash data) (pretty (chain_id data)) io
                    (monitor st)) as Hcall
    by (right; by exists data, order, io).
  revert Hcall Hunchanged. rewrite Hstart. clear Hstart Hafter.
  unfold ConfirmationMonitor.startConfirmationMonitoring.
  case_bool_decide as Hpresent; intros Hcall Hunchanged.
  { destruct (Hunchanged eq_refl) as [Hjobs Htimers]. done. }
  simpl. destruct Hcons as (_ & _ & Hfresh). split.
  { intros k i Hk. rewrite lookup_insert_ne; [done|].
    intros <-. apply Hpresent. eauto. }
  split.
  { intros i job Hi. rewrite lookup_insert_ne; [done|].
    intros <-. assert (ConfirmationMonitor.next_timer (monitor st)
                       < ConfirmationMonitor.next_timer (monitor st))%nat
      by (apply Hfresh; eauto). lia. }
  split; [done|]. split.
  { intros o o' Ho Ho' [i Hi] [i' Hi'].
    apply lookup_insert_Some in Hi as [[<- _]|[_ Hi]]; [|congruence].
    apply lookup_insert_Some in Hi' as [[<- _]|[_ Hi']]; [done|congruence]. }
  split; [|done].
  intros i i' Hi Hi' [job Hjob] [job' Hjob'].
  apply lookup_insert_Some in Hjob as [[<- _]|[_ Hjob]]; [|congruence].
  apply lookup_insert_Some in Hjob' as [[<- _]|[_ Hjob']]; [done|congruence].
Qed.

(** X15. A job that a request starts monitors the chain under the decimal
    notation of the chain identifier of the claim. The blockchain service
    knows no chain under such a name: whenever the interval of this job fires
    and asks the service for the confirmations of its transaction, the
    question throws, and the run leaves the registry as it is and writes
    nothing: the job never marks its order confirmed and never deregisters
    itself. *)
Theorem handler_jobs_never_progress w req st :
  let after := monitor (handleWebhook w req st).1 in
  ∀ intervalId job,
    ConfirmationMonitor.timers after !! intervalId = Some job →
    ConfirmationMonitor.timers (monitor st) !! intervalId = None →
    (∃ data, body req = Parsed data
             ∧ ConfirmationMonitor.job_chain job = pretty (chain_id data)
             ∧ ConfirmationMonitor.job_txHash job = transaction_hash data)
    ∧ ∀ nodes required pw,
        ConfirmationMonitor.getTransactionConfirmations pw
        = BlockchainService.getTransactionConfirmations nodes
            (ConfirmationMonitor.job_txHash job) (ConfirmationMonitor.job_chain job) →
        ConfirmationMonitor.poll required pw intervalId after = (after, []).
Proof.
  intros after intervalId job Hlive Hnew. subst after.
  destruct (handleWebhook_monitor w req st) as [Hsame|(data & order & io & Hbody & Hstart)].
  { rewrite Hsame in Hlive. congruence. }
  rewrite Hstart in Hlive |- *.
  unfold ConfirmationMonitor.startConfirmationMonitoring in Hlive.
  case_bool_decide as Hpresent; [congruence|]. simpl in Hlive.
  apply lookup_insert_Some in Hlive as [[<- <-]|[_ Hold]]; [|congruence].
  simpl. split; [by exists data|].
  intros nodes required pw Hask.
  destruct (decimal_chain_unsupported nodes (transaction_hash data) (chain_id data))
    as [_ Hthrows].
  rewrite Hthrows in Hask.
  unfold ConfirmationMonitor.poll. rewrite Hask.
  by destruct (ConfirmationMonitor.timers
                 (ConfirmationMonitor.startConfirmationMonitoring _ _ _ _ _) !! _).
Qed.

End HandlerMonitor.

(** X14 and X15 on the sample claim, when the order store knows its order:
    the request starts the job of order-1 on chain '11155111', and a firing
    of its interval that asks the sample node changes nothing. *)
Lemma handler_keeps_monitor_consistent_witness :
  let after := WebhookController.monitor
                 (@WebhookController.handleWebhook Sample.ethers
                    Sample2.world_with_order
                    (Sample.request (Some Sample.listener_addr) Sample.claim)
                    Sample.initial).1 in
  ConfirmationMonitor.getActiveMonitoringJobs after = ["order-1"]
  ∧ ConfirmationMonitor.consistent after.
Proof.
  intros after. split; [by vm_compute|].
  apply (@handler_keeps_monitor_consistent Sample.ethers Sample2.world_with_order
           (Sample.request (Some Sample.listener_addr) Sample.claim) Sample.initial).
  apply consistent_empty.
Defined.

Lemma handler_jobs_never_progress_witness :
  let after := WebhookController.monitor
                 (@WebhookController.handleWebhook Sample.ethers
                    Sample2.world_with_order
                    (Sample.request (Some Sample.listener_addr) Sample.claim)
                    Sample.initial).1 in
  let pw :=
    {| ConfirmationMonitor.getTransactionConfirmations :=
         BlockchainService.getTransactionConfirmations Sample2.nodes Sample.tx
           "11155111";
       ConfirmationMonitor.update_confirmations := Ok tt;
       ConfirmationMonitor.update_confirmed := Ok Sample.order_row;
       ConfirmationMonitor.sendPaymentConfirmedEmail := Ok tt;
       ConfirmationMonitor.poll_now := 1700000700000 |} in
  (ConfirmationMonitor.job_chain
     <$> ConfirmationMonitor.timers after !! 0%nat) = Some "11155111"
  ∧ ConfirmationMonitor.poll 12 pw 0 after = (after, []).
Proof.
  intros after pw. split; [by vm_compute|].
  destruct (@handler_jobs_never_progress Sample.ethers Sample2.world_with_order
              (Sample.request (Some Sample.listener_addr) Sample.claim)
              Sample.initial 0%nat
              {| ConfirmationMonitor.job_orderId := "order-1";
                 ConfirmationMonitor.job_txHash := Sample.tx;
                 ConfirmationMonitor.job_chain := "11155111";
                 ConfirmationMonitor.job_io := true |})
    as [_ Hpoll]; [by vm_compute|by vm_compute|].
  apply Hpoll with (nodes := Sample2.nodes). reflexivity.
Defined.

(** ** The HMAC of a webhook *)
Section HmacProperties.

Import Crypto.

Context `{Hmac}.

(** X16. The signature [generateWebhookSignature] computes for a payload
    and a secret verifies for that payload and secret, and it is the only
    one that does: verification returns true exactly on it. *)
Theorem hmac_round_trip (payload secret : string) :
  verifyWebhookSignature payload (generateWebhookSignature payload secret) secret
  = Ok true
  ∧ ∀ signature,
      verifyWebhookSignature payload signature secret = Ok true
      ↔ signature = generateWebhookSignature payload secret.
Proof.
  unfold verifyWebhookSignature, generateWebhookSignature, timingSafeEqual.
  split.
  - by rewrite Nat.eqb_refl, String.eqb_refl.
  - intros signature.
    destruct (Nat.eqb_spec (String.length signature)
                (String.length (hmac_sha256_hex secret payload))) as [Hlen|Hlen].
    + split.
      * intros [= Heq]. by apply String.eqb_eq.
      * intros ->. by rewrite String.eqb_refl.
    + split; [done|]. intros ->. done.
Qed.

(** X17. Verification does not answer false on a signature whose length
    differs from that of the digest: it throws, with the error of
    [timingSafeEqual]. It answers false exactly on a wrong signature of
    the right length. *)
Theorem hmac_length_mismatch (payload signature secret : string) :
  let digest := generateWebhookSignature payload secret in
  (verifyWebhookSignature payload signature secret = Throw length_mismatch
   ↔ String.length signature ≠ String.length digest)
  ∧ (verifyWebhookSignature payload signature secret = Ok false
     ↔ String.length signature = String.length digest ∧ signature ≠ digest).
Proof.
  intros digest. subst digest.
  unfold verifyWebhookSignature, generateWebhookSignature, timingSafeEqual.
  destruct (Nat.eqb_spec (String.length signature)
              (String.length (hmac_sha256_hex secret payload))) as [Hlen|Hlen].
  - split; [split; [done|by intros ?]|].
    split.
    + intros [= Hne]. split; [done|]. by apply String.eqb_neq.
    + intros [_ Hne]. f_equal. by apply String.eqb_neq.
  - split; [done|]. split; [done|]. by intros [? _].
Qed.

End HmacProperties.

(** ** Administrative authentication *)
Section AuthProperties.

Import AuthMiddleware JsBuiltins.

Variable jwt_verify : string -> option string -> Result User.
Variable JWT_SECRET : option string.

Lemma drop_chars_app (p s : string) : drop_chars (String.length p) (p +:+ s) = s.
Proof.
  induction p as [|c p IH]; [by destruct s|].
  rewrite append_cons. simpl. apply IH.
Qed.

(** X18. The middleware lets a request through exactly when its
    Authorization header is 'Bearer ' followed by a token that [jwt.verify]
    accepts under the configured secret, and the user it attaches is the
    decoded one. Every other request is answered 401: with 'No token
    provided' when the header is absent or does not start with 'Bearer ',
    with 'Invalid token' when the verification throws. *)
Theorem auth_middleware_spec (authorization : option string) :
  (∀ user,
     authMiddleware jwt_verify JWT_SECRET authorization = Next user
     ↔ ∃ token decoded,
         authorization = Some ("Bearer " +:+ token)
         ∧ jwt_verify token JWT_SECRET = Ok decoded
         ∧ user = {| id := id decoded; email := email decoded;
                     role := role decoded |})
  ∧ ((∀ token, authorization ≠ Some ("Bearer " +:+ token)) →
     authMiddleware jwt_verify JWT_SECRET authorization
     = Answer 401 "No token provided")
  ∧ (∀ token error,
       authorization = Some ("Bearer " +:+ token) →
       jwt_verify token JWT_SECRET = Throw error →
       authMiddleware jwt_verify JWT_SECRET authorization
       = Answer 401 "Invalid token").
Proof.
  assert (∀ token,
            authMiddleware jwt_verify JWT_SECRET (Some ("Bearer " +:+ token))
            = match jwt_verify token JWT_SECRET with
              | Ok decoded => Next {| id := id decoded; email := email decoded;
                                      role := role decoded |}
              | Throw _ => Answer 401 "Invalid token"
              end) as Hbearer.
  { intros token. unfold authMiddleware.
    assert (String.prefix "Bearer " ("Bearer " +:+ token) = true) as ->
      by (apply prefix_app; by eexists).
    change 7%nat with (String.length "Bearer ").
    by rewrite drop_chars_app. }
  assert ((∀ token, authorization ≠ Some ("Bearer " +:+ token)) →
          authMiddleware jwt_verify JWT_SECRET authorization
          = Answer 401 "No token provided") as Hnone.
  { intros Hno. unfold authMiddleware.
    destruct authorization as [authHeader|]; [|done].
    destruct (String.prefix "Bearer " authHeader) eqn:Hprefix.
    - apply prefix_app in Hprefix as [token ->]. by destruct (Hno token).
    - by rewrite orb_true_r. }
  split; [|split; [done|]].
  - intros user. split.
    + intros Hnext.
      destruct authorization as [authHeader|]; [|done].
      destruct (String.prefix "Bearer " authHeader) eqn:Hprefix.
      * apply prefix_app in Hprefix as [token ->].
        rewrite Hbearer in Hnext.
        destruct (jwt_verify token JWT_SECRET) as [decoded|] eqn:Hjwt; [|done].
        injection Hnext as <-. by exists token, decoded.
      * unfold authMiddleware in Hnext. by rewrite Hprefix, orb_true_r in Hnext.
    + intros (token & decoded & -> & Hjwt & ->). by rewrite Hbearer, Hjwt.
  - intros token error -> Hjwt. by rewrite Hbearer, Hjwt.
Qed.

End AuthProperties.

(** ** Typed proofs and the verification of proofs *)
Section TypedProofProperties.

Import TypedProof.

Context `{Ethers} `{Wallet}.

(** X19. Under a wallet that signs with the key of its address, a proof
    that [generateMerchantProof] returns verifies against the address of the
    merchant, written in any case, and against no other address. *)
Theorem merchant_proof_verifies (thr : Thresholds) (now : Z)
    (params : ProofGenerator.ProofParams) (proof : ProofGenerator.MerchantProof) :
  signs_as_itself →
  ProofGenerator.generateMerchantProof thr now params = Ok proof →
  ∀ expectedSigner,
    verifyProof (ProofGenerator.proof_message proof)
      (ProofGenerator.proof_signature proof) expectedSigner = true
    ↔ ListenerVerification.toLowerCase expectedSigner
      = ListenerVerification.toLowerCase getMerchantAddress.
Proof.
  intros Hwallet Hgen expectedSigner.
  unfold ProofGenerator.generateMerchantProof in Hgen.
  destruct (ProofGenerator.validateProofParams thr now params); [|done].
  destruct (solidityPackedKeccak256 _ _) as [message|]; [|done].
  destruct (signMessage message) as [signature|] eqn:Hsign; [|done].
  injection Hgen as <-. simpl.
  destruct (Hwallet _ _ Hsign) as (digest & Hhash & Hrecover).
  unfold verifyProof, getMerchantAddress. rewrite Hhash, Hrecover.
  rewrite String.eqb_eq. split; congruence.
Qed.

(** X20. The typed proof is issued without any check of its parameters:
    whenever the amount is a well-formed ether amount and the wallet signs,
    [generateEIP712Signature] returns a proof for the timestamp it was given,
    bound to chain 11155111 and to the registry address of the environment
    (the zero address when none is set); this includes timestamps older than
    the expiry window, which [generateMerchantProof] refuses. *)
Theorem typed_proof_unchecked (env : gmap string string) (thr : Thresholds)
    (now : Z) (params : TypedParams) (wei : Z) :
  parseEther (param_amount params) = Ok wei →
  let domain :=
    {| name := "Web3Pay Merchant Confirmation"; version := "1";
       chainId := 11155111;
       verifyingContract := or_else (env !! "LISTENER_REGISTRY_ADDRESS") ZeroAddress |} in
  let value :=
    {| paymentId := payment_id params; listener := listener_address params;
       merchant := address; amount := wei; orderId := ethers_id (order_id params);
       timestamp := param_timestamp params; received := webhook_received params |} in
  ∀ signature,
    signTypedData domain WebhookConfirmation value = Ok signature →
    generateEIP712Signature env params
    = Ok {| proof_domain := domain; proof_types := WebhookConfirmation;
            proof_value := value; proof_signature := signature;
            proof_timestamp := param_timestamp params; proof_method := "eip712" |}
    ∧ (now - param_timestamp params > proofExpirySeconds thr * 1000 →
       is_Ok (ProofGenerator.generateMerchantProof thr now
                {| ProofGenerator.payment_id := payment_id params;
                   ProofGenerator.listener_address := listener_address params;
                   ProofGenerator.timestamp := param_timestamp params;
                   ProofGenerator.webhook_received := webhook_received params;
                   ProofGenerator.order_id := Some (order_id params);
                   ProofGenerator.amount := Some (param_amount params) |})
       = false).
Proof.
  intros Hamount domain value signature Hsign.
  unfold generateEIP712Signature. rewrite Hamount. fold domain value.
  rewrite Hsign. split; [done|].
  intros Hold. unfold ProofGenerator.generateMerchantProof.
  edestruct (validateProofParams_rejects thr now) as [error ->];
    [left; exact Hold|done].
Qed.

End TypedProofProperties.

(** X19 on the proof of the sample payment. *)
Lemma merchant_proof_verifies_witness :
  let params :=
    {| ProofGenerator.payment_id := Sample.payment;
       ProofGenerator.listener_address := Sample.listener_addr;
       ProofGenerator.timestamp := 1700000600000;
       ProofGenerator.webhook_received := true;
       ProofGenerator.order_id := None;
       ProofGenerator.amount := Some "1.5" |} in
  let message := "keccak256(" +:+ Sample.payment +:+ "," +:+ Sample.listener_addr
                   +:+ ")" in
  @TypedProof.signs_as_itself Sample.ethers Sample2.wallet
  ∧ @TypedProof.verifyProof Sample2.wallet message ("signed(" +:+ message +:+ ")")
      Sample.merchant_addr = true.
Proof.
  intros params message.
  assert (@TypedProof.signs_as_itself Sample.ethers Sample2.wallet) as Hwallet.
  { intros m s [= <-]. exists m. split; [done|]. simpl.
    by rewrite String.eqb_refl. }
  split; [done|].
  apply (@merchant_proof_verifies Sample.ethers Sample2.wallet default_thresholds
           1700000600000 params
           {| ProofGenerator.proof_message := message;
              ProofGenerator.proof_signature := "signed(" +:+ message +:+ ")";
              ProofGenerator.proof_timestamp := 1700000600000;
              ProofGenerator.proof_method := "simple" |} Hwallet).
  - by vm_compute.
  - reflexivity.
Defined.

(** X20 on a typed proof for a timestamp two hours old. *)
Lemma typed_proof_unchecked_witness :
  let params :=
    {| TypedProof.payment_id := Sample.payment;
       TypedProof.listener_address := Sample.listener_addr;
       TypedProof.param_timestamp := 1700000600000 - 7200 * 1000;
       TypedProof.webhook_received := true;
       TypedProof.order_id := "order-1";
       TypedProof.param_amount := "1.5" |} in
  is_Ok (@TypedProof.generateEIP712Signature Sample.ethers Sample2.wallet ∅ params)
  = true.
Proof.
  intros params.
  destruct (@typed_proof_unchecked Sample.ethers Sample2.wallet ∅ default_thresholds
              1700000600000 params (15 * 10 ^ 17) eq_refl "signed(typed)" eq_refl)
    as [-> _].
  reflexivity.
Defined.

(** ** The answers of the handler *)
Section HandlerAnswers.

Import WebhookController.

Context `{Ethers}.
Implicit Types (w : World) (req : Request) (data : WebhookData) (st : State).

Lemma process_verified_answer w req data st :
  status (process_verified w req data st).2 = 200
  ∧ jget "status" (json (process_verified w req data st).2) = Some (JStr "success").
Proof.
  by destruct (process_verified_outcome w req data st) as (order & proof & -> & _).
Qed.

(** A new claim that fails a check is answered 401, 403 or 400 by steps 3
    to 5, or 500 when the payment verifier rejects, with a body that has no
    status field, and the state is not touched. *)
Lemma process_claim_rejected w req data st :
  processedWebhooks st !! payment_id data = None →
  passes_checks w req data = false →
  ∃ response,
    process_claim w req data st = (st, response)
    ∧ status response ∈ [401; 403; 400; 500]
    ∧ jget "status" (json response) = None.
Proof.
  intros Hnew%isWebhookProcessed_false. unfold passes_checks.
  rewrite process_claim_eq, check_payment_eq, Hnew.
  destruct (truthy (x_webhook_signature req) && truthy (x_node_address req)
            && negb _); simpl.
  { intros _. eexists. split; [done|]. split; [set_solver|done]. }
  destruct (truthy (x_node_address req)); simpl.
  - destruct (ListenerVerification.isValid _); simpl.
    + destruct (BlockchainVerification.verifyPaymentOnChain _ _ _ _ _ _ _)
        as [paymentVerification|error]; simpl.
      * intros ->. simpl. eexists. split; [done|]. split; [set_solver|done].
      * intros _. eexists. split; [done|]. split; [set_solver|done].
    + intros _. eexists. split; [done|]. split; [set_solver|done].
  - destruct (BlockchainVerification.verifyPaymentOnChain _ _ _ _ _ _ _)
      as [paymentVerification|error]; simpl.
    + intros ->. simpl. eexists. split; [done|]. split; [set_solver|done].
    + intros _. eexists. split; [done|]. split; [set_solver|done].
Qed.

(** X21. The handler answers 'success' exactly when the body passes the
    schema, the payment is not in the duplicate tracker, and the claim
    passes the signature, registry and payment checks. Every other answer
    leaves the state of the process as it was: no entry in the tracker, no
    monitoring job, no write to the order store, no e-mail, no emit and no
    signature. *)
Theorem handler_success_iff w req st :
  let out := handleWebhook w req st in
  (jget "status" (json out.2) = Some (JStr "success")
   ↔ ∃ data, body req = Parsed data
             ∧ processedWebhooks st !! payment_id data = None
             ∧ passes_checks w req data = true)
  ∧ (jget "status" (json out.2) = Some (JStr "success") → status out.2 = 200)
  ∧ (jget "status" (json out.2) ≠ Some (JStr "success") → out.1 = st).
Proof.
  intros out. subst out.
  destruct (body req) as [data|issues|error] eqn:Hbody.
  2,3: unfold handleWebhook, handleWebhook_try; rewrite Hbody; simpl;
    (split; [split; [done|by intros (? & ? & _)]|done]).
  rewrite (handleWebhook_parsed w req data st Hbody).
  destruct (processedWebhooks st !! payment_id data) as [entry|] eqn:Hdup.
  { rewrite (process_claim_duplicate w req data st entry Hdup). simpl.
    split; [split; [done|]|done].
    intros (data' & [= <-] & Hnew & _). congruence. }
  destruct (passes_checks w req data) eqn:Hpass.
  - rewrite (process_claim_verified w req data st Hdup Hpass).
    destruct (process_verified_answer w req data st) as [Hstatus Hsuccess].
    split; [split; [by exists data|done]|]. split; [done|]. by intros [].
  - destruct (process_claim_rejected w req data st Hdup Hpass)
      as (response & -> & _ & Hnone). simpl. rewrite Hnone.
    split; [split; [done|]|done].
    intros (data' & [= <-] & _ & Hyes). congruence.
Qed.

(** X22. The checks of a new claim are answered in a fixed order. The
    answer is 401 exactly when a signature and an address came with the
    request and the signature check fails (a claim without signature header
    is not checked); 403 exactly when that is not so, an address came and the
    registry check refuses it, and the message is the reason of the registry
    check; 400 exactly when neither is so and the payment verifier returns a
    refusal; 500 exactly when neither is so and the payment verifier
    rejects, and the message is then the message of its error. *)
Theorem handler_rejection_order w req data st :
  body req = Parsed data →
  processedWebhooks st !! payment_id data = None →
  let out := handleWebhook w req st in
  let address := or_else (x_node_address req) "" in
  let bad_signature :=
    truthy (x_webhook_signature req) && truthy (x_node_address req)
    && negb (ListenerVerification.verifyListenerSignature (signed_fields data)
               (or_else (x_webhook_signature req) "") address) in
  let registration :=
    ListenerVerification.verifyListenerRegistered (env w) (thresholds w)
      (getListener w) address in
  let refused :=
    truthy (x_node_address req) && negb (ListenerVerification.isValid registration) in
  let payment :=
    BlockchainVerification.verifyPaymentOnChain (env w) (getPayment w)
      (now_payment w) (payment_id data) (merchant data) (customer data)
      (amount data) in
  (status out.2 = 401 ↔ bad_signature = true)
  ∧ (status out.2 = 403 ↔ bad_signature = false ∧ refused = true)
  ∧ (status out.2 = 403 →
     jget "message" (json out.2)
     = Some (JStr (or_else (ListenerVerification.reason registration)
                     "Listener not registered or not authorized")))
  ∧ (status out.2 = 400
     ↔ bad_signature = false ∧ refused = false
       ∧ ∃ check, payment = Ok check
                  ∧ BlockchainVerification.isValid check = false)
  ∧ (status out.2 = 500
     ↔ bad_signature = false ∧ refused = false ∧ is_Ok payment = false)
  ∧ (∀ error, bad_signature = false → refused = false → payment = Throw error →
       out = (st, {| status := 500;
                     json := JObj [("error", JStr "Internal server error");
                                   ("message",
                                    JStr (error_message_or_unknown error))] |})).
Proof.
  intros Hbody Hnew%isWebhookProcessed_false out address bad_signature
    registration refused payment.
  subst out. rewrite (handleWebhook_parsed w req data st Hbody).
  pose proof (process_verified_answer w req data st) as [Hok _].
  rewrite process_claim_eq, check_payment_eq, Hnew.
  fold address. fold bad_signature. fold registration. fold refused. fold payment.
  destruct bad_signature; simpl.
  { split; [done|]. split; [split; [done|by intros [? _]]|].
    split; [done|]. split; [split; [done|by intros [? _]]|].
    split; [split; [done|by intros [? _]]|]. done. }
  destruct refused; simpl.
  { split; [done|]. split; [done|]. split; [done|].
    split; [split; [done|by intros (_ & ? & _)]|].
    split; [split; [done|by intros (_ & ? & _)]|]. done. }
  destruct payment as [check|error]; simpl.
  - destruct (BlockchainVerification.isValid check) eqn:Hvalid; simpl;
      rewrite ?Hok.
    + split; [done|]. split; [split; [done|by intros [_ ?]]|].
      split; [done|].
      split; [split; [done|intros (_ & _ & check' & [= <-] & ?); congruence]|].
      split; [split; [done|by intros (_ & _ & ?)]|]. done.
    + split; [done|]. split; [split; [done|by intros [_ ?]]|].
      split; [done|]. split; [split; [by eauto|done]|].
      split; [split; [done|by intros (_ & _ & ?)]|]. done.
  - split; [done|]. split; [split; [done|by intros [_ ?]]|].
    split; [done|].
    split; [split; [done|by intros (_ & _ & check & ? & _)]|].
    split; [done|]. by intros error' _ _ [= <-].
Qed.

Lemma generateMerchantProof_order (thr : Thresholds) (now : Z)
    (params params' : ProofGenerator.ProofParams) :
  ProofGenerator.payment_id params = ProofGenerator.payment_id params' →
  ProofGenerator.listener_address params = ProofGenerator.listener_address params' →
  ProofGenerator.timestamp params = ProofGenerator.timestamp params' →
  ProofGenerator.generateMerchantProof thr now params
  = ProofGenerator.generateMerchantProof thr now params'.
Proof.
  intros Hid Haddr Htime.
  unfold ProofGenerator.generateMerchantProof, ProofGenerator.validateProofParams.
  by rewrite Hid, Haddr, Htime.
Qed.

Lemma emit_to_widget_effects w data txVerification st :
  ∃ emitted,
    effects (emit_to_widget w data txVerification st) = effects st ++ emitted.
Proof.
  unfold emit_to_widget.
  destruct (emitPaymentReceived w (payment_id data)); [|exists []; by rewrite app_nil_r].
  destruct (emitPaymentReceived w (transaction_hash data)); simpl.
  - rewrite <- app_assoc. by eexists.
  - by eexists.
Qed.

(** X23. A new claim that passes the checks and comes with a listener
    address for which the proof generator returns a proof is answered with
    that proof: the signature of the answer and of the tracker entry is the
    one the wallet gave for the packed hash of the payment identifier and
    the listener address, and exactly one message is signed. Neither the
    receipt check nor a failure of the order store, the log, the mailer or
    the sockets changes this. *)
Theorem verified_claim_gets_proof w req data st address proof :
  body req = Parsed data →
  x_node_address req = Some address →
  processedWebhooks st !! payment_id data = None →
  passes_checks w req data = true →
  ProofGenerator.generateMerchantProof (thresholds w) (now_validate w)
    (proof_params w req data None) = Ok proof →
  let out := handleWebhook w req st in
  status out.2 = 200
  ∧ solidityPackedKeccak256 (payment_id data) address
    = Ok (ProofGenerator.proof_message proof)
  ∧ signMessage (ProofGenerator.proof_message proof)
    = Ok (ProofGenerator.proof_signature proof)
  ∧ (∃ fields,
       jget "proof" (json out.2) = Some (JObj fields)
       ∧ assoc "payment_id" fields = Some (JStr (payment_id data))
       ∧ assoc "listener" fields = Some (JStr address)
       ∧ assoc "merchant_signature" fields
         = Some (JStr (ProofGenerator.proof_signature proof))
       ∧ assoc "signed_message" fields
         = Some (JStr (ProofGenerator.proof_message proof)))
  ∧ processedWebhooks out.1
    = <[payment_id data :=
          {| DuplicateTracker.listener := address;
             DuplicateTracker.timestamp := now_mark w;
             DuplicateTracker.signature := ProofGenerator.proof_signature proof |}]>
        (processedWebhooks st)
  ∧ proofs_signed (effects out.1) = S (proofs_signed (effects st))
  ∧ MessageSigned (ProofGenerator.proof_message proof)
      (ProofGenerator.proof_signature proof) ∈ effects out.1.
Proof.
  intros Hbody Haddr Hnew Hpass Hgen out. subst out.
  rewrite (handleWebhook_parsed w req data st Hbody).
  rewrite (process_claim_verified w req data st Hnew Hpass).
  assert (address ≠ "") as Hne.
  { intros ->. unfold ProofGenerator.generateMerchantProof,
      ProofGenerator.validateProofParams, proof_params in Hgen.
    rewrite Haddr in Hgen. simpl in Hgen.
    by destruct (String.eqb (payment_id data) ""). }
  assert (truthy (x_node_address req) = true) as Htruthy.
  { rewrite Haddr. simpl. by apply negb_true_iff, String.eqb_neq. }
  assert (or_else (x_node_address req) "" = address) as Hor.
  { rewrite Haddr. simpl. by apply String.eqb_neq in Hne as ->. }
  assert (solidityPackedKeccak256 (payment_id data) address
          = Ok (ProofGenerator.proof_message proof)
          ∧ signMessage (ProofGenerator.proof_message proof)
            = Ok (ProofGenerator.proof_signature proof)) as [Hpacked Hsigned].
  { unfold ProofGenerator.generateMerchantProof, proof_params in Hgen.
    simpl in Hgen. rewrite Hor in Hgen.
    destruct (ProofGenerator.validateProofParams _ _ _); [|done].
    destruct (solidityPackedKeccak256 _ _) as [message|]; [|done].
    destruct (signMessage message) as [signature|] eqn:Hsign; [|done].
    by injection Hgen as <-. }
  unfold process_verified.
  set (txVerification := BlockchainVerification.verifyTransactionReceipt _ _ _ _).
  pose proof (process_order_tracker w data txVerification st) as Htracker.
  pose proof (process_order_signed w data txVerification st) as Hcount.
  destruct (process_order w data txVerification st) as [order st1].
  pose proof (log_webhook_tracker w req data st1) as Hlog.
  pose proof (log_webhook_signed w req data st1) as Hlogged.
  set (st2 := log_webhook w req data st1) in *.
  assert (make_proof w req data order st2
          = (Some proof,
             add_effects [MessageSigned (ProofGenerator.proof_message proof)
                            (ProofGenerator.proof_signature proof)] st2)) as ->.
  { unfold make_proof. rewrite Htruthy.
    rewrite (generateMerchantProof_order _ _ _ (proof_params w req data None))
      by done.
    by rewrite Hgen. }
  set (st3 := add_effects _ st2).
  set (st4 := mark_processed w req data (Some proof) st3).
  destruct (emit_to_widget_effects w data txVerification st4) as [emitted Hemit].
  simpl in *. rewrite emit_to_widget_tracker, emit_to_widget_signed, Hemit.
  subst st4. unfold mark_processed. rewrite Htruthy, Hor. simpl.
  split; [done|]. split; [done|]. split; [done|].
  split.
  { rewrite Haddr. eexists. split; [done|]. by repeat split. }
  split.
  { unfold DuplicateTracker.markWebhookProcessed. rewrite Hlog, Htracker.
    do 2 f_equal. unfold signature_or_empty, or_else. simpl.
    by destruct (String.eqb_spec (ProofGenerator.proof_signature proof) ""). }
  split.
  { rewrite proofs_signed_app, Hlogged, Hcount. unfold proofs_signed. simpl. lia. }
  set_solver.
Qed.

End HandlerAnswers.

(** X22 on the sample claim of a slashed listener, which is answered 403
    with the reason of the registry check, and on a claim of a listener in
    good standing for 10^160 ether, which is answered 500 with the message
    of the error of [JSON.stringify]. *)
Lemma handler_rejection_order_witness :
  let out := @WebhookController.handleWebhook Sample.ethers Sample2.world_slashed
               (Sample.request (Some Sample.listener_addr) Sample.claim)
               Sample.initial in
  let out' := @WebhookController.handleWebhook Sample.ethers Sample.world
                (Sample.request (Some Sample.listener_addr) Sample2.claim_huge)
                Sample.initial in
  (WebhookController.status out.2 = 403
   ∧ WebhookController.jget "message" (WebhookController.json out.2)
     = Some (WebhookController.JStr "Listener has been slashed (banned)"))
  ∧ (WebhookController.status out'.2 = 500
     ∧ WebhookController.jget "message" (WebhookController.json out'.2)
       = Some (WebhookController.JStr "Do not know how to serialize a BigInt")).
Proof.
  intros out out'. split.
  - destruct (@handler_rejection_order Sample.ethers Sample2.world_slashed
                (Sample.request (Some Sample.listener_addr) Sample.claim)
                Sample.claim Sample.initial eq_refl eq_refl)
      as (_ & [_ Hrefused] & Hmessage & _).
    subst out. split; [apply Hrefused; by vm_compute|].
    rewrite Hmessage; [by vm_compute|apply Hrefused; by vm_compute].
  - destruct (@handler_rejection_order Sample.ethers Sample.world
                (Sample.request (Some Sample.listener_addr) Sample2.claim_huge)
                Sample2.claim_huge Sample.initial eq_refl eq_refl)
      as (_ & _ & _ & _ & _ & Hthrows).
    subst out'. rewrite (Hthrows stringify_bigint); by vm_compute.
Defined.

(** X23 on the sample claim. *)
Lemma verified_claim_gets_proof_witness :
  let out := @WebhookController.handleWebhook Sample.ethers Sample.world
               (Sample.request (Some Sample.listener_addr) Sample.claim)
               Sample.initial in
  WebhookController.status out.2 = 200
  ∧ WebhookController.proofs_signed (WebhookController.effects out.1) = 1%nat.
Proof.
  intros out.
  pose (message := "keccak256(" +:+ Sample.payment +:+ "," +:+ Sample.listener_addr
                     +:+ ")").
  destruct (@verified_claim_gets_proof Sample.ethers Sample.world
              (Sample.request (Some Sample.listener_addr) Sample.claim)
              Sample.claim Sample.initial Sample.listener_addr
              {| ProofGenerator.proof_message := message;
                 ProofGenerator.proof_signature := "signed(" +:+ message +:+ ")";
                 ProofGenerator.proof_timestamp := 1700000600003;
                 ProofGenerator.proof_method := "simple" |})
    as (Hstatus & _ & _ & _ & _ & Hcount & _);
    [reflexivity|reflexivity|reflexivity|by vm_compute|by vm_compute|].
  split; done.
Defined.

(** ** Runs of the confirmation monitor *)
Section MonitorRunProperties.

Import ConfirmationMonitor MonitorRuns.

Variable required : Z.

Lemma times_confirmed_app (orderId : string) (a b : list Effect) :
  times_confirmed orderId (a ++ b)
  = (times_confirmed orderId a + times_confirmed orderId b)%nat.
Proof. unfold times_confirmed. by rewrite List.filter_app, length_app. Qed.

Lemma times_confirmed_progress (orderId id : string) (c : Z) (io : bool) :
  times_confirmed orderId
    (OrderUpdate id (confirmations_patch c)
     :: (if io then [SocketEmit id "confirmation-update" c] else []))
  = 0%nat.
Proof.
  unfold times_confirmed. simpl.
  rewrite ?andb_false_r. by destruct io.
Qed.

Lemma times_confirmed_final (orderId id : string) (now c : Z) (io : bool)
    (email : list Effect) :
  (∀ e, e ∈ email → is_confirmation_of orderId e = false) →
  times_confirmed orderId
    (OrderUpdate id (confirmed_patch now)
     :: email ++ (if io then [SocketEmit id "payment-confirmed" c] else []))
  = if String.eqb id orderId then 1%nat else 0%nat.
Proof.
  intros Hemail. unfold times_confirmed. simpl.
  rewrite ?andb_true_r.
  assert (List.filter (is_confirmation_of orderId)
            (email ++ (if io then [SocketEmit id "payment-confirmed" c] else []))
          = []) as Hrest.
  { rewrite List.filter_app.
    assert (List.filter (is_confirmation_of orderId) email = []) as ->.
    { induction email as [|e email IH]; [done|]. simpl.
      rewrite Hemail by set_solver. apply IH. intros e' He'. apply Hemail.
      set_solver. }
    by destruct io. }
  destruct (String.eqb id orderId); simpl; by rewrite Hrest.
Qed.

Lemma monitored_stop_same (orderId : string) (reg : Registry) :
  monitored orderId (stopConfirmationMonitoring orderId reg) = 0%nat.
Proof.
  unfold monitored. rewrite stop_removes.
  rewrite bool_decide_eq_false_2; [done|]. by intros [? ?].
Qed.

Lemma monitored_stop_other (orderId k : string) (reg : Registry) :
  k ≠ orderId →
  monitored orderId (stopConfirmationMonitoring k reg) = monitored orderId reg.
Proof.
  intros Hne. unfold monitored, stopConfirmationMonitoring.
  destruct (monitoringJobs reg !! k); [|done].
  simpl. by rewrite lookup_delete_ne.
Qed.

Lemma monitored_stop_le (orderId k : string) (reg : Registry) :
  (monitored orderId (stopConfirmationMonitoring k reg) ≤ monitored orderId reg)%nat.
Proof.
  destruct (decide (k = orderId)) as [->|Hne].
  - rewrite monitored_stop_same. lia.
  - by rewrite monitored_stop_other.
Qed.

Lemma monitored_registered (orderId : string) (reg : Registry) :
  is_Some (monitoringJobs reg !! orderId) → monitored orderId reg = 1%nat.
Proof. intros Hjob. unfold monitored. by rewrite bool_decide_eq_true_2. Qed.

(** One firing: a confirmation of an order uses up its registration. *)
Lemma poll_counts (orderId : string) pw intervalId reg :
  consistent reg →
  (times_confirmed orderId (poll required pw intervalId reg).2
   + monitored orderId (poll required pw intervalId reg).1
   ≤ monitored orderId reg)%nat.
Proof.
  intros (_ & Htimers & _). unfold poll.
  destruct (timers reg !! intervalId) as [job|] eqn:Hlive; [|simpl; lia].
  destruct (getTransactionConfirmations pw) as [c|]; [|simpl; lia].
  destruct (update_confirmations pw); [|simpl; lia].
  pose proof (times_confirmed_progress orderId (job_orderId job) c (job_io job))
    as Hprogress.
  destruct (c >=? required); [|simpl; lia].
  destruct (update_confirmed pw) as [order|]; [|simpl; lia].
  cbn [fst snd]. rewrite times_confirmed_app, Hprogress.
  rewrite times_confirmed_final.
  2: { intros e He. destruct (sendPaymentConfirmedEmail pw); [|set_solver].
       apply list_elem_of_singleton in He as ->. done. }
  destruct (String.eqb_spec (job_orderId job) orderId) as [Heq|Hne].
  - rewrite <- Heq, monitored_stop_same.
    rewrite (monitored_registered (job_orderId job) reg); [lia|].
    rewrite (Htimers _ _ Hlive). eauto.
  - rewrite monitored_stop_other by done. lia.
Qed.

Lemma step_counts (orderId : string) op s :
  is_atomic op = true →
  consistent s.1 →
  (times_confirmed orderId (step required op s).2
   + monitored orderId (step required op s).1
   ≤ times_confirmed orderId s.2 + monitored orderId s.1
     + (if is_start_of orderId op then 1 else 0))%nat.
Proof.
  intros Hatomic Hs.
  destruct op as [id txHash chain io|id|intervalId pw|intervalId|callbackId pw];
    simpl; try discriminate Hatomic.
  - destruct (String.eqb_spec id orderId) as [->|Hne].
    + assert (monitored orderId
                (startConfirmationMonitoring orderId txHash chain io s.1) ≤ 1)%nat.
      { unfold monitored. case_bool_decide; lia. }
      lia.
    + assert (monitored orderId (startConfirmationMonitoring id txHash chain io s.1)
              = monitored orderId s.1) as ->; [|lia].
      unfold monitored, startConfirmationMonitoring.
      destruct (bool_decide (is_Some (monitoringJobs s.1 !! id))); [done|].
      simpl. by rewrite lookup_insert_ne.
  - pose proof (monitored_stop_le orderId id s.1). lia.
  - pose proof (poll_counts orderId pw intervalId s.1 Hs) as Hpoll.
    destruct (poll required pw intervalId s.1) as [reg effs]. cbn [fst snd] in *.
    rewrite times_confirmed_app. lia.
Qed.

Lemma run_counts (orderId : string) ops s :
  forallb is_atomic ops = true →
  consistent s.1 →
  (times_confirmed orderId (run required ops s).2
   + monitored orderId (run required ops s).1
   ≤ times_confirmed orderId s.2 + monitored orderId s.1
     + starts_of orderId ops)%nat.
Proof.
  revert s. induction ops as [|op ops IH]; intros s Hatomic Hs; [simpl; lia|].
  simpl in Hatomic. apply andb_true_iff in Hatomic as [Hop Hops].
  simpl. specialize (IH (step required op s) Hops (consistent_step required op s Hs)).
  pose proof (step_counts orderId op s Hop Hs) as Hstep.
  unfold starts_of in *. simpl.
  destruct (is_start_of orderId op); simpl; lia.
Qed.

Lemma unmonitored_stop (orderId id : string) (reg : Registry) :
  unmonitored orderId reg → unmonitored orderId (stopConfirmationMonitoring id reg).
Proof.
  intros [Htimers Hcbs]. unfold stopConfirmationMonitoring.
  destruct (monitoringJobs reg !! id); [|done].
  split; simpl; [|done].
  intros i job [_ Hi]%lookup_delete_Some. by apply (Htimers i).
Qed.

Lemma poll_other (orderId : string) pw intervalId reg :
  unmonitored orderId reg →
  unmonitored orderId (poll required pw intervalId reg).1
  ∧ times_confirmed orderId (poll required pw intervalId reg).2 = 0%nat.
Proof.
  intros Hreg.
  assert (∀ job, timers reg !! intervalId = Some job →
                 times_confirmed orderId (poll required pw intervalId reg).2 = 0%nat)
    as Heffects.
  { intros job Hlive. destruct Hreg as [Htimers _].
    pose proof (Htimers _ _ Hlive) as Hne. unfold poll. rewrite Hlive.
    destruct (getTransactionConfirmations pw) as [c|]; [|done].
    destruct (update_confirmations pw); [|done].
    pose proof (times_confirmed_progress orderId (job_orderId job) c (job_io job))
      as Hprogress.
    destruct (c >=? required); [|done].
    destruct (update_confirmed pw) as [order|]; [|done].
    cbn [fst snd]. rewrite times_confirmed_app, Hprogress, times_confirmed_final.
    - by apply String.eqb_neq in Hne as ->.
    - intros e He. destruct (sendPaymentConfirmedEmail pw); [|set_solver].
      apply list_elem_of_singleton in He as ->. done. }
  destruct (poll_registry required pw intervalId reg) as [Heq|(job & Hlive & Heq)].
  - rewrite Heq. split; [done|].
    destruct (timers reg !! intervalId) as [job|] eqn:Hlive; [by eapply Heffects|].
    by rewrite poll_cleared.
  - rewrite Heq. split; [by apply unmonitored_stop|by eapply Heffects].
Qed.

Lemma resume_other (orderId : string) pw callbackId reg :
  unmonitored orderId reg →
  unmonitored orderId (resume required pw callbackId reg).1
  ∧ times_confirmed orderId (resume required pw callbackId reg).2 = 0%nat.
Proof.
  intros [Htimers Hcbs]. unfold resume.
  destruct (callbacks reg !! callbackId) as [cb|] eqn:Hcb; [|done].
  pose proof (Forall_lookup_1 _ _ _ _ Hcbs Hcb) as Hne. simpl in Hne.
  assert (∀ stage,
            unmonitored orderId
              (with_callbacks
                 (<[callbackId := {| cb_job := cb_job cb; cb_stage := stage |}]>
                    (callbacks reg)) reg)) as Hsuspended.
  { intros stage. split; [done|]. simpl. by apply Forall_insert. }
  assert (unmonitored orderId
            (with_callbacks (delete callbackId (callbacks reg)) reg)) as Hended.
  { split; [done|]. simpl. by apply Forall_delete. }
  destruct (cb_stage cb) as [|c|c now|c order].
  - destruct (getTransactionConfirmations pw); cbn [fst snd];
      (split; [first [apply Hsuspended|apply Hended]|done]).
  - destruct (update_confirmations pw);
      [|cbn [fst snd]; split; [apply Hended|done]].
    pose proof (times_confirmed_progress orderId (job_orderId (cb_job cb)) c
                  (job_io (cb_job cb))) as Hprogress.
    destruct (c >=? required); cbn [fst snd];
      (split; [first [apply Hsuspended|apply Hended]|done]).
  - destruct (update_confirmed pw) as [order|];
      [|cbn [fst snd]; split; [apply Hended|done]].
    cbn [fst snd]. split; [apply Hsuspended|]. unfold times_confirmed. simpl.
    by apply String.eqb_neq in Hne as ->.
  - cbn [fst snd]. split; [by apply unmonitored_stop|].
    unfold times_confirmed. rewrite List.filter_app.
    destruct (sendPaymentConfirmedEmail pw), (job_io (cb_job cb)); done.
Qed.

Lemma step_other (orderId : string) op s :
  is_start_of orderId op = false →
  unmonitored orderId s.1 → times_confirmed orderId s.2 = 0%nat →
  unmonitored orderId (step required op s).1
  ∧ times_confirmed orderId (step required op s).2 = 0%nat.
Proof.
  intros Hop Hreg Hzero.
  destruct op as [id txHash chain io|id|intervalId pw|intervalId|callbackId pw];
    simpl.
  - split; [|done]. simpl in Hop. apply String.eqb_neq in Hop.
    unfold startConfirmationMonitoring. case_bool_decide; [done|].
    destruct Hreg as [Htimers Hcbs]. split; simpl; [|done].
    intros i job [[_ <-]|[_ Hi]]%lookup_insert_Some; [done|by apply (Htimers i)].
  - split; [by apply unmonitored_stop|done].
  - destruct (poll_other orderId pw intervalId s.1 Hreg) as [Hafter Heffs].
    destruct (poll required pw intervalId s.1) as [reg effs]. cbn [fst snd] in *.
    split; [done|]. rewrite times_confirmed_app. lia.
  - split; [|done]. unfold begin.
    destruct (timers s.1 !! intervalId) as [job|] eqn:Hlive; [|done].
    destruct Hreg as [Htimers Hcbs]. split; [done|]. simpl.
    apply Forall_app. split; [done|].
    apply Forall_singleton. simpl. by apply (Htimers intervalId).
  - destruct (resume_other orderId pw callbackId s.1 Hreg) as [Hafter Heffs].
    destruct (resume required pw callbackId s.1) as [reg effs]. cbn [fst snd] in *.
    split; [done|]. rewrite times_confirmed_app. lia.
Qed.

Lemma run_other (orderId : string) ops s :
  starts_of orderId ops = 0%nat →
  unmonitored orderId s.1 → times_confirmed orderId s.2 = 0%nat →
  times_confirmed orderId (run required ops s).2 = 0%nat.
Proof.
  revert s. induction ops as [|op ops IH]; intros s Hstarts Hreg Hzero; [done|].
  unfold starts_of in Hstarts. simpl in Hstarts.
  destruct (is_start_of orderId op) eqn:Hop; [done|].
  destruct (step_other orderId op s Hop Hreg Hzero) as [Hreg' Hzero'].
  simpl. by apply IH.
Qed.

(** The steps of a callback in flight, one await at a time. *)
Lemma resume_idle pw callbackId reg :
  callbacks reg !! callbackId = None →
  resume required pw callbackId reg = (reg, []).
Proof. intros Hcb. unfold resume. by rewrite Hcb. Qed.

Lemma resume_confirmations pw callbackId reg job :
  callbacks reg !! callbackId
  = Some {| cb_job := job; cb_stage := AwaitConfirmations |} →
  resume required pw callbackId reg
  = match getTransactionConfirmations pw with
    | Throw _ => (with_callbacks (delete callbackId (callbacks reg)) reg, [])
    | Ok c =>
        (with_callbacks
           (<[callbackId := {| cb_job := job; cb_stage := AwaitProgress c |}]>
              (callbacks reg)) reg, [])
    end.
Proof. intros Hcb. unfold resume. by rewrite Hcb. Qed.

Lemma resume_progress pw callbackId reg job c :
  callbacks reg !! callbackId
  = Some {| cb_job := job; cb_stage := AwaitProgress c |} →
  resume required pw callbackId reg
  = match update_confirmations pw with
    | Throw _ => (with_callbacks (delete callbackId (callbacks reg)) reg, [])
    | Ok _ =>
        (with_callbacks
           (if c >=? required
            then <[callbackId := {| cb_job := job;
                                    cb_stage := AwaitConfirmed c (poll_now pw) |}]>
                   (callbacks reg)
            else delete callbackId (callbacks reg)) reg,
         OrderUpdate (job_orderId job) (confirmations_patch c)
         :: (if job_io job
             then [SocketEmit (job_orderId job) "confirmation-update" c]
             else []))
    end.
Proof.
  intros Hcb. unfold resume. rewrite Hcb. simpl.
  destruct (update_confirmations pw); [|done]. by destruct (c >=? required).
Qed.

Lemma resume_confirmed pw callbackId reg job c now :
  callbacks reg !! callbackId
  = Some {| cb_job := job; cb_stage := AwaitConfirmed c now |} →
  resume required pw callbackId reg
  = match update_confirmed pw with
    | Throw _ => (with_callbacks (delete callbackId (callbacks reg)) reg, [])
    | Ok order =>
        (with_callbacks
           (<[callbackId := {| cb_job := job; cb_stage := AwaitEmail c order |}]>
              (callbacks reg)) reg,
         [OrderUpdate (job_orderId job) (confirmed_patch now)])
    end.
Proof. intros Hcb. unfold resume. by rewrite Hcb. Qed.

Lemma resume_email pw callbackId reg job c order :
  callbacks reg !! callbackId
  = Some {| cb_job := job; cb_stage := AwaitEmail c order |} →
  resume required pw callbackId reg
  = (stopConfirmationMonitoring (job_orderId job)
       (with_callbacks (delete callbackId (callbacks reg)) reg),
     match sendPaymentConfirmedEmail pw with
     | Ok _ => [EmailPaymentConfirmed (customerEmail order) (job_orderId job)
                  (totalAmount order) (job_txHash job)]
     | Throw _ => []
     end
     ++ (if job_io job
         then [SocketEmit (job_orderId job) "payment-confirmed" c]
         else [])).
Proof. intros Hcb. unfold resume. by rewrite Hcb. Qed.

Lemma step_resume pw callbackId reg effs :
  step required (Resume callbackId pw) (reg, effs)
  = ((resume required pw callbackId reg).1,
     effs ++ (resume required pw callbackId reg).2).
Proof. simpl. by destruct (resume required pw callbackId reg). Qed.

(** Three steps take a callback from its first await to its last when the
    ledger answers with enough confirmations and the order store answers:
    the order is then marked confirmed, whatever else is in flight. *)
Lemma resume_to_email pw callbackId reg effs job c order :
  callbacks reg !! callbackId
  = Some {| cb_job := job; cb_stage := AwaitConfirmations |} →
  getTransactionConfirmations pw = Ok c →
  update_confirmations pw = Ok tt →
  update_confirmed pw = Ok order →
  required ≤ c →
  run required [Resume callbackId pw; Resume callbackId pw; Resume callbackId pw]
    (reg, effs)
  = (with_callbacks
       (<[callbackId := {| cb_job := job; cb_stage := AwaitEmail c order |}]>
          (callbacks reg)) reg,
     effs ++ (OrderUpdate (job_orderId job) (confirmations_patch c)
              :: (if job_io job
                  then [SocketEmit (job_orderId job) "confirmation-update" c]
                  else []))
          ++ [OrderUpdate (job_orderId job) (confirmed_patch (poll_now pw))]).
Proof.
  intros Hcb Hask Hfirst Hsecond Hreached.
  assert (callbackId < length (callbacks reg))%nat as Hlt
    by (apply lookup_lt_is_Some; eauto).
  assert ((c >=? required) = true) as Hge by (apply Z.geb_le; lia).
  unfold run. cbn [foldl].
  rewrite step_resume, (resume_confirmations _ _ _ job Hcb), Hask. cbn [fst snd].
  rewrite step_resume, (resume_progress _ _ _ job c), Hfirst, Hge;
    [|apply list_lookup_insert_eq; done].
  cbn [fst snd callbacks with_callbacks].
  rewrite step_resume, (resume_confirmed _ _ _ job c (poll_now pw)), Hsecond;
    [|apply list_lookup_insert_eq; by rewrite length_insert].
  cbn [fst snd callbacks with_callbacks].
  rewrite !list_insert_insert_eq, app_nil_r, <- app_assoc. done.
Qed.

(** X24. The monitor marks an order confirmed only after monitoring was
    started for it. In a run where the callback of every firing ends before
    the next call or firing, an order is marked confirmed at most once per
    start: the number of times it was marked, plus the number of its live
    intervals, never exceeds the number of calls of
    [startConfirmationMonitoring] for it. Such a firing is the callback run
    from its start through its four awaits. The callback is asynchronous,
    though, and the job is stopped only after its last await: when the
    interval fires again while a callback waits, both callbacks mark the
    order confirmed, after one start. *)
Theorem confirmations_per_start (orderId : string) :
  (∀ ops,
     starts_of orderId ops = 0%nat →
     times_confirmed orderId (run required ops (empty_registry, [])).2 = 0%nat)
  ∧ (∀ ops,
       forallb is_atomic ops = true →
       let s := run required ops (empty_registry, []) in
       (times_confirmed orderId s.2 + length (jobs_of orderId s.1)
        ≤ starts_of orderId ops)%nat)
  ∧ (∀ reg effs intervalId pw,
       let k := length (callbacks reg) in
       run required
         [Begin intervalId; Resume k pw; Resume k pw; Resume k pw; Resume k pw]
         (reg, effs)
       = step required (Fire intervalId pw) (reg, effs))
  ∧ (∀ txHash chain io now order,
       let ops := overlapping orderId txHash chain io (answers required now order) in
       starts_of orderId ops = 1%nat
       ∧ times_confirmed orderId (run required ops (empty_registry, [])).2 = 2%nat).
Proof.
  split; [|split; [|split]].
  - intros ops Hstarts. apply run_other; [done| |done].
    split; [|done]. simpl. intros i job. by rewrite lookup_empty.
  - intros ops Hatomic s.
    pose proof (run_counts orderId ops (empty_registry, []) Hatomic consistent_empty)
      as Hrun.
    pose proof (consistent_run required ops (empty_registry, []) consistent_empty)
      as Hcons.
    fold s in Hrun, Hcons. simpl in Hrun.
    assert (length (jobs_of orderId s.1) ≤ monitored orderId s.1)%nat as Hjobs.
    { unfold monitored. case_bool_decide as Hjob.
      - by apply jobs_of_at_most_one.
      - rewrite jobs_of_unregistered; [done|done|].
        destruct (monitoringJobs s.1 !! orderId) eqn:E; [|done].
        exfalso. apply Hjob. eauto. }
    assert (times_confirmed orderId [] = 0%nat) as Hzero by done.
    assert (monitored orderId empty_registry = 0%nat) as Hempty.
    { unfold monitored. rewrite bool_decide_eq_false_2; [done|].
      simpl. rewrite lookup_empty. by intros [? ?]. }
    lia.
  - intros reg effs intervalId pw k. subst k.
    set (cbs := callbacks reg).
    assert (with_callbacks cbs reg = reg) as Hsame by (subst cbs; by destruct reg).
    assert (∀ e, step required (Resume (length cbs) pw) (reg, e) = (reg, e))
      as Hidle.
    { intros e. rewrite step_resume, resume_idle; [by rewrite app_nil_r|].
      apply lookup_ge_None_2. subst cbs. lia. }
    unfold run. cbn [foldl].
    change (step required (Begin intervalId) (reg, effs))
      with (begin intervalId reg, effs).
    change (step required (Fire intervalId pw) (reg, effs))
      with (let '(r, e) := poll required pw intervalId reg in (r, effs ++ e)).
    unfold begin, poll.
    destruct (timers reg !! intervalId) as [job|].
    2: { rewrite !Hidle. by rewrite app_nil_r. }
    fold cbs.
    set (at_stage := fun stage =>
           with_callbacks (cbs ++ [{| cb_job := job; cb_stage := stage |}]) reg).
    assert (∀ stage, callbacks (at_stage stage) !! length cbs
                     = Some {| cb_job := job; cb_stage := stage |}) as Hlookup.
    { intros stage. simpl. by rewrite lookup_app_r, Nat.sub_diag by lia. }
    assert (∀ stage stage',
              with_callbacks
                (<[length cbs := {| cb_job := job; cb_stage := stage' |}]>
                   (callbacks (at_stage stage))) (at_stage stage)
              = at_stage stage') as Hnext.
    { intros stage stage'. unfold at_stage, with_callbacks. simpl. f_equal.
      clear. induction cbs as [|cb cbs IH]; [done|]. simpl. by rewrite IH. }
    assert (∀ stage,
              with_callbacks (delete (length cbs) (callbacks (at_stage stage)))
                (at_stage stage) = reg) as Hend.
    { intros stage. transitivity (with_callbacks cbs reg); [|exact Hsame].
      unfold at_stage, with_callbacks. simpl. f_equal.
      clear. induction cbs as [|cb cbs IH]; [done|]. simpl. by rewrite IH. }
    fold (at_stage AwaitConfirmations).
    rewrite step_resume, (resume_confirmations _ _ _ job (Hlookup _)).
    destruct (getTransactionConfirmations pw) as [c|]; cbn [fst snd].
    2: { rewrite Hend, !Hidle. done. }
    rewrite Hnext, step_resume, (resume_progress _ _ _ job c (Hlookup _)).
    destruct (update_confirmations pw); cbn [fst snd].
    2: { rewrite Hend, !Hidle. by rewrite !app_nil_r. }
    destruct (c >=? required).
    2: { rewrite Hend, !Hidle. by rewrite !app_nil_r. }
    rewrite Hnext, step_resume,
      (resume_confirmed _ _ _ job c (poll_now pw) (Hlookup _)).
    destruct (update_confirmed pw) as [order|]; cbn [fst snd].
    2: { rewrite Hend, Hidle. by rewrite !app_nil_r. }
    rewrite Hnext, step_resume, (resume_email _ _ _ job c order (Hlookup _)).
    cbn [fst snd]. rewrite Hend. f_equal.
    rewrite !app_nil_r, <- !app_assoc. done.
  - intros txHash chain io now order ops. subst ops.
    split.
    { unfold starts_of, overlapping. simpl. by rewrite String.eqb_refl. }
    set (job := {| job_orderId := orderId; job_txHash := txHash;
                   job_chain := chain; job_io := io |}).
    set (cb := {| cb_job := job; cb_stage := AwaitConfirmations |}).
    assert (∃ reg, run required [Start orderId txHash chain io; Begin 0; Begin 0]
                     (empty_registry, []) = (reg, [])
                   ∧ callbacks reg = [cb; cb]) as (reg & Hstart & Hcbs).
    { eexists. split; [|shelve]. unfold run. cbn [foldl step fst snd].
      unfold startConfirmationMonitoring. simpl.
      rewrite bool_decide_eq_false_2
        by (rewrite lookup_empty; by intros [? ?]).
      unfold begin. simpl. rewrite lookup_insert_eq. simpl.
      rewrite lookup_insert_eq. reflexivity.
      Unshelve. done. }
    unfold overlapping.
    change [Start orderId txHash chain io; Begin 0; Begin 0;
            Resume 0 (answers required now order);
            Resume 0 (answers required now order);
            Resume 0 (answers required now order);
            Resume 1 (answers required now order);
            Resume 1 (answers required now order);
            Resume 1 (answers required now order)]
      with ([Start orderId txHash chain io; Begin 0; Begin 0]
            ++ [Resume 0 (answers required now order);
                Resume 0 (answers required now order);
                Resume 0 (answers required now order)]
            ++ [Resume 1 (answers required now order);
                Resume 1 (answers required now order);
                Resume 1 (answers required now order)]).
    unfold run in *. rewrite !foldl_app. rewrite Hstart.
    fold (run required).
    pose proof (resume_to_email (answers required now order) 0 reg [] job
                  required order) as Hfirst.
    unfold run in Hfirst. rewrite Hfirst; [|by rewrite Hcbs|done|done|done|lia].
    pose proof (resume_to_email (answers required now order) 1
                  (with_callbacks
                     (<[0%nat := {| cb_job := job;
                                    cb_stage := AwaitEmail required order |}]>
                        (callbacks reg)) reg)) as Hsecond.
    unfold run in Hsecond.
    erewrite Hsecond; [|by rewrite Hcbs|done|done|done|lia].
    cbn [snd]. rewrite !times_confirmed_app.
    rewrite !times_confirmed_progress.
    unfold times_confirmed. simpl. by rewrite String.eqb_refl.
Qed.

(** X25. One firing of a live interval marks the order confirmed and
    deregisters the job exactly when the ledger answers with at least the
    required number of confirmations and both writes to the order store
    succeed; a failure of the mailer does not matter. In every other case
    the job stays registered as it was, and when the ledger or the first
    write fails nothing at all is written or emitted. *)
Theorem poll_confirms_iff pw intervalId reg job :
  timers reg !! intervalId = Some job →
  let out := poll required pw intervalId reg in
  let reached :=
    ∃ confirmations order,
      getTransactionConfirmations pw = Ok confirmations
      ∧ update_confirmations pw = Ok tt
      ∧ required ≤ confirmations
      ∧ update_confirmed pw = Ok order in
  (times_confirmed (job_orderId job) out.2 = 1%nat ↔ reached)
  ∧ (reached → out.1 = stopConfirmationMonitoring (job_orderId job) reg)
  ∧ (¬ reached →
     out.1 = reg ∧ times_confirmed (job_orderId job) out.2 = 0%nat)
  ∧ (is_Ok (getTransactionConfirmations pw) = false
     ∨ is_Ok (update_confirmations pw) = false → out = (reg, [])).
Proof.
  intros Hlive out reached. subst out reached. unfold poll. rewrite Hlive.
  destruct (getTransactionConfirmations pw) as [c|error] eqn:Hask.
  2: { simpl. split; [split; [done|by intros (? & ? & ? & _)]|].
       split; [by intros (? & ? & ? & _)|]. done. }
  destruct (update_confirmations pw) as [[]|error] eqn:Hfirst.
  2: { simpl. split; [split; [done|by intros (? & ? & _ & ? & _)]|].
       split; [by intros (? & ? & _ & ? & _)|]. done. }
  pose proof (times_confirmed_progress (job_orderId job) (job_orderId job) c
                (job_io job)) as Hprogress.
  destruct (Z.geb_spec c required) as [Hge|Hlt].
  2: { cbn [fst snd]. rewrite Hprogress.
       split; [split; [done|intros (c' & ? & [= <-] & _ & ? & _); lia]|].
       split; [intros (c' & ? & [= <-] & _ & ? & _); lia|].
       split; [done|]. by intros [|]. }
  destruct (update_confirmed pw) as [order|error] eqn:Hsecond.
  2: { cbn [fst snd]. rewrite Hprogress.
       split; [split; [done|by intros (? & ? & _ & _ & _ & ?)]|].
       split; [by intros (? & ? & _ & _ & _ & ?)|].
       split; [done|]. by intros [|]. }
  cbn [fst snd]. rewrite times_confirmed_app, Hprogress, times_confirmed_final.
  2: { intros e He. destruct (sendPaymentConfirmedEmail pw); [|set_solver].
       apply list_elem_of_singleton in He as ->. done. }
  rewrite String.eqb_refl.
  assert (∃ confirmations order0,
            Ok c = Ok confirmations ∧ Ok tt = Ok tt
            ∧ required ≤ confirmations
            ∧ @Ok Order order = Ok order0) as Hreached
    by (exists c, order; repeat split; lia).
  split; [done|]. split; [done|]. split; [by intros []|]. by intros [|].
Qed.

End MonitorRunProperties.

(** X25 on a registered job when the mailer is down: the order is marked
    confirmed and the job is deregistered all the same. *)
Lemma poll_confirms_iff_witness :
  let reg := ConfirmationMonitor.startConfirmationMonitoring "order-1" Sample.tx
               "ethereum" true ConfirmationMonitor.empty_registry in
  let out := ConfirmationMonitor.poll 12
               (MonitorRuns.mailer_down 12 1700000700000 Sample.order_row) 0 reg in
  ConfirmationMonitor.getActiveMonitoringJobs out.1 = []
  ∧ ConfirmationMonitor.times_confirmed "order-1" out.2 = 1%nat.
Proof.
  intros reg out.
  destruct (poll_confirms_iff 12
              (MonitorRuns.mailer_down 12 1700000700000 Sample.order_row) 0 reg
              {| ConfirmationMonitor.job_orderId := "order-1";
                 ConfirmationMonitor.job_txHash := Sample.tx;
                 ConfirmationMonitor.job_chain := "ethereum";
                 ConfirmationMonitor.job_io := true |} eq_refl)
    as ([_ Hconfirmed] & Hstopped & _).
  assert (∃ confirmations order,
            ConfirmationMonitor.getTransactionConfirmations
              (MonitorRuns.mailer_down 12 1700000700000 Sample.order_row)
            = Ok confirmations
            ∧ ConfirmationMonitor.update_confirmations
                (MonitorRuns.mailer_down 12 1700000700000 Sample.order_row) = Ok tt
            ∧ 12 ≤ confirmations
            ∧ ConfirmationMonitor.update_confirmed
                (MonitorRuns.mailer_down 12 1700000700000 Sample.order_row)
              = Ok order) as Hreached
    by (exists 12, Sample.order_row; repeat split; lia).
  subst out. split.
  - rewrite (Hstopped Hreached). by vm_compute.
  - exact (Hconfirmed Hreached).
Defined.

(** ** Login and the pages of the order list *)
Section AdminProperties.

Import AdminController.

Variable findUnique : option string -> Result (option Admin).
Variable compare : option string -> string -> Result bool.
Variable jwt_sign : AuthMiddleware.User -> option string -> Result string.
Variable jwt_verify : string -> option string -> Result AuthMiddleware.User.
Variable JWT_SECRET : option string.

(** X26. [login] issues a token exactly when the store has an
    administrator under the e-mail address, [bcrypt.compare] accepts the
    password against the stored hash, and signing succeeds. An unknown
    address and a wrong password get the same answer. When [jwt.verify]
    accepts the tokens [jwt.sign] makes, the token of a login passes the
    middleware, which attaches the identifier, address and role of that
    administrator. *)
Theorem login_then_auth (body : option Credentials) :
  (∀ token id email name role,
     login findUnique compare jwt_sign JWT_SECRET body
     = LoggedIn token id email name role
     ↔ ∃ credentials admin,
         body = Some credentials
         ∧ findUnique (cred_email credentials) = Ok (Some admin)
         ∧ compare (cred_password credentials) (passwordHash admin) = Ok true
         ∧ jwt_sign (payload admin) JWT_SECRET = Ok token
         ∧ id = admin_id admin ∧ email = admin_email admin
         ∧ name = admin_name admin ∧ role = admin_role admin)
  ∧ (∀ credentials,
       body = Some credentials →
       findUnique (cred_email credentials) = Ok None
       ∨ (∃ admin, findUnique (cred_email credentials) = Ok (Some admin)
                   ∧ compare (cred_password credentials) (passwordHash admin)
                     = Ok false) →
       login findUnique compare jwt_sign JWT_SECRET body
       = LoginError 401 "Invalid credentials")
  ∧ (verifies_own_tokens jwt_sign jwt_verify →
     ∀ token id email name role,
       login findUnique compare jwt_sign JWT_SECRET body
       = LoggedIn token id email name role →
       AuthMiddleware.authMiddleware jwt_verify JWT_SECRET
         (Some ("Bearer " +:+ token))
       = AuthMiddleware.Next
           {| AuthMiddleware.id := Some id; AuthMiddleware.email := Some email;
              AuthMiddleware.role := Some role |}).
Proof.
  assert (∀ token id email name role,
            login findUnique compare jwt_sign JWT_SECRET body
            = LoggedIn token id email name role
            ↔ ∃ credentials admin,
                body = Some credentials
                ∧ findUnique (cred_email credentials) = Ok (Some admin)
                ∧ compare (cred_password credentials) (passwordHash admin) = Ok true
                ∧ jwt_sign (payload admin) JWT_SECRET = Ok token
                ∧ id = admin_id admin ∧ email = admin_email admin
                ∧ name = admin_name admin ∧ role = admin_role admin) as Hlogin.
  { intros token id email name role. unfold login. split.
    - destruct body as [credentials|]; [|done].
      destruct (findUnique (cred_email credentials)) as [[admin|]|] eqn:Hfind;
        [|done|done].
      destruct (compare _ _) as [[]|] eqn:Hcompare; [|done|done].
      destruct (jwt_sign _ _) as [token'|] eqn:Hsign; [|done].
      intros [= <- <- <- <- <-]. by exists credentials, admin.
    - intros (credentials & admin & -> & -> & -> & -> & -> & -> & -> & ->). done. }
  split; [done|]. split.
  - intros credentials -> [Hnone|(admin & Hfind & Hwrong)]; unfold login.
    + by rewrite Hnone.
    + by rewrite Hfind, Hwrong.
  - intros Hjwt token id email name role
      (credentials & admin & _ & _ & _ & Hsign & -> & -> & _ & ->)%Hlogin.
    unfold AuthMiddleware.authMiddleware.
    assert (String.prefix "Bearer " ("Bearer " +:+ token) = true) as ->
      by (apply prefix_app; by eexists).
    change 7%nat with (String.length "Bearer ").
    rewrite drop_chars_app. simpl. by rewrite (Hjwt _ _ _ Hsign).
Qed.

End AdminProperties.

Section PaginationProperties.

Import JsNumber OrderController.

Lemma round_to_double_small (z : Z) : 0 ≤ z < 2 ^ 53 → round_to_double z = z.
Proof.
  intros Hz. unfold round_to_double.
  destruct (Z.leb_spec (Z.log2 z + 1) 53) as [_|Hbits]; [done|].
  assert (Z.log2 z < 53); [|lia].
  destruct (decide (z = 0)) as [->|]; [done|]. apply Z.log2_lt_pow2; lia.
Qed.

Lemma infinity_large : 2 ^ 53 < infinity.
Proof. unfold infinity. apply Z.pow_lt_mono_r; lia. Qed.

Lemma integer_small (z : Z) : Z.abs z < 2 ^ 53 → integer z = z.
Proof.
  intros Hz. unfold integer. pose proof infinity_large.
  rewrite round_to_double_small by lia. lia.
Qed.

Lemma is_infinite_small (z : Z) : Z.abs z < 2 ^ 53 → is_infinite z = false.
Proof.
  intros Hz. unfold is_infinite. pose proof infinity_large.
  apply Z.leb_gt. lia.
Qed.

(** The two values of the rounding of a number of more than 53 bits. *)
Lemma round_to_double_large (z : Z) :
  2 ^ 53 ≤ z →
  let e := Z.log2 z - 52 in
  let q := z / 2 ^ e in
  let r := z mod 2 ^ e in
  1 ≤ e ∧ 2 ^ 52 ≤ q
  ∧ (round_to_double z = q * 2 ^ e ∨ round_to_double z = (q + 1) * 2 ^ e)
  ∧ (r = 0 → round_to_double z = q * 2 ^ e)
  ∧ (2 ^ (e - 1) < r → round_to_double z = (q + 1) * 2 ^ e).
Proof.
  intros Hz e q r.
  assert (53 ≤ Z.log2 z) as Hlog by (apply Z.log2_le_pow2; lia).
  assert (1 ≤ e) as He by (unfold e; lia).
  pose proof (Z.log2_spec z ltac:(lia)) as [Hlow _].
  assert (2 ^ Z.log2 z = 2 ^ 52 * 2 ^ e) as Hsplit.
  { rewrite <- Z.pow_add_r by lia. f_equal. unfold e. lia. }
  assert (0 < 2 ^ e) as Hpos by (apply Z.pow_pos_nonneg; lia).
  assert (0 < 2 ^ (e - 1)) as Hhalf by (apply Z.pow_pos_nonneg; lia).
  assert (2 ^ 52 ≤ q) as Hq.
  { unfold q. apply Z.div_le_lower_bound; lia. }
  unfold round_to_double.
  destruct (Z.leb_spec (Z.log2 z + 1) 53) as [?|_]; [lia|].
  replace (Z.log2 z + 1 - 53) with e by (unfold e; lia).
  fold q r. split; [done|]. split; [done|]. split; [|split].
  - destruct ((2 ^ (e - 1) <? r) || (r =? 2 ^ (e - 1)) && Z.odd q); auto.
  - intros ->. destruct (Z.ltb_spec (2 ^ (e - 1)) 0) as [?|_]; [lia|].
    destruct (Z.eqb_spec 0 (2 ^ (e - 1))) as [?|_]; [lia|]. done.
  - intros Hr. by destruct (Z.ltb_spec (2 ^ (e - 1)) r) as [_|?]; [|lia].
Qed.

Lemma ceil_unique (n S c : Z) : 0 < S → (c - 1) * S < n ≤ c * S → - (- n / S) = c.
Proof.
  intros HS Hn.
  pose proof (Z.div_mod (- n) S ltac:(lia)) as Hdiv.
  pose proof (Z.mod_pos_bound (- n) S HS) as Hmod. nia.
Qed.

Lemma ceil_quotient_exact (a b : Z) :
  0 ≤ a < 2 ^ 53 → 0 < b < 2 ^ 53 → ceil_quotient a b = - (- a / b).
Proof.
  intros Ha Hb. unfold ceil_quotient.
  rewrite is_infinite_small by lia.
  rewrite (Z.abs_eq a), (Z.abs_eq b) by lia.
  destruct (Z.leb_spec 0 (Z.sgn a * Z.sgn b)) as [_|?]; [|lia].
  set (c := - (- a / b)).
  assert ((c - 1) * b < a ≤ c * b) as Hc.
  { unfold c. pose proof (Z.div_mod (- a) b ltac:(lia)) as Hdiv.
    pose proof (Z.mod_pos_bound (- a) b ltac:(lia)) as Hmod. nia. }
  clearbody c.
  set (L := Z.log2 b).
  pose proof (Z.log2_spec b ltac:(lia)) as Hlog. fold L in Hlog.
  pose proof (Z.log2_nonneg b) as HL. fold L in HL. clearbody L.
  rewrite Z.pow_succ_r in Hlog by lia.
  set (P := 2 ^ (L + 56)).
  assert (P = 2 ^ L * 2 ^ 56) as HP by (unfold P; by rewrite Z.pow_add_r by lia).
  assert (2 ^ (L + 56 + 1) = 2 * P) as HS.
  { unfold P. rewrite (Z.pow_add_r 2 (L + 56) 1) by lia. lia. }
  rewrite HS.
  assert (0 < P ∧ b * 2 ^ 55 < P) as [HPpos HPb].
  { rewrite HP. change (2 ^ 56) with (2 * 2 ^ 55).
    assert (0 < 2 ^ 55) by done. assert (0 < 2 ^ L) by (apply Z.pow_pos_nonneg; lia).
    nia. }
  set (Q := a * P / b). set (R := (a * P) mod b).
  pose proof (Z.div_mod (a * P) b ltac:(lia)) as Hdiv. fold Q R in Hdiv.
  pose proof (Z.mod_pos_bound (a * P) b ltac:(lia)) as Hmod. fold R in Hmod.
  set (s := if R =? 0 then 0 else 1).
  assert (0 ≤ s ≤ 1 ∧ (R = 0 → s = 0)) as [Hs Hs0].
  { unfold s. destruct (Z.eqb_spec R 0); lia. }
  clearbody s Q R.
  apply ceil_unique; [lia|].
  destruct Ha as [Ha0 Ha], Hb as [Hb0 Hb].
  destruct (decide (a = 0)) as [Hzero|Hpos].
  { subst a. rewrite Z.mul_0_l in Hdiv.
    assert (c = 0) as -> by (clear - Hc Hb0; nia).
    assert (Q = 0) as -> by (clear - Hdiv Hmod Hb0; nia).
    assert (R = 0) as -> by lia.
    rewrite Hs0 by done. change (round_to_double (2 * 0 + 0)) with 0. lia. }
  assert (1 ≤ c ≤ a) as Hc1 by (clear - Hc Hb0 Hpos Ha0; nia).
  assert (Q ≤ c * P) as HQtop by (clear - Hc Hdiv Hmod Hb0 HPpos; nia).
  assert (Q = c * P → R = 0) as Htop by (clear - Hc Hdiv Hmod Hb0 HPpos; nia).
  assert ((c - 1) * P + 2 ^ 55 ≤ Q) as Hlower.
  { assert (0 < 2 ^ 55) as H55 by done. clear - Hc Hdiv Hmod Hb0 HPb H55.
    set (K := 2 ^ 55) in *. clearbody K. nia. }
  (* the strict bound that decides the rounding at the lower end *)
  assert ((c - 1) * P < (2 * (Q - (c - 1) * P)) * 2 ^ 52) as Hstrict.
  { assert (2 ^ 53 = 2 * 2 ^ 52) as H53 by done.
    assert (2 ^ 55 = 8 * 2 ^ 52) as H55 by done.
    assert (0 < 2 ^ 52) as H52 by done.
    rewrite H53 in Ha, Hb. rewrite H55 in HPb.
    clear - Hc Hdiv Hmod Hb0 HPb H52 Ha Hc1 HPpos.
    set (K := 2 ^ 52) in *. clearbody K.
    assert (P - b < b * (Q - (c - 1) * P)) as H1 by nia.
    assert (b * (c - 1) ≤ 2 * K - 2) as H2 by nia.
    assert (b * ((c - 1) * P) ≤ (2 * K - 2) * P) as H3 by nia.
    assert ((2 * K - 2) * P < b * (2 * (Q - (c - 1) * P) * K)) as H4 by nia.
    nia. }
  assert (2 * Q + s ≤ c * (2 * P)) as Hupper.
  { destruct (decide (Q = c * P)) as [HQ|HQ]; [rewrite Hs0 by auto|]; lia. }
  set (z := 2 * Q + s) in *.
  assert (2 ^ 53 ≤ z) as Hz.
  { assert (2 ^ 53 ≤ 2 * 2 ^ 55) by done. unfold z. nia. }
  destruct (round_to_double_large z Hz) as (He & Hq & Hcases & Hexact & Hup).
  pose proof (Z.log2_spec z ltac:(lia)) as [Hzlow Hzhigh].
  set (e := Z.log2 z - 52) in *.
  assert (Z.log2 z = 52 + e) as Hlogz by (unfold e; lia).
  clearbody e. rewrite Hlogz in Hzlow, Hzhigh. clear Hlogz.
  rewrite Z.pow_add_r in Hzlow by lia.
  rewrite Z.pow_succ_r, Z.pow_add_r in Hzhigh by lia.
  assert (0 < 2 ^ e) as HE by (apply Z.pow_pos_nonneg; lia).
  pose proof (Z.div_mod z (2 ^ e) ltac:(lia)) as Hzdiv.
  pose proof (Z.mod_pos_bound z (2 ^ e) HE) as Hr.
  set (q := z / 2 ^ e) in *. set (r := z mod 2 ^ e) in *. clearbody q r.
  assert (e ≤ L + 57) as Hek.
  { destruct (Z.le_gt_cases e (L + 57)) as [|Hgt]; [done|]. exfalso.
    assert (2 ^ (L + 58) ≤ 2 ^ e) as Hbig by (apply Z.pow_le_mono_r; lia).
    replace (2 ^ (L + 58)) with (4 * P) in Hbig
      by (rewrite HP, (Z.pow_add_r 2 L 58) by lia;
          change (2 ^ 58) with (4 * 2 ^ 56); lia).
    assert (2 ^ 53 = 2 * 2 ^ 52) as H53 by done.
    assert (0 < 2 ^ 52) as H52 by done. rewrite H53 in Ha.
    clear - Hbig Hupper Hzlow Hc1 Ha HPpos H52.
    set (K := 2 ^ 52) in *. set (E := 2 ^ e) in *. clearbody K E z. nia. }
  set (T := 2 ^ (L + 57 - e)).
  assert (0 < T) as HT by (apply Z.pow_pos_nonneg; lia).
  assert (2 * P = T * 2 ^ e) as HPT.
  { unfold T. rewrite <- Z.pow_add_r by lia. rewrite <- HS. f_equal. lia. }
  assert (2 ^ e = 2 * 2 ^ (e - 1)) as Hhalf.
  { replace e with (1 + (e - 1)) at 1 by lia. rewrite Z.pow_add_r by lia. lia. }
  clearbody T.
  assert (0 < 2 ^ 52) as H52 by done.
  assert (2 ^ 55 = 8 * 2 ^ 52) as H55 by done. rewrite H55 in Hlower.
  set (K := 2 ^ 52) in *. set (E := 2 ^ e) in *. set (H := 2 ^ (e - 1)) in *.
  clearbody K E H.
  split.
  - assert ((c - 1) * T ≤ q) as Hqlow.
    { clear - Hzdiv Hr HPT Hlower Hs HE H52 HT. unfold z in Hzdiv. nia. }
    destruct (decide (q = (c - 1) * T)) as [Hq'|Hq'].
    + rewrite Hup.
      * clear - HPT Hq' HE. nia.
      * clear - Hstrict Hq Hq' HPT Hzdiv Hr Hs Hhalf H52 HE HT. unfold z in Hzdiv.
        nia.
    + clear - Hcases Hqlow Hq' HPT HE. destruct Hcases as [-> | ->]; nia.
  - rewrite HPT in Hupper. destruct (decide (q = c * T)) as [Hq'|Hq'].
    + assert (r = 0) by (clear - Hupper Hzdiv Hr Hq'; nia).
      rewrite Hexact by done. clear - Hq' HPT. nia.
    + assert (q < c * T) by (clear - Hupper Hzdiv Hr Hq' HE; nia).
      clear - Hcases H0 HPT HE. destruct Hcases as [-> | ->]; nia.
Qed.

Lemma parseInt_or_nonzero (q : option string) (dflt : Z) :
  dflt ≠ 0 → parseInt_or q dflt ≠ 0.
Proof.
  intros Hdflt. unfold parseInt_or.
  destruct (q ≫= JsBuiltins.parseInt) as [n|]; [|done].
  by destruct (Z.eqb_spec n 0).
Qed.

Lemma parseInt_or_default (q : option string) (dflt : Z) :
  q = None ∨ q ≫= JsBuiltins.parseInt = None
  ∨ q ≫= JsBuiltins.parseInt = Some 0 →
  parseInt_or q dflt = dflt.
Proof.
  unfold parseInt_or. by intros [-> | [-> | ->]].
Qed.

Lemma parseInt_or_parsed (q : option string) (dflt n : Z) :
  q ≫= JsBuiltins.parseInt = Some n → n ≠ 0 → parseInt_or q dflt = n.
Proof.
  unfold parseInt_or. intros -> Hn. by destruct (Z.eqb_spec n 0).
Qed.

Lemma ceil_div_spec (a b q : Z) : 0 < b → (q ≤ - (- a / b) ↔ (q - 1) * b < a).
Proof.
  intros Hb.
  pose proof (Z.div_mod (- a) b ltac:(lia)) as Hdiv.
  pose proof (Z.mod_pos_bound (- a) b Hb) as Hmod.
  split; intros Hq; nia.
Qed.

(** X27. The page and the page size [listOrders] uses are never 0: an
    absent, unreadable or zero parameter gives page 1 and size 20, and any
    other one gives the number read. While the page, the size, the start of
    the window and the number of matching orders are below 2 to the 53, the
    arithmetic of the language is exact: the window starts at the product
    of the size and the pages before, and the page count it reports agrees
    with the windows it asks for: a page is at most the page count exactly
    when its window starts before the end of the matches, and every match
    lies in the window of exactly one page, which is between 1 and the page
    count. *)
Theorem listOrders_pagination (query_page query_limit : option string) (total : Z) :
  let p := pagination query_page query_limit total in
  page p ≠ 0 ∧ limit p ≠ 0
  ∧ (query_page = None ∨ query_page ≫= JsBuiltins.parseInt = None
     ∨ query_page ≫= JsBuiltins.parseInt = Some 0 → page p = 1)
  ∧ (query_limit = None ∨ query_limit ≫= JsBuiltins.parseInt = None
     ∨ query_limit ≫= JsBuiltins.parseInt = Some 0 → limit p = 20)
  ∧ (∀ n, query_page ≫= JsBuiltins.parseInt = Some n → n ≠ 0 → page p = n)
  ∧ (∀ n, query_limit ≫= JsBuiltins.parseInt = Some n → n ≠ 0 → limit p = n)
  ∧ take p = limit p
  ∧ (1 ≤ page p < 2 ^ 53 → 0 < limit p < 2 ^ 53 →
     (page p - 1) * limit p < 2 ^ 53 → 0 ≤ total < 2 ^ 53 →
     skip p = Some ((page p - 1) * limit p)
     ∧ (page p ≤ totalPages p ↔ (page p - 1) * limit p < total)
     ∧ ∀ i, 0 ≤ i < total →
         ∀ n, 1 ≤ n ≤ totalPages p ∧ (n - 1) * limit p ≤ i < (n - 1) * limit p + take p
              ↔ n = i / limit p + 1).
Proof.
  intros p. subst p. unfold pagination. cbn [page limit skip take totalPages].
  split; [by apply parseInt_or_nonzero|]. split; [by apply parseInt_or_nonzero|].
  split; [apply parseInt_or_default|]. split; [apply parseInt_or_default|].
  split; [intros n; apply parseInt_or_parsed|].
  split; [intros n; apply parseInt_or_parsed|]. split; [done|].
  set (l := parseInt_or query_limit 20). set (g := parseInt_or query_page 1).
  clearbody l g. intros Hg Hl Hskip Htotal.
  rewrite ceil_quotient_exact by done.
  assert (0 ≤ (g - 1) * l) as Hstart by nia.
  split; [|split].
  - unfold sub, mul. rewrite (is_infinite_small g), (is_infinite_small 1) by lia.
    rewrite (integer_small (g - 1)) by lia. cbn [mbind option_bind].
    rewrite (is_infinite_small (g - 1)), (is_infinite_small l) by lia.
    cbn [orb]. by rewrite integer_small by lia.
  - apply ceil_div_spec. lia.
  - intros i Hi n.
    pose proof (Z.div_mod i l ltac:(lia)) as Hdiv.
    pose proof (Z.mod_pos_bound i l ltac:(lia)) as Hmod.
    rewrite (ceil_div_spec total l n) by lia. split.
    + intros [_ Hwindow]. nia.
    + intros ->. nia.
Qed.

End PaginationProperties.

(** X26 on the administrator of the samples. *)
Lemma login_then_auth_witness :
  AdminController.verifies_own_tokens Sample2.jwt_sign Sample2.jwt_verify
  ∧ AuthMiddleware.authMiddleware Sample2.jwt_verify (Some "secret")
      (Some "Bearer good-token")
    = AuthMiddleware.Next
        {| AuthMiddleware.id := Some "1";
           AuthMiddleware.email := Some "admin@example.org";
           AuthMiddleware.role := Some "admin" |}.
Proof.
  assert (AdminController.verifies_own_tokens Sample2.jwt_sign Sample2.jwt_verify)
    as Hjwt.
  { intros [id email role] [secret|] token; [|done].
    unfold Sample2.jwt_sign, Sample2.jwt_verify. simpl.
    destruct (Sample2.option_eqb id (Some "1")) eqn:Hid; [|done].
    destruct (Sample2.option_eqb email (Some "admin@example.org")) eqn:Hemail;
      [|done].
    destruct (Sample2.option_eqb role (Some "admin")) eqn:Hrole; [|done].
    destruct id as [id|], email as [email|], role as [role|]; try done.
    simpl in *. apply String.eqb_eq in Hid as ->.
    apply String.eqb_eq in Hemail as ->. apply String.eqb_eq in Hrole as ->.
    by intros [= <-]. }
  split; [done|].
  destruct (login_then_auth (fun _ => Ok (Some Sample2.admin))
              (fun _ _ => Ok true) Sample2.jwt_sign Sample2.jwt_verify
              (Some "secret")
              (Some {| AdminController.cred_email := Some "admin@example.org";
                       AdminController.cred_password := Some "password" |}))
    as (_ & _ & Hauth).
  apply (Hauth Hjwt "good-token" "1" "admin@example.org" (Some "Admin") "admin").
  reflexivity.
Defined.

(** X27 on the third page of 45 orders, 20 to a page; on a page number
    that is no double; and on a page size after a no-break space. *)
Lemma listOrders_pagination_witness :
  (let p := OrderController.pagination (Some "3") None 45 in
   OrderController.totalPages p = 3 ∧ OrderController.skip p = Some 40
   ∧ OrderController.page p ≤ OrderController.totalPages p)
  ∧ OrderController.page
      (OrderController.pagination (Some "9007199254740993") None 45)
    = 9007199254740992
  ∧ OrderController.limit
      (OrderController.pagination None
         (Some (String (Ascii.ascii_of_nat 194)
                  (String (Ascii.ascii_of_nat 160) "50"))) 45)
    = 50.
Proof.
  split; [|split].
  - intros p.
    destruct (listOrders_pagination (Some "3") None 45)
      as (_ & _ & _ & _ & _ & _ & _ & Hpages).
    destruct Hpages as (Hskip & Hlast & _); [by vm_compute..|].
    split; [by vm_compute|]. split; [exact Hskip|]. apply Hlast. by vm_compute.
  - destruct (listOrders_pagination (Some "9007199254740993") None 45)
      as (_ & _ & _ & _ & Hpage & _).
    apply Hpage; by vm_compute.
  - destruct (listOrders_pagination None
                (Some (String (Ascii.ascii_of_nat 194)
                         (String (Ascii.ascii_of_nat 160) "50"))) 45)
      as (_ & _ & _ & _ & _ & Hlimit & _).
    apply Hlimit; by vm_compute.
Defined.
